(** * Tekion Smart Inventory: query understanding and ranking pipeline

    A shallow embedding of the Python services under [backend/app/services]
    ([semantic_parser_agent.py], [matcher_agent.py], [reason_agent.py]) and
    the properties of the pipeline that follow from the code.

    Modelling conventions.
    - A Python [str] is a [string] of bytes (UTF-8); [lower], [strip],
      [split] and character iteration act on ASCII, which is exact for
      ASCII text.  Where the code counts the characters of a reply
      ([_looks_truncated]), the model counts code points, strips the
      white space of Unicode and lowers the two characters outside ASCII
      whose lower case has an ASCII letter.
    - A Python [float] is an exact rational [Q]; there is no NaN and no
      infinity, and arithmetic does not round.  [int] is [Z].
    - A dynamically typed value is a [pyval]; a [dict] is an association
      list in insertion order with unique keys.  The intent, the metadata
      of a candidate and a match are dicts, as in the code; a candidate
      and a persona are records of the fields their producers
      ([pinecone_client.query_similar], [build_persona]) always set.
    - A function that may raise returns a [result]; [except Exception]
      is a match on it.
    - The completion collaborator, [json.loads] and [str] on floats and
      containers come from outside the repository: the services take
      them as a record, [Externals], and every theorem holds for all of
      them.  The examples run with a reader of JSON written here. *)

From Stdlib Require Import List String Ascii Bool Arith ZArith QArith Lia.
From Stdlib Require Import Qround Qminmax Lqa Permutation Sorted.
Import ListNotations.

Local Open Scope string_scope.
Local Open Scope Z_scope.

(* ================================================================== *)
(** * Exceptions and fallible computations *)

Inductive exn : Type :=
| TypeError
| AttributeError
| ValueError
| JSONDecodeError
| RuntimeError.

Inductive result (A : Type) : Type :=
| Ok (a : A)
| Raise (e : exn).

Arguments Ok {A} a.
Arguments Raise {A} e.

Definition bind {A B : Type} (m : result A) (k : A -> result B) : result B :=
  match m with
  | Ok a => k a
  | Raise e => Raise e
  end.

Notation "x <- m ;; k" := (bind m (fun x => k))
  (at level 61, m at next level, right associativity).

(* ================================================================== *)
(** * Strings *)

Module Str.

Definition dq : ascii := ascii_of_nat 34.
Definition backslash : ascii := ascii_of_nat 92.
Definition lbrace : ascii := ascii_of_nat 123.
Definition rbrace : ascii := ascii_of_nat 125.

Definition chars (s : string) : list ascii := list_ascii_of_string s.
Definition of_chars (l : list ascii) : string := string_of_list_ascii l.

Definition lower_ascii (c : ascii) : ascii :=
  let n := nat_of_ascii c in
  if ((65 <=? n) && (n <=? 90))%nat then ascii_of_nat (n + 32) else c.

Definition upper_ascii (c : ascii) : ascii :=
  let n := nat_of_ascii c in
  if ((97 <=? n) && (n <=? 122))%nat then ascii_of_nat (n - 32) else c.

(** [s.lower()] *)
Fixpoint lower (s : string) : string :=
  match s with
  | EmptyString => EmptyString
  | String c r => String (lower_ascii c) (lower r)
  end.

(** [needle in hay] for two strings *)
Fixpoint contains (needle hay : string) : bool :=
  String.prefix needle hay ||
  match hay with
  | EmptyString => false
  | String _ r => contains needle r
  end.

(** [any(w in text for w in ws)] *)
Definition any_in (ws : list string) (text : string) : bool :=
  existsb (fun w => contains w text) ws.

(** Whitespace as [str.strip], [str.split] and the regex class [\s] see
    it on ASCII. *)
Definition is_space (c : ascii) : bool :=
  let n := nat_of_ascii c in
  (((9 <=? n) && (n <=? 13)) || ((28 <=? n) && (n <=? 32)))%nat.

Fixpoint lstrip_chars (l : list ascii) : list ascii :=
  match l with
  | c :: r => if is_space c then lstrip_chars r else l
  | [] => []
  end.

Definition rstrip_chars (l : list ascii) : list ascii :=
  rev (lstrip_chars (rev l)).

(** [s.strip()] *)
Definition strip (s : string) : string :=
  of_chars (rstrip_chars (lstrip_chars (chars s))).

(** [s.split()]: maximal runs of non-whitespace characters. *)
Fixpoint split_chars (cur : list ascii) (l : list ascii) : list (list ascii) :=
  match l with
  | [] => match cur with [] => [] | _ => [rev cur] end
  | c :: r =>
      if is_space c
      then match cur with
           | [] => split_chars [] r
           | _ => rev cur :: split_chars [] r
           end
      else split_chars (c :: cur) r
  end.

Definition split (s : string) : list string :=
  map of_chars (split_chars [] (chars s)).

(** [sep.join(ws)] *)
Fixpoint join (sep : string) (ws : list string) : string :=
  match ws with
  | [] => ""
  | [w] => w
  | w :: r => w ++ sep ++ join sep r
  end.

Definition last_char (s : string) : option ascii :=
  match rev (chars s) with
  | c :: _ => Some c
  | [] => None
  end.

(** [s.endswith((".", "!", "?"))] *)
Definition ends_terminal (s : string) : bool :=
  match last_char s with
  | Some c => (c =? ".")%char || (c =? "!")%char || (c =? "?")%char
  | None => false
  end.

(** [s[0].upper() + s[1:]] for a non-empty [s] *)
Definition capitalize_first (s : string) : string :=
  match s with
  | EmptyString => EmptyString
  | String c r => String (upper_ascii c) r
  end.

(** Code point order on strings, as [sorted] uses it. *)
Fixpoint ltb (a b : string) : bool :=
  match a, b with
  | EmptyString, EmptyString => false
  | EmptyString, String _ _ => true
  | String _ _, EmptyString => false
  | String x a', String y b' =>
      if (nat_of_ascii x <? nat_of_ascii y)%nat then true
      else if (nat_of_ascii y <? nat_of_ascii x)%nat then false
      else ltb a' b'
  end.

(** Insertion into a sorted duplicate-free list: the model of a [set] of
    strings that is read back with [sorted]. *)
Fixpoint set_add (x : string) (l : list string) : list string :=
  match l with
  | [] => [x]
  | y :: r =>
      if String.eqb x y then l
      else if ltb x y then x :: l
      else y :: set_add x r
  end.

Definition set_of_list (l : list string) : list string :=
  fold_left (fun acc x => set_add x acc) l [].

Definition mem (x : string) (l : list string) : bool :=
  existsb (String.eqb x) l.

(** *** Code points

    The strings are UTF-8.  Where the code counts characters, [len]
    counts code points, and [strip_unicode] removes all the white space
    [str.strip] removes: the ASCII one and U+0085, U+00A0, U+1680, U+2000
    to U+200A, U+2028, U+2029, U+202F, U+205F and U+3000. *)

(** A continuation byte, [10xxxxxx]. *)
Definition is_continuation (c : ascii) : bool :=
  let n := nat_of_ascii c in
  ((128 <=? n) && (n <? 192))%nat.

(** [len(s)] *)
Definition len (s : string) : nat :=
  List.length (filter (fun c => negb (is_continuation c)) (chars s)).

(** U+0085 and U+00A0 *)
Definition is_space2 (c d : ascii) : bool :=
  let d := nat_of_ascii d in
  ((nat_of_ascii c =? 194) && ((d =? 133) || (d =? 160)))%nat.

(** U+1680; U+2000 to U+200A, U+2028, U+2029, U+202F; U+205F; U+3000 *)
Definition is_space3 (c d e : ascii) : bool :=
  let c := nat_of_ascii c in
  let d := nat_of_ascii d in
  let e := nat_of_ascii e in
  (((c =? 225) && (d =? 154) && (e =? 128))
   || ((c =? 226) && (d =? 128)
       && (((128 <=? e) && (e <=? 138))
           || (e =? 168) || (e =? 169) || (e =? 175)))
   || ((c =? 226) && (d =? 129) && (e =? 159))
   || ((c =? 227) && (d =? 128) && (e =? 128)))%nat.

Fixpoint lstrip_unicode (l : list ascii) : list ascii :=
  match l with
  | [] => []
  | c :: r =>
      if is_space c then lstrip_unicode r
      else
        match r with
        | d :: r1 =>
            if is_space2 c d then lstrip_unicode r1
            else
              match r1 with
              | e :: r2 => if is_space3 c d e then lstrip_unicode r2 else l
              | [] => l
              end
        | [] => l
        end
  end.

(** The same on the reversed text, where a character comes with its last
    byte first. *)
Fixpoint lstrip_unicode_rev (l : list ascii) : list ascii :=
  match l with
  | [] => []
  | e :: r =>
      if is_space e then lstrip_unicode_rev r
      else
        match r with
        | d :: r1 =>
            if is_space2 d e then lstrip_unicode_rev r1
            else
              match r1 with
              | c :: r2 =>
                  if is_space3 c d e then lstrip_unicode_rev r2 else l
              | [] => l
              end
        | [] => l
        end
  end.

(** [s.strip()] with the white space of Unicode *)
Definition strip_unicode (s : string) : string :=
  of_chars (rev (lstrip_unicode_rev (rev (lstrip_unicode (chars s))))).

(** [s.lower()] as far as a search for ASCII text can tell: beside the
    letters [A] to [Z], two characters have an ASCII letter in their
    lower case, U+0130 (which becomes [i] and U+0307) and the Kelvin sign
    U+212A (which becomes [k]); every other character keeps bytes above
    127. *)
Fixpoint lower_unicode_chars (l : list ascii) : list ascii :=
  match l with
  | [] => []
  | c :: r =>
      match r with
      | d :: r1 =>
          if ((nat_of_ascii c =? 196) && (nat_of_ascii d =? 176))%nat
          then "i"%char :: ascii_of_nat 204 :: ascii_of_nat 135
                 :: lower_unicode_chars r1
          else
            match r1 with
            | e :: r2 =>
                if ((nat_of_ascii c =? 226) && (nat_of_ascii d =? 132)
                    && (nat_of_ascii e =? 170))%nat
                then "k"%char :: lower_unicode_chars r2
                else lower_ascii c :: lower_unicode_chars r
            | [] => lower_ascii c :: lower_unicode_chars r
            end
      | [] => [lower_ascii c]
      end
  end.

Definition lower_unicode (s : string) : string :=
  of_chars (lower_unicode_chars (chars s)).

End Str.

(* ================================================================== *)
(** * Dynamically typed values *)

#[warnings="-register-all"]
Inductive pyval : Type :=
| PNone
| PBool (b : bool)
| PInt (z : Z)
| PFloat (q : Q)
| PStr (s : string)
| PList (l : list pyval)
| PDict (d : list (string * pyval)).

Definition dict : Type := list (string * pyval).

(** Association lists keyed by strings, in insertion order. *)
Section Assoc.
Context {V : Type}.

Fixpoint assoc_get (d : list (string * V)) (k : string) : option V :=
  match d with
  | [] => None
  | (k', v) :: r => if String.eqb k k' then Some v else assoc_get r k
  end.

(** [k in d] *)
Definition assoc_has (d : list (string * V)) (k : string) : bool :=
  match assoc_get d k with Some _ => true | None => false end.

(** [d[k] = v] *)
Fixpoint assoc_set (d : list (string * V)) (k : string) (v : V)
  : list (string * V) :=
  match d with
  | [] => [(k, v)]
  | (k', v') :: r =>
      if String.eqb k k' then (k, v) :: r else (k', v') :: assoc_set r k v
  end.

End Assoc.

(** [d.get(k)], with [None] for an absent key *)
Definition dict_get (d : dict) (k : string) : pyval :=
  match assoc_get d k with Some v => v | None => PNone end.

Definition dict_has (d : dict) (k : string) : bool := assoc_has d k.

Definition dict_set (d : dict) (k : string) (v : pyval) : dict :=
  assoc_set d k v.

(** [d.setdefault(k, v)] *)
Definition dict_setdefault (d : dict) (k : string) (v : pyval) : dict :=
  if dict_has d k then d else dict_set d k v.

(** Truth value of an object, as [if x:], [x or y] and [not x] use it. *)
Definition truthy (v : pyval) : bool :=
  match v with
  | PNone => false
  | PBool b => b
  | PInt z => negb (z =? 0)
  | PFloat q => negb (Qeq_bool q 0)
  | PStr s => negb (String.eqb s "")
  | PList l => match l with [] => false | _ => true end
  | PDict d => match d with [] => false | _ => true end
  end.

(** [x or y] *)
Definition py_or (x y : pyval) : pyval := if truthy x then x else y.

Definition is_none (v : pyval) : bool :=
  match v with PNone => true | _ => false end.

(** [(x or "").lower()]: only a [str] has [lower]. *)
Definition or_empty_lower (x : pyval) : result string :=
  match py_or x (PStr "") with
  | PStr s => Ok (Str.lower s)
  | _ => Raise AttributeError
  end.

(** Iteration over a value ([for u in x]). *)
Definition py_iter (v : pyval) : result (list pyval) :=
  match v with
  | PList l => Ok l
  | PStr s => Ok (map (fun c => PStr (String c EmptyString)) (Str.chars s))
  | PDict d => Ok (map (fun kv => PStr (fst kv)) d)
  | _ => Raise TypeError
  end.

(** [[u.lower() for u in l if isinstance(u, str)]] *)
Fixpoint lower_strs (l : list pyval) : list string :=
  match l with
  | [] => []
  | PStr s :: r => Str.lower s :: lower_strs r
  | _ :: r => lower_strs r
  end.

Definition digit_val (c : ascii) : option Z :=
  let n := nat_of_ascii c in
  if ((48 <=? n) && (n <=? 57))%nat then Some (Z.of_nat (n - 48)) else None.

(** Digits of an integer literal; single underscores may separate digits. *)
Fixpoint parse_digits (acc : Z) (after_digit : bool) (l : list ascii)
  : option Z :=
  match l with
  | [] => if after_digit then Some acc else None
  | c :: r =>
      match digit_val c with
      | Some d => parse_digits (acc * 10 + d) true r
      | None =>
          if (c =? "_")%char && after_digit
          then parse_digits acc false r
          else None
      end
  end.

Definition parse_int_literal (s : string) : option Z :=
  match Str.chars (Str.strip s) with
  | "-"%char :: r => option_map Z.opp (parse_digits 0 false r)
  | "+"%char :: r => parse_digits 0 false r
  | l => parse_digits 0 false l
  end.

(** [int(x)] *)
Definition py_int (v : pyval) : result Z :=
  match v with
  | PInt z => Ok z
  | PBool b => Ok (if b then 1 else 0)
  | PFloat q => Ok (Z.quot (Qnum q) (Z.pos (Qden q)))
  | PStr s =>
      match parse_int_literal s with
      | Some z => Ok z
      | None => Raise ValueError
      end
  | _ => Raise TypeError
  end.

Fixpoint pos_digits (fuel : nat) (z : Z) (acc : string) : string :=
  match fuel with
  | O => acc
  | S f =>
      let d := ascii_of_nat (48 + Z.to_nat (z mod 10)) in
      if z <? 10 then String d acc else pos_digits f (z / 10) (String d acc)
  end.

(** [str(z)] for an [int] *)
Definition str_of_Z (z : Z) : string :=
  if z <? 0
  then String "-" (pos_digits (S (Z.to_nat (Z.log2 (- z)))) (- z) "")
  else pos_digits (S (Z.to_nat (Z.log2 z))) z "".

(** [min(a, b)] and [max(a, b)] of the builtins: the first argument unless
    the second is strictly smaller (greater). *)
Definition Qltb (a b : Q) : bool := negb (Qle_bool b a).
Definition py_min (a b : Q) : Q := if Qltb b a then b else a.
Definition py_max (a b : Q) : Q := if Qltb a b then b else a.

(** [round(x)] of a float to an [int]: to nearest, ties to even. *)
Definition py_round (x : Q) : Z :=
  let f := Qfloor x in
  let r := (x - inject_Z f)%Q in
  if Qltb r (1 # 2) then f
  else if Qltb (1 # 2) r then f + 1
  else if Z.even f then f else f + 1.

(* ================================================================== *)
(** * Records of the pipeline *)

(** What [build_persona] returns. *)
Record Persona : Type := {
  label : string;
  primary_needs : list string;
  secondary_needs : list string;
  constraints : list string
}.

(** A candidate as [pinecone_client.query_similar] builds it:
    [{"id": str, "score": float, "metadata": {...}}]. *)
Record Candidate : Type := {
  cand_id : string;
  cand_score : Q;
  cand_metadata : dict
}.

(** The requests sent to the completion collaborator.  The prompt text is
    a function of the data listed here. *)
Inductive request : Type :=
| ParseRequest (user_text : string)
| ParseRetryRequest (user_text : string)
| ReasonsRequest (user_text : string) (persona : Persona) (cars : list dict).

(** What the services take from outside the repository: the completion
    collaborator ([llm_client.chat_completion], which returns text or
    [None]), [json.loads] ([None] stands for [JSONDecodeError]) and the
    builtin [str] on floats and containers. *)
Record Externals : Type := {
  chat_completion : request -> option string;
  json_loads : string -> option pyval;
  py_repr : pyval -> string
}.

(** [str(x)] *)
Definition py_str (X : Externals) (v : pyval) : string :=
  match v with
  | PStr s => s
  | PNone => "None"
  | PBool true => "True"
  | PBool false => "False"
  | PInt z => str_of_Z z
  | _ => py_repr X v
  end.

(** [not raw] for an optional reply *)
Definition no_text (raw : option string) : bool :=
  match raw with
  | None => true
  | Some s => String.eqb s ""
  end.

(* ================================================================== *)
(** * reason_agent.py *)

Module Reason.

Definition generic_sentence : string :=
  "This car is a well‑rounded choice that fits your described needs.".

(** The clauses of [_fallback_reason_from_rules], in the order the code
    appends them. *)
Definition fallback_bits (persona : Persona) (body fuel : string)
    (seats : pyval) (recent : bool) : list string :=
  let needs := primary_needs persona in
  (if Str.mem "comfort" needs then ["is comfortable to drive"] else [])
  ++ (if Str.mem "fuel_economy" needs
      then (if Str.contains "hybrid" fuel
            then ["helps you save fuel with its hybrid setup"]
            else ["is fuel‑efficient for everyday use"])
      else [])
  ++ (if Str.mem "space" needs
         || Str.contains "family" (Str.lower (label persona))
      then (if truthy seats
            then ["has enough space for your family"]
            else ["offers practical space for family use"])
      else [])
  ++ (if Str.mem "safety" needs
      then ["keeps your family’s safety in mind"] else [])
  ++ (if Str.mem "easy_to_park" needs
      then ["is easy to handle and park in the city"] else [])
  ++ (if String.eqb body "suv"
      then ["gives you an SUV’s higher driving position"]
      else if String.eqb body "sedan"
      then ["has a balanced sedan design for daily commutes"]
      else [])
  ++ (if recent
      then ["comes from a recent model year with modern features"]
      else []).

(** [_fallback_reason_from_rules] *)
Definition _fallback_reason_from_rules (user_text : string)
    (persona : Persona) (meta : dict) : result string :=
  body <- or_empty_lower (dict_get meta "body_type") ;;
  let year := dict_get meta "year" in
  fuel <- or_empty_lower (py_or (dict_get meta "fuel_type")
                                (dict_get meta "fuel")) ;;
  let seats := dict_get meta "seats" in
  let recent :=
    if truthy year
    then match py_int year with
         | Ok y => 2022 <=? y
         | Raise _ => false
         end
    else false in
  let bits := fallback_bits persona body fuel seats recent in
  match bits with
  | [] => Ok generic_sentence
  | _ =>
      let sentence := Str.join ", " (firstn 3 bits) in
      let sentence :=
        if Str.ends_terminal sentence then sentence else sentence ++ "." in
      Ok (Str.capitalize_first sentence)
  end.

(** [m.get("metadata") or {}], on which [.get] is then called *)
Definition metadata_of (m : dict) : result dict :=
  match py_or (dict_get m "metadata") (PDict []) with
  | PDict d => Ok d
  | _ => Raise AttributeError
  end.

(** One entry of [cars_for_prompt]. *)
Definition car_for_prompt (m : dict) : result dict :=
  meta <- metadata_of m ;;
  Ok [ ("id", dict_get m "id");
       ("name", py_or (dict_get meta "model")
                  (py_or (dict_get meta "raw_name") (dict_get m "name")));
       ("body_type", py_or (dict_get meta "body_type") (PStr ""));
       ("price_band", py_or (dict_get meta "price_band") (PStr ""));
       ("year", dict_get meta "year");
       ("fuel_type", py_or (dict_get meta "fuel_type")
                       (py_or (dict_get meta "fuel") (PStr "")));
       ("seats", dict_get meta "seats");
       ("tags", py_or (dict_get meta "tags") (PStr "")) ].

Fixpoint cars_for_prompt (top_matches : list dict) : result (list dict) :=
  match top_matches with
  | [] => Ok []
  | m :: r =>
      c <- car_for_prompt m ;;
      cs <- cars_for_prompt r ;;
      Ok (c :: cs)
  end.

(** [re.search(r"(\[.*\])", raw, re.S)]: from the first opening bracket to
    the last closing bracket after it. *)
Fixpoint upto_last_rbracket (l : list ascii) : option (list ascii) :=
  match l with
  | [] => None
  | c :: r =>
      match upto_last_rbracket r with
      | Some t => Some (c :: t)
      | None => if (c =? "]")%char then Some [c] else None
      end
  end.

Fixpoint search_array_chars (l : list ascii) : option (list ascii) :=
  match l with
  | [] => None
  | c :: r =>
      if (c =? "[")%char
      then match upto_last_rbracket r with
           | Some t => Some (c :: t)
           | None => None
           end
      else search_array_chars r
  end.

Definition search_array (raw : string) : option string :=
  option_map Str.of_chars (search_array_chars (Str.chars raw)).

(** The repair of one reason: at most 30 words, terminal punctuation. *)
Definition repair_reason (reason : string) : string :=
  let words := Str.split reason in
  let reason :=
    if (30 <? List.length words)%nat
    then Str.join " " (firstn 30 words) else reason in
  if Str.ends_terminal reason then reason else reason ++ ".".

(** The body of the loop over the parsed array. *)
Definition add_reason (X : Externals) (acc : list (string * string))
    (obj : pyval) : list (string * string) :=
  match obj with
  | PDict o =>
      if dict_has o "id" && dict_has o "reason"
      then match dict_get o "reason" with
           | PStr r =>
               let rid := py_str X (dict_get o "id") in
               let reason := Str.strip r in
               if negb (String.eqb reason "")
               then assoc_set acc rid (repair_reason reason)
               else acc
           | _ => acc
           end
      else acc
  | _ => acc
  end.

Definition reasons_of_data (X : Externals) (data : pyval)
  : list (string * string) :=
  match data with
  | PList objs => fold_left (add_reason X) objs []
  | _ => []
  end.

(** What follows the completion call in [generate_reasons_for_top_k]. *)
Definition reasons_of_reply (X : Externals) (raw : option string)
  : list (string * string) :=
  match raw with
  | None => []
  | Some raw =>
      if String.eqb raw "" then []
      else
        match json_loads X raw with
        | Some data => reasons_of_data X data
        | None =>
            match search_array raw with
            | None => []
            | Some group =>
                match json_loads X group with
                | Some data => reasons_of_data X data
                | None => []
                end
            end
        end
  end.

(** [generate_reasons_for_top_k] *)
Definition generate_reasons_for_top_k (X : Externals) (user_text : string)
    (persona : Persona) (top_matches : list dict)
  : result (list (string * string)) :=
  cars <- cars_for_prompt top_matches ;;
  let raw := chat_completion X (ReasonsRequest user_text persona cars) in
  Ok (reasons_of_reply X raw).

End Reason.

(* ================================================================== *)
(** * matcher_agent.py *)

Module Matcher.

(** [_normalize_similarity] *)
Definition _normalize_similarity (pinecone_score : Q) : Q :=
  let s := pinecone_score in
  let s := if Qltb s 0 then 0%Q else s in
  let s := if Qltb 2 s then (1 / (1 + s))%Q else s in
  let s := py_max 0 (py_min 1 s) in
  (s * 100)%Q.

(** The seat check inside its [try]: [int(seats) >= int(fam) + 1]; an
    exception leaves the score as it is. *)
Definition seats_fit (fam seats : pyval) : bool :=
  match py_int seats with
  | Ok ns =>
      match py_int fam with
      | Ok nf => nf + 1 <=? ns
      | Raise _ => false
      end
  | Raise _ => false
  end.

(** [any(x in body for x in xs)] *)
Definition any_sub (xs : list string) (body : string) : bool :=
  existsb (fun x => Str.contains x body) xs.

(** [_persona_match_score] *)
Definition _persona_match_score (X : Externals) (parsed metadata : dict)
  : result Q :=
  let score := 0%Q in
  let total := 0%Q in
  let '(score, total) :=
    if truthy (dict_get parsed "budget_band")
       && truthy (dict_get metadata "price_band")
    then
      let total := (total + 1)%Q in
      if String.eqb (Str.lower (py_str X (dict_get parsed "budget_band")))
                    (Str.lower (py_str X (dict_get metadata "price_band")))
      then ((score + 1)%Q, total) else (score, total)
    else (score, total) in
  let fam := dict_get parsed "family_size" in
  let seats := dict_get metadata "seats" in
  let '(score, total) :=
    if negb (is_none fam) && negb (is_none seats)
    then
      let total := (total + 1)%Q in
      if seats_fit fam seats then ((score + 1)%Q, total) else (score, total)
    else (score, total) in
  let usage := py_or (dict_get parsed "usage") (PList []) in
  body <- or_empty_lower (dict_get metadata "body_type") ;;
  items <- py_iter usage ;;
  let usage := lower_strs items in
  let usage_hit := false in
  let '(score, usage_hit) :=
    if match usage with [] => false | _ => true end
       && negb (String.eqb body "")
    then
      let '(score, usage_hit) :=
        if Str.mem "offroad" usage && Str.contains "suv" body
        then ((score + 1)%Q, true) else (score, usage_hit) in
      let '(score, usage_hit) :=
        if Str.mem "city" usage
           && any_sub ["hatch"; "sedan"; "compact"] body
        then ((score + 1)%Q, true) else (score, usage_hit) in
      let '(score, usage_hit) :=
        if Str.mem "family" usage
           && any_sub ["mpv"; "suv"; "minivan"; "estate"] body
        then ((score + 1)%Q, true) else (score, usage_hit) in
      (score, usage_hit)
    else (score, usage_hit) in
  let total := if usage_hit then (total + 1)%Q else total in
  if Qeq_bool total 0 then Ok 50%Q
  else Ok ((score / total) * 100)%Q.

(** The tier of an optional integer-like field, inside its [try]. *)
Definition year_bonus (year : pyval) : Q :=
  if truthy year
  then match py_int year with
       | Ok y =>
           if 2022 <=? y then 30%Q
           else if 2017 <=? y then 20%Q
           else if 2012 <=? y then 10%Q
           else 0%Q
       | Raise _ => 0%Q
       end
  else 0%Q.

Definition km_bonus (km : pyval) : Q :=
  if truthy km
  then match py_int km with
       | Ok k =>
           if k <? 30000 then 25%Q
           else if k <? 60000 then 15%Q
           else if k <? 100000 then 5%Q
           else 0%Q
       | Raise _ => 0%Q
       end
  else 0%Q.

Definition fuel_bonus (fuel : string) : Q :=
  if Str.contains "electric" fuel || Str.contains "ev" fuel then 30%Q
  else if Str.contains "hybrid" fuel then 25%Q
  else if Str.contains "diesel" fuel then 20%Q
  else if Str.contains "petrol" fuel then 10%Q
  else 0%Q.

(** [_heuristic_boost] *)
Definition _heuristic_boost (parsed metadata : dict) : result Q :=
  let boost := 0%Q in
  let boost := (boost + year_bonus (dict_get metadata "year"))%Q in
  let boost := (boost + km_bonus (dict_get metadata "km_driven"))%Q in
  fuel <- or_empty_lower (dict_get metadata "fuel") ;;
  let boost := (boost + fuel_bonus fuel)%Q in
  user_band <- or_empty_lower (dict_get parsed "budget_band") ;;
  car_band <- or_empty_lower (dict_get metadata "price_band") ;;
  let boost :=
    if negb (String.eqb user_band "") && negb (String.eqb car_band "")
       && String.eqb user_band car_band
    then (boost + 25)%Q else boost in
  Ok (py_min 100 boost).

(** [_safe_get_name] *)
Definition _safe_get_name (metadata : dict) (candidate_id : string) : pyval :=
  py_or (dict_get metadata "raw_name")
    (py_or (dict_get metadata "name")
      (py_or (dict_get metadata "title")
        (py_or (PStr candidate_id) (PStr "Unknown")))).

(** The blend of the three sub-scores, clamped. *)
Definition final_score (semantic persona_score heur : Q) : Q :=
  let alpha := (25 # 100)%Q in
  let beta := (15 # 100)%Q in
  let final := (semantic + alpha * persona_score + beta * heur)%Q in
  py_max 0 (py_min 100 final).

Definition specs_of (meta : dict) : dict :=
  [ ("make", dict_get meta "make");
    ("model", py_or (dict_get meta "model") (dict_get meta "raw_name"));
    ("raw_name", dict_get meta "raw_name");
    ("year", dict_get meta "year");
    ("fuel_type", py_or (dict_get meta "fuel_type") (dict_get meta "fuel"));
    ("seats", dict_get meta "seats");
    ("price", py_or (dict_get meta "price") (dict_get meta "selling_price"));
    ("price_band", dict_get meta "price_band");
    ("km_driven", dict_get meta "km_driven");
    ("drivetrain", dict_get meta "drivetrain");
    ("transmission", dict_get meta "transmission");
    ("tags", dict_get meta "tags") ].

(** The body of the first loop of [score_candidates]: the match built for
    one candidate. *)
Definition build_match (X : Externals) (parsed : dict) (c : Candidate)
  : result dict :=
  let meta := cand_metadata c in
  let semantic := _normalize_similarity (cand_score c) in
  persona_score <- _persona_match_score X parsed meta ;;
  heur <- _heuristic_boost parsed meta ;;
  let final := final_score semantic persona_score heur in
  Ok [ ("id", PStr (cand_id c));
       ("name", _safe_get_name meta (cand_id c));
       ("score", PInt (py_round final));
       ("reasons", PList []);
       ("image_url", dict_get meta "image_url");
       ("price_band", dict_get meta "price_band");
       ("body_type", dict_get meta "body_type");
       ("specs", PDict (specs_of meta)) ].

Fixpoint build_matches (X : Externals) (parsed : dict)
    (candidates : list Candidate) : result (list dict) :=
  match candidates with
  | [] => Ok []
  | c :: r =>
      m <- build_match X parsed c ;;
      ms <- build_matches X parsed r ;;
      Ok (m :: ms)
  end.

(** [x["score"]], the sort key *)
Definition match_score (m : dict) : Z :=
  match dict_get m "score" with
  | PInt z => z
  | _ => 0
  end.

(** [results.sort(key=..., reverse=True)]: a stable sort, largest key
    first; equal keys keep their order. *)
Fixpoint insert_desc (m : dict) (l : list dict) : list dict :=
  match l with
  | [] => [m]
  | h :: t =>
      if match_score h <=? match_score m then m :: l
      else h :: insert_desc m t
  end.

Definition sort_desc (l : list dict) : list dict :=
  fold_right insert_desc [] l.

(** [l[:k]] for an [int] [k]: a negative [k] counts from the end. *)
Definition slice_to {A : Type} (l : list A) (k : Z) : list A :=
  if 0 <=? k then firstn (Z.to_nat k) l
  else firstn (List.length l - Z.to_nat (- k)) l.

(** The body of the second loop of [score_candidates]. *)
Definition set_reasons (X : Externals) (user_text : string)
    (persona : Persona) (reasons_by_id : list (string * string)) (r : dict)
  : result dict :=
  let rid := py_str X (dict_get r "id") in
  match assoc_get reasons_by_id rid with
  | Some reason => Ok (dict_set r "reasons" (PList [PStr reason]))
  | None =>
      meta <- Reason.metadata_of r ;;
      fallback <- Reason._fallback_reason_from_rules user_text persona meta ;;
      Ok (dict_set r "reasons" (PList [PStr fallback]))
  end.

Fixpoint set_all_reasons (X : Externals) (user_text : string)
    (persona : Persona) (reasons_by_id : list (string * string))
    (top_matches : list dict) : result (list dict) :=
  match top_matches with
  | [] => Ok []
  | r :: rest =>
      r' <- set_reasons X user_text persona reasons_by_id r ;;
      rest' <- set_all_reasons X user_text persona reasons_by_id rest ;;
      Ok (r' :: rest')
  end.

(** [score_candidates] *)
Definition score_candidates (X : Externals) (parsed : dict)
    (persona : Persona) (candidates : list Candidate) (user_text : string)
    (top_k : Z) : result (list dict) :=
  results <- build_matches X parsed candidates ;;
  let results := sort_desc results in
  let top_matches := slice_to results top_k in
  reasons_by_id <-
    Reason.generate_reasons_for_top_k X user_text persona top_matches ;;
  set_all_reasons X user_text persona reasons_by_id top_matches.

End Matcher.

(* ================================================================== *)
(** * semantic_parser_agent.py *)

Module Parser.

(** [x in container] for a string [x] *)
Definition py_contains_str (container : pyval) (x : string) : result bool :=
  match container with
  | PList l =>
      Ok (existsb (fun v => match v with
                            | PStr s => String.eqb s x
                            | _ => false
                            end) l)
  | PStr s => Ok (Str.contains x s)
  | PDict d => Ok (dict_has d x)
  | _ => Raise TypeError
  end.

(** [container.append(x)]: only a list has it. *)
Definition py_append (container : pyval) (x : string) : result pyval :=
  match container with
  | PList l => Ok (PList (l ++ [PStr x]))
  | _ => Raise AttributeError
  end.

(** [{u.lower() for u in v if isinstance(u, str)}] *)
Definition lower_set (v : pyval) : result (list string) :=
  items <- py_iter v ;;
  Ok (Str.set_of_list (lower_strs items)).

Definition add_if (b : bool) (x : string) (s : list string) : list string :=
  if b then Str.set_add x s else s.

(** The tiered default of [family_size]. *)
Definition family_size_default (text : string) : Z :=
  if Str.contains "small family" text || Str.contains "small families" text
  then 3
  else if Str.contains "big family" text || Str.contains "large family" text
  then 5
  else 3.

(** The budget keywords; [None] leaves the field as it is. *)
Definition budget_from_text (text : string) : option string :=
  if Str.any_in ["mid price range"; "mid price"; "mid-range"; "mid range"] text
  then Some "mid"
  else if Str.any_in ["low budget"; "cheap"; "entry level"; "entry-level"] text
  then Some "low"
  else if Str.any_in ["high budget"; "premium"; "luxury"] text
  then Some "high"
  else None.

(** The six required keys, each with its default where it is absent:
    the [setdefault] calls of [_enrich_from_text] and the loop of
    [_normalize_shape]. *)
Definition with_defaults (parsed : dict) : dict :=
  let parsed := dict_setdefault parsed "family_size" PNone in
  let parsed := dict_setdefault parsed "budget_band" PNone in
  let parsed := dict_setdefault parsed "usage" (PList []) in
  let parsed := dict_setdefault parsed "preferences" (PList []) in
  let parsed := dict_setdefault parsed "body_type_preference" (PList []) in
  dict_setdefault parsed "other" (PDict []).

Definition family_words (text : string) : bool :=
  Str.any_in ["family"; "families"; "kids"] text.

Definition outdoor_words (text : string) : bool :=
  Str.any_in ["hiking"; "camp"; "offroad"; "trail"; "mountain"; "camping";
              "trails"] text.

(** The tags the keyword rules add to [usage]. *)
Definition usage_from_text (text : string) (usage : list string)
  : list string :=
  let usage := add_if (family_words text) "family" usage in
  let usage :=
    add_if (Str.any_in ["daily commute"; "daily commuting"; "daily driving";
                        "office commute"; "city traffic"; "city driving";
                        "city use"] text) "city" usage in
  add_if (outdoor_words text) "offroad" usage.

(** The tags the keyword rules add to [preferences]. *)
Definition prefs_from_text (text : string) (prefs : list string)
  : list string :=
  let prefs := add_if (outdoor_words text) "ruggedness" prefs in
  let prefs :=
    add_if (Str.contains "comfortable" text || Str.contains "comfort" text)
           "comfort" prefs in
  let prefs :=
    add_if (Str.contains "safe" text || Str.contains "safety" text)
           "safety" prefs in
  let prefs :=
    add_if (Str.contains "mileage" text || Str.contains "fuel efficient" text
            || Str.contains "fuel efficiency" text
            || Str.contains "low fuel cost" text)
           "fuel_economy" prefs in
  let prefs :=
    add_if (Str.contains "powerful" text || Str.contains "performance" text
            || Str.contains "sporty" text || Str.contains "fast" text)
           "performance" prefs in
  add_if (Str.contains "reliable" text || Str.contains "low maintenance" text)
         "reliability" prefs.

(** [family_size] is filled only where it is [None]. *)
Definition fill_family_size (text : string) (parsed : dict) : dict :=
  if family_words text && is_none (dict_get parsed "family_size")
  then dict_set parsed "family_size" (PInt (family_size_default text))
  else parsed.

(** [budget_band] is filled only where it is [None]. *)
Definition fill_budget_band (text : string) (parsed : dict) : dict :=
  if is_none (dict_get parsed "budget_band")
  then match budget_from_text text with
       | Some b => dict_set parsed "budget_band" (PStr b)
       | None => parsed
       end
  else parsed.

(** A [midsize car] phrase appends [sedan] where it is not there yet. *)
Definition append_sedan (text : string) (parsed : dict) : result dict :=
  if Str.any_in ["midsize car"; "mid size car"; "mid-size car"] text
  then
    has <- py_contains_str (dict_get parsed "body_type_preference") "sedan" ;;
    if has then Ok parsed
    else
      l <- py_append (dict_get parsed "body_type_preference") "sedan" ;;
      Ok (dict_set parsed "body_type_preference" l)
  else Ok parsed.

(** An [offroad] usage with no body preference appends [suv]. *)
Definition append_suv (usage : list string) (parsed : dict) : result dict :=
  if Str.mem "offroad" usage
     && negb (truthy (dict_get parsed "body_type_preference"))
  then
    l <- py_append (dict_get parsed "body_type_preference") "suv" ;;
    Ok (dict_set parsed "body_type_preference" l)
  else Ok parsed.

(** [_enrich_from_text].  The code interleaves the updates of [parsed]
    with those of the two sets; they do not depend on each other and are
    grouped here. *)
Definition _enrich_from_text (parsed : dict) (user_text : string)
  : result dict :=
  let text := Str.lower user_text in
  let parsed := with_defaults parsed in
  usage <- lower_set (dict_get parsed "usage") ;;
  prefs <- lower_set (dict_get parsed "preferences") ;;
  let usage := usage_from_text text usage in
  let prefs := prefs_from_text text prefs in
  let parsed := fill_family_size text parsed in
  let parsed := fill_budget_band text parsed in
  parsed <- append_sedan text parsed ;;
  parsed <- append_suv usage parsed ;;
  let parsed := dict_set parsed "usage" (PList (map PStr usage)) in
  let parsed := dict_set parsed "preferences" (PList (map PStr prefs)) in
  Ok parsed.

(** The loop of [_find_first_balanced_json], started at the first opening
    brace: the offset [i - start] at which it returns. *)
Fixpoint scan_balanced (depth : Z) (in_string esc : bool) (l : list ascii)
  : option nat :=
  match l with
  | [] => None
  | ch :: r =>
      let in_string :=
        if (ch =? Str.dq)%char && negb esc then negb in_string
        else in_string in
      let esc := (ch =? Str.backslash)%char && negb esc in
      if in_string then option_map S (scan_balanced depth in_string esc r)
      else
        let depth :=
          if (ch =? Str.lbrace)%char then depth + 1
          else if (ch =? Str.rbrace)%char then depth - 1
          else depth in
        if depth =? 0 then Some O
        else option_map S (scan_balanced depth in_string esc r)
  end.

(** [_FIRST_BRACE_RE.search(s)]: what is left of [s] from its first
    opening brace on. *)
Fixpoint from_first_brace (l : list ascii) : option (list ascii) :=
  match l with
  | [] => None
  | c :: r => if (c =? Str.lbrace)%char then Some l else from_first_brace r
  end.

Definition find_balanced_chars (l : list ascii) : option (list ascii) :=
  match from_first_brace l with
  | None => None
  | Some t =>
      match scan_balanced 0 false false t with
      | Some n => Some (firstn (S n) t)
      | None => None
      end
  end.

(** [_find_first_balanced_json] *)
Definition _find_first_balanced_json (s : string) : option string :=
  option_map Str.of_chars (find_balanced_chars (Str.chars s)).

Definition is_closer (c : ascii) : bool :=
  (c =? Str.rbrace)%char || (c =? "]")%char.

(** [re.sub(r",\s*(\}|])", r"\1", s)]: [pend] holds the whitespace seen
    after a comma that may still turn out to be a trailing one. *)
Fixpoint sub_trailing_commas (pend : option (list ascii)) (l : list ascii)
  : list ascii :=
  match l with
  | [] =>
      match pend with
      | Some ws => ","%char :: rev ws
      | None => []
      end
  | c :: r =>
      match pend with
      | None =>
          if (c =? ",")%char then sub_trailing_commas (Some []) r
          else c :: sub_trailing_commas None r
      | Some ws =>
          if Str.is_space c then sub_trailing_commas (Some (c :: ws)) r
          else if is_closer c then c :: sub_trailing_commas None r
          else if (c =? ",")%char
          then (","%char :: rev ws) ++ sub_trailing_commas (Some []) r
          else (","%char :: rev ws) ++ c :: sub_trailing_commas None r
      end
  end.

Definition strip_trailing_commas (s : string) : string :=
  Str.of_chars (sub_trailing_commas None (Str.chars s)).

(** [_attempt_json_load]; [None] is the argument [None]. *)
Definition _attempt_json_load (X : Externals) (s : option string)
  : result pyval :=
  match s with
  | None => Raise JSONDecodeError
  | Some s =>
      match json_loads X s with
      | Some v => Ok v
      | None =>
          match json_loads X (strip_trailing_commas s) with
          | Some v => Ok v
          | None =>
              match _find_first_balanced_json s with
              | Some balanced =>
                  if negb (String.eqb balanced "")
                  then
                    match json_loads X balanced with
                    | Some v => Ok v
                    | None =>
                        match json_loads X (strip_trailing_commas balanced) with
                        | Some v => Ok v
                        | None => Raise JSONDecodeError
                        end
                    end
                  else Raise JSONDecodeError
              | None => Raise JSONDecodeError
              end
          end
      end
  end.

(** [_normalize_shape] *)
Definition _normalize_shape (parsed : pyval) : result dict :=
  match parsed with
  | PDict d => Ok (with_defaults d)
  | _ => Raise RuntimeError
  end.

(** [_simple_heuristic_parse] *)
Definition _simple_heuristic_parse (user_text : string) : result dict :=
  let parsed :=
    [ ("family_size", PNone);
      ("budget_band", PNone);
      ("usage", PList []);
      ("preferences", PList []);
      ("body_type_preference", PList []);
      ("other", PDict [("heuristic", PBool true)]) ] in
  parsed <- _normalize_shape (PDict parsed) ;;
  _enrich_from_text parsed user_text.

(** [_looks_truncated], the local function of [parse_user_needs]; the
    markers are ASCII, and [len(s.strip())] counts the characters left
    once the white space of Unicode is gone. *)
Definition _looks_truncated (s : option string) : bool :=
  match s with
  | None => true
  | Some s =>
      if String.eqb s "" then true
      else
        let check := Str.lower_unicode s in
        if Str.contains "finish_reason=max_tokens" check
           || Str.contains "max_tokens" check
           || Str.contains "partial" check
        then true
        else if Str.contains "sdk_http_response" check
                || Str.contains "candidates=" check
        then true
        else (Str.len (Str.strip_unicode s) <? 5)%nat
  end.

Definition fence : list ascii := ["`"%char; "`"%char; "`"%char].

Fixpoint strip_prefix (p l : list ascii) : option (list ascii) :=
  match p, l with
  | [], _ => Some l
  | a :: p', b :: l' => if (a =? b)%char then strip_prefix p' l' else None
  | _ :: _, [] => None
  end.

Definition starts_with (p l : list ascii) : bool :=
  match strip_prefix p l with Some _ => true | None => false end.

(** The lazy [.*?\}\s*```] after the opening brace: up to the first closing
    brace that whitespace and a fence follow. *)
Fixpoint lazy_to_close (l : list ascii) : option (list ascii) :=
  match l with
  | [] => None
  | c :: r =>
      if (c =? Str.rbrace)%char && starts_with fence (Str.lstrip_chars r)
      then Some [c]
      else option_map (cons c) (lazy_to_close r)
  end.

(** A match of [_JSON_FENCE_RE] that starts at the head of [l]: its
    group 1. *)
Definition fence_at (l : list ascii) : option (list ascii) :=
  match strip_prefix fence l with
  | None => None
  | Some r =>
      let r := match strip_prefix (Str.chars "json") r with
               | Some r' => r'
               | None => r
               end in
      match Str.lstrip_chars r with
      | c :: body =>
          if (c =? Str.lbrace)%char
          then option_map (cons c) (lazy_to_close body)
          else None
      | [] => None
      end
  end.

(** [_JSON_FENCE_RE.search(raw)], group 1 of the leftmost match *)
Fixpoint search_fence_chars (l : list ascii) : option (list ascii) :=
  match fence_at l with
  | Some g => Some g
  | None =>
      match l with
      | [] => None
      | _ :: r => search_fence_chars r
      end
  end.

Definition search_fence (raw : string) : option string :=
  option_map Str.of_chars (search_fence_chars (Str.chars raw)).

(** The [except] clauses of [parse_user_needs]. *)
Definition on_parse_failure (raw : string) (user_text : string)
  : result dict :=
  if _looks_truncated (Some raw) then _simple_heuristic_parse user_text
  else Raise RuntimeError.

(** The last [try] of [parse_user_needs] and what follows it. *)
Definition load_and_finish (X : Externals) (raw : string)
    (json_text : option string) (user_text : string) : result dict :=
  match _attempt_json_load X json_text with
  | Raise _ => on_parse_failure raw user_text
  | Ok parsed =>
      parsed <- _normalize_shape parsed ;;
      _enrich_from_text parsed user_text
  end.

(** [parse_user_needs] from the point where a non-empty reply is at
    hand. *)
Definition parse_reply (X : Externals) (raw : string) (user_text : string)
  : result dict :=
  let json_text :=
    match search_fence raw with
    | Some g => Some g
    | None => _find_first_balanced_json raw
    end in
  match json_text with
  | None =>
      match _attempt_json_load X (Some raw) with
      | Ok (PDict d) =>
          match (parsed <- _normalize_shape (PDict d) ;;
                 _enrich_from_text parsed user_text) with
          | Ok parsed => Ok parsed
          | Raise _ => on_parse_failure raw user_text
          end
      | Ok _ => load_and_finish X raw json_text user_text
      | Raise _ => on_parse_failure raw user_text
      end
  | Some _ => load_and_finish X raw json_text user_text
  end.

(** [parse_user_needs] *)
Definition parse_user_needs (X : Externals) (user_text : string)
  : result dict :=
  let raw := chat_completion X (ParseRequest user_text) in
  let raw :=
    if _looks_truncated raw
    then chat_completion X (ParseRetryRequest user_text)
    else raw in
  match raw with
  | None => _simple_heuristic_parse user_text
  | Some raw =>
      if String.eqb raw "" then _simple_heuristic_parse user_text
      else parse_reply X raw user_text
  end.

End Parser.

(* ================================================================== *)
(** * A reader for JSON text

    [json.loads] is a parameter of the services above.  The examples
    below run them with this reader of the JSON grammar: objects (a
    repeated key keeps its first position and its last value, as a Python
    dict does), arrays, strings with their escapes, numbers ([int] without
    fraction and exponent, otherwise the exact rational value), [true],
    [false] and [null].  The literals [NaN] and [Infinity], which
    [json.loads] also accepts, are rejected here. *)

Module Json.

Definition is_ws (c : ascii) : bool :=
  let n := nat_of_ascii c in
  ((n =? 32) || (n =? 9) || (n =? 10) || (n =? 13))%nat.

Fixpoint skip_ws (l : list ascii) : list ascii :=
  match l with
  | c :: r => if is_ws c then skip_ws r else l
  | [] => []
  end.

Fixpoint span_digits (l : list ascii) : list Z * list ascii :=
  match l with
  | c :: r =>
      match digit_val c with
      | Some d => let '(ds, rest) := span_digits r in (d :: ds, rest)
      | None => ([], l)
      end
  | [] => ([], [])
  end.

Definition digits_value (ds : list Z) : Z :=
  fold_left (fun acc d => acc * 10 + d) ds 0.

(** The integer part: [0] or a digit sequence without leading zero. *)
Definition int_part (l : list ascii) : option (list Z * list ascii) :=
  match l with
  | "0"%char :: r => Some ([0], r)
  | _ =>
      match span_digits l with
      | ([], _) => None
      | (ds, rest) => Some (ds, rest)
      end
  end.

Definition frac_part (l : list ascii) : list Z * list ascii :=
  match l with
  | "."%char :: r =>
      match span_digits r with
      | ([], _) => ([], l)
      | (ds, rest) => (ds, rest)
      end
  | _ => ([], l)
  end.

(** The exponent, if there is one. *)
Definition exp_part (l : list ascii) : option Z * list ascii :=
  match l with
  | c :: r =>
      if (c =? "e")%char || (c =? "E")%char
      then
        let '(neg, r') :=
          match r with
          | "-"%char :: t => (true, t)
          | "+"%char :: t => (false, t)
          | _ => (false, r)
          end in
        match span_digits r' with
        | ([], _) => (None, l)
        | (ds, rest) =>
            (Some (if neg then - digits_value ds else digits_value ds), rest)
        end
      else (None, l)
  | [] => (None, l)
  end.

Definition scaled (m e : Z) : Q :=
  if 0 <=? e then inject_Z (m * 10 ^ e)
  else Qred (Qmake m (Z.to_pos (10 ^ (- e)))).

Definition parse_number (l : list ascii) : option (pyval * list ascii) :=
  let '(neg, l1) :=
    match l with
    | "-"%char :: t => (true, t)
    | _ => (false, l)
    end in
  match int_part l1 with
  | None => None
  | Some (ds, l2) =>
      let '(fs, l3) := frac_part l2 in
      let '(ex, l4) := exp_part l3 in
      let sign := fun z : Z => if neg then - z else z in
      match fs, ex with
      | [], None => Some (PInt (sign (digits_value ds)), l4)
      | _, _ =>
          let m := sign (digits_value (ds ++ fs)%list) in
          let e := match ex with Some e => e | None => 0 end in
          Some (PFloat (scaled m (e - Z.of_nat (List.length fs))), l4)
      end
  end.

Definition hex_val (c : ascii) : option Z :=
  let n := nat_of_ascii c in
  if ((48 <=? n) && (n <=? 57))%nat then Some (Z.of_nat (n - 48))
  else if ((97 <=? n) && (n <=? 102))%nat then Some (Z.of_nat (n - 87))
  else if ((65 <=? n) && (n <=? 70))%nat then Some (Z.of_nat (n - 55))
  else None.

Definition hex4 (l : list ascii) : option (Z * list ascii) :=
  match l with
  | a :: b :: c :: d :: r =>
      match hex_val a, hex_val b, hex_val c, hex_val d with
      | Some x, Some y, Some z, Some w =>
          Some (((x * 16 + y) * 16 + z) * 16 + w, r)
      | _, _, _, _ => None
      end
  | _ => None
  end.

Definition byte (z : Z) : ascii := ascii_of_nat (Z.to_nat z).

(** UTF-8 encoding of a code point. *)
Definition utf8 (cp : Z) : list ascii :=
  if cp <? 128 then [byte cp]
  else if cp <? 2048 then [byte (192 + cp / 64); byte (128 + cp mod 64)]
  else if cp <? 65536
  then [byte (224 + cp / 4096); byte (128 + (cp / 64) mod 64);
        byte (128 + cp mod 64)]
  else [byte (240 + cp / 262144); byte (128 + (cp / 4096) mod 64);
        byte (128 + (cp / 64) mod 64); byte (128 + cp mod 64)].

(** A [\uXXXX] escape, after the [u]; a high surrogate joins the low
    surrogate that follows it. *)
Definition unicode_escape (l : list ascii) : option (list ascii * list ascii) :=
  match hex4 l with
  | None => None
  | Some (hi, r) =>
      if (55296 <=? hi) && (hi <=? 56319)
      then match r with
           | "\"%char :: "u"%char :: r' =>
               match hex4 r' with
               | Some (lo, r'') =>
                   if (56320 <=? lo) && (lo <=? 57343)
                   then Some (utf8 (65536 + (hi - 55296) * 1024
                                    + (lo - 56320)), r'')
                   else Some (utf8 hi, r)
               | None => Some (utf8 hi, r)
               end
           | _ => Some (utf8 hi, r)
           end
      else Some (utf8 hi, r)
  end.

Definition simple_escape (c : ascii) : option ascii :=
  if (c =? Str.dq)%char then Some Str.dq
  else if (c =? "\")%char then Some "\"%char
  else if (c =? "/")%char then Some "/"%char
  else if (c =? "b")%char then Some (ascii_of_nat 8)
  else if (c =? "f")%char then Some (ascii_of_nat 12)
  else if (c =? "n")%char then Some (ascii_of_nat 10)
  else if (c =? "r")%char then Some (ascii_of_nat 13)
  else if (c =? "t")%char then Some (ascii_of_nat 9)
  else None.

(** The characters of a string literal after its opening quote. *)
Fixpoint string_body (fuel : nat) (l : list ascii)
  : option (list ascii * list ascii) :=
  match fuel with
  | O => None
  | S f =>
      match l with
      | [] => None
      | c :: r =>
          if (c =? Str.dq)%char then Some ([], r)
          else if (c =? "\")%char
          then match r with
               | [] => None
               | e :: r' =>
                   if (e =? "u")%char
                   then match unicode_escape r' with
                        | Some (bs, r'') =>
                            match string_body f r'' with
                            | Some (t, rest) => Some ((bs ++ t)%list, rest)
                            | None => None
                            end
                        | None => None
                        end
                   else match simple_escape e with
                        | Some x =>
                            match string_body f r' with
                            | Some (t, rest) => Some (x :: t, rest)
                            | None => None
                            end
                        | None => None
                        end
               end
          else if (nat_of_ascii c <? 32)%nat then None
          else match string_body f r with
               | Some (t, rest) => Some (c :: t, rest)
               | None => None
               end
      end
  end.

Definition parse_string (l : list ascii) : option (string * list ascii) :=
  match string_body (S (List.length l)) l with
  | Some (cs, rest) => Some (Str.of_chars cs, rest)
  | None => None
  end.

Definition literal (name : string) (v : pyval) (l : list ascii)
  : option (pyval * list ascii) :=
  match Parser.strip_prefix (Str.chars name) l with
  | Some r => Some (v, r)
  | None => None
  end.

Fixpoint parse_value (fuel : nat) (l : list ascii)
  : option (pyval * list ascii) :=
  match fuel with
  | O => None
  | S f =>
      match skip_ws l with
      | [] => None
      | c :: r =>
          if (c =? Str.lbrace)%char
          then match skip_ws r with
               | c' :: r' =>
                   if (c' =? Str.rbrace)%char then Some (PDict [], r')
                   else parse_members f (c' :: r') []
               | [] => None
               end
          else if (c =? "[")%char
          then match skip_ws r with
               | c' :: r' =>
                   if (c' =? "]")%char then Some (PList [], r')
                   else parse_elements f (c' :: r') []
               | [] => None
               end
          else if (c =? Str.dq)%char
          then match parse_string r with
               | Some (s, rest) => Some (PStr s, rest)
               | None => None
               end
          else if (c =? "t")%char then literal "true" (PBool true) (c :: r)
          else if (c =? "f")%char then literal "false" (PBool false) (c :: r)
          else if (c =? "n")%char then literal "null" PNone (c :: r)
          else parse_number (c :: r)
      end
  end
with parse_members (fuel : nat) (l : list ascii) (acc : dict)
  : option (pyval * list ascii) :=
  match fuel with
  | O => None
  | S f =>
      match l with
      | c :: r =>
          if (c =? Str.dq)%char
          then match parse_string r with
               | Some (k, r1) =>
                   match skip_ws r1 with
                   | ":"%char :: r2 =>
                       match parse_value f r2 with
                       | Some (v, r3) =>
                           match skip_ws r3 with
                           | c3 :: r4 =>
                               if (c3 =? ",")%char
                               then parse_members f (skip_ws r4)
                                      (dict_set acc k v)
                               else if (c3 =? Str.rbrace)%char
                               then Some (PDict (dict_set acc k v), r4)
                               else None
                           | [] => None
                           end
                       | None => None
                       end
                   | _ => None
                   end
               | None => None
               end
          else None
      | [] => None
      end
  end
with parse_elements (fuel : nat) (l : list ascii) (acc : list pyval)
  : option (pyval * list ascii) :=
  match fuel with
  | O => None
  | S f =>
      match parse_value f l with
      | Some (v, r) =>
          match skip_ws r with
          | c :: r' =>
              if (c =? ",")%char then parse_elements f r' (acc ++ [v])%list
              else if (c =? "]")%char then Some (PList (acc ++ [v])%list, r')
              else None
          | [] => None
          end
      | None => None
      end
  end.

(** The whole text is one value, whitespace around it apart. *)
Definition loads (s : string) : option pyval :=
  let l := Str.chars s in
  match parse_value (S (List.length l)) l with
  | Some (v, rest) =>
      match skip_ws rest with
      | [] => Some v
      | _ => None
      end
  | None => None
  end.

End Json.

(** The externals of the examples: a completion collaborator given by its
    replies, the reader above for [json.loads]; [str] of a float or a
    container is not used there. *)
Definition externals (chat : request -> option string) : Externals :=
  {| chat_completion := chat;
     json_loads := Json.loads;
     py_repr := fun _ => "" |}.

(** The completion collaborator that answers nothing. *)
Definition silent : request -> option string := fun _ => None.

(** A collaborator that gives the same reply to every request. *)
Definition always (reply : string) : request -> option string :=
  fun _ => Some reply.

(** A double quote, for the JSON texts of the examples. *)
Definition q : string := String Str.dq EmptyString.

(* ================================================================== *)
(** * What the specification says, stated on its own *)

Module Spec.

(** The semantic sub-score as the specification words it: 0 for a negative
    value, [100 * (1 / (1 + s))] above 2, otherwise [100 * min(s, 1)]. *)
Definition semantic_score (s : Q) : Q :=
  if Qltb s 0 then 0%Q
  else if Qltb 2 s then (100 * (1 / (1 + s)))%Q
  else (100 * Qmin s 1)%Q.

(** The six fields of an intent. *)
Definition intent_fields : list string :=
  ["family_size"; "budget_band"; "usage"; "preferences";
   "body_type_preference"; "other"].

Definition all_fields_present (d : dict) : bool :=
  forallb (dict_has d) intent_fields.

(** A value a [for] loop accepts. *)
Definition iterable (v : pyval) : bool :=
  match v with
  | PList _ | PStr _ | PDict _ => true
  | _ => false
  end.

Definition is_list (v : pyval) : bool :=
  match v with
  | PList _ => true
  | _ => false
  end.

(** The collection fields of an intent have the types the enrichment
    relies on: [usage] and [preferences] can be iterated,
    [body_type_preference] is a list. *)
Definition collections_typed (d : dict) : bool :=
  iterable (dict_get d "usage")
  && iterable (dict_get d "preferences")
  && is_list (dict_get d "body_type_preference").

(** What the steps of the enrichment keep of [parsed]: the six fields,
    and a list under [body_type_preference]. *)
Definition shaped (d : dict) : Prop :=
  all_fields_present d = true
  /\ is_list (dict_get d "body_type_preference") = true.

(** [x in usage] for the [usage] field of an intent. *)
Definition usage_includes (d : dict) (x : string) : bool :=
  match dict_get d "usage" with
  | PList l =>
      existsb (fun v => match v with
                        | PStr s => String.eqb s x
                        | _ => false
                        end) l
  | _ => false
  end.

(** *** Ranking *)

(** Sorted by score, largest first. *)
Definition descending (l : list dict) : Prop :=
  StronglySorted
    (fun a b => Matcher.match_score b <= Matcher.match_score a) l.

(** The matches of score [v], in the order of [l]. *)
Definition with_score (v : Z) (l : list dict) : list dict :=
  filter (fun m => Matcher.match_score m =? v) l.

Definition ids (l : list dict) : list pyval :=
  map (fun m => dict_get m "id") l.

Definition is_prefix {A : Type} (p l : list A) : Prop :=
  exists rest, l = (p ++ rest)%list.

(** The score of a match is an integer between 0 and 100. *)
Definition score_in_range (m : dict) : Prop :=
  exists z, dict_get m "score" = PInt z /\ 0 <= z <= 100.

(** The match the first loop of [score_candidates] builds for a
    candidate: its id, a score in range, no [metadata] key, no reason
    yet. *)
Definition fresh_match (c : Candidate) (m : dict) : Prop :=
  dict_get m "id" = PStr (cand_id c)
  /\ score_in_range m
  /\ dict_has m "metadata" = false
  /\ dict_get m "metadata" = PNone
  /\ dict_get m "reasons" = PList [].

(** What the second loop of [score_candidates] does to a match [r]: [m]
    is [r] with one non-empty reason, the one of the batch when it has an
    entry for the id of [r], else the fallback sentence. *)
Definition reasoned (X : Externals) (user_text : string) (persona : Persona)
    (reasons_by_id : list (string * string)) (r m : dict) : Prop :=
  exists s,
    m = dict_set r "reasons" (PList [PStr s])
    /\ s <> ""
    /\ match assoc_get reasons_by_id (py_str X (dict_get r "id")) with
       | Some reason => s = reason
       | None =>
           exists meta,
             Reason.metadata_of r = Ok meta
             /\ Reason._fallback_reason_from_rules user_text persona meta
                = Ok s
       end.

(** *** Justifications *)

Definition nonspace (c : ascii) : Prop := Str.is_space c = false.

(** A word: not empty, no whitespace in it. *)
Definition word_chars (w : list ascii) : Prop :=
  w <> [] /\ Forall nonspace w.

Definition ends_nonspace (l : list ascii) : Prop :=
  exists l' c, l = (l' ++ [c])%list /\ nonspace c.

(** A well-formed reason: not empty, at most 30 words, terminal
    punctuation at its end. *)
Definition well_formed_reason (s : string) : Prop :=
  s <> ""
  /\ (List.length (Str.split s) <= 30)%nat
  /\ Str.ends_terminal s = true.

(** The characters of [" ".join(ws)]. *)
Fixpoint join_chars (ws : list (list ascii)) : list ascii :=
  match ws with
  | [] => []
  | [w] => w
  | w :: r => (w ++ " "%char :: join_chars r)%list
  end.

(** The value [generate_reasons_for_top_k] loads from a reply: the whole
    reply as JSON, else its bracketed part. *)
Definition reply_data (X : Externals) (raw : string) : option pyval :=
  match json_loads X raw with
  | Some data => Some data
  | None =>
      match Reason.search_array raw with
      | Some group => json_loads X group
      | None => None
      end
  end.

(** An entry of the mapping comes from an object of the reply that has an
    [id] and a string [reason]: the key is [str] of that id, the value
    the repaired reason. *)
Definition entry_of (X : Externals) (objs : list pyval) (kv : string * string)
  : Prop :=
  exists o r,
    In (PDict o) objs
    /\ dict_has o "id" = true
    /\ dict_get o "reason" = PStr r
    /\ fst kv = py_str X (dict_get o "id")
    /\ snd kv = Reason.repair_reason (Str.strip r)
    /\ well_formed_reason (snd kv).

End Spec.

(** The first brace-balanced object of a text, said without a loop: a
    position is escaped when an odd run of backslashes precedes it, a
    quote that is not escaped delimits a string literal, a position is
    inside a literal when an odd number of delimiters lies at or before
    it, the depth at a position counts the braces outside literals up to
    it, and the object ends at the first position outside a literal where
    the depth is back to zero.  Positions count from the first opening
    brace of the text. *)
Module Balanced.

Fixpoint leading_backslashes (l : list ascii) : nat :=
  match l with
  | c :: r =>
      if (c =? Str.backslash)%char then S (leading_backslashes r) else O
  | [] => O
  end.

(** The length of the run of backslashes at the end of [p]. *)
Definition trailing_backslashes (p : list ascii) : nat :=
  leading_backslashes (rev p).

(** The character that follows [p] is escaped. *)
Definition escaped_after (p : list ascii) : bool :=
  Nat.odd (trailing_backslashes p).

(** Position [i] holds a quote that opens or closes a literal. *)
Definition is_delimiter (t : list ascii) (i : nat) : bool :=
  match nth_error t i with
  | Some c => (c =? Str.dq)%char && negb (escaped_after (firstn i t))
  | None => false
  end.

(** The number of delimiters at the positions below [n]. *)
Definition delimiters_upto (t : list ascii) (n : nat) : nat :=
  List.length (filter (is_delimiter t) (seq 0 n)).

(** Position [i] is inside a literal; the opening quote counts as inside,
    the closing quote as outside. *)
Definition in_literal (t : list ascii) (i : nat) : bool :=
  Nat.odd (delimiters_upto t (S i)).

(** What position [i] adds to the depth. *)
Definition brace_value (t : list ascii) (i : nat) : Z :=
  if in_literal t i then 0
  else match nth_error t i with
       | Some c =>
           if (c =? Str.lbrace)%char then 1
           else if (c =? Str.rbrace)%char then -1
           else 0
       | None => 0
       end.

(** The depth after the positions below [n]. *)
Definition depth_upto (t : list ascii) (n : nat) : Z :=
  fold_right Z.add 0 (map (brace_value t) (seq 0 n)).

Definition closes_at (t : list ascii) (i : nat) : bool :=
  negb (in_literal t i) && (depth_upto t (S i) =? 0).

Definition first_balanced (t : list ascii) : option (list ascii) :=
  match find (closes_at t) (seq 0 (List.length t)) with
  | Some i => Some (firstn (S i) t)
  | None => None
  end.

(** The position of the first opening brace. *)
Definition first_brace (l : list ascii) : option nat :=
  find (fun i => match nth_error l i with
                 | Some c => (c =? Str.lbrace)%char
                 | None => false
                 end) (seq 0 (List.length l)).

Definition balanced_object (s : string) : option string :=
  match first_brace (Str.chars s) with
  | Some start =>
      option_map Str.of_chars (first_balanced (skipn start (Str.chars s)))
  | None => None
  end.

End Balanced.

(** Views of [parse_user_needs]: the reply it ends up working on, the JSON
    text it takes from that reply, and the value it loads from it. *)
Module Flow.
Import Parser.




End Flow.

(** Inputs of the examples. *)
Module Examples.

Definition family_city_text : string :=
  "I need a small family car for daily city commuting, budget around 5 lakhs".

Definition general_driver : Persona :=
  {| label := "General Driver";
     primary_needs := [];
     secondary_needs := [];
     constraints := [] |}.

Definition family_driver : Persona :=
  {| label := "Family Driver";
     primary_needs := ["space"; "safety"];
     secondary_needs := [];
     constraints := ["seats >= 4"] |}.

(** An intent with two usages that both map to the body type [suv]. *)
Definition outdoor_family_intent : dict :=
  [("usage", PList [PStr "family"; PStr "offroad"])].

Definition suv_metadata : dict := [("body_type", PStr "suv")].

Definition car (id : string) (score : Q) (meta : dict) : Candidate :=
  {| cand_id := id; cand_score := score; cand_metadata := meta |}.

Definition two_cars : list Candidate :=
  [ car "a" (1 # 2) suv_metadata; car "b" (9 # 10) [] ].

(** The matches [score_candidates] builds for [two_cars], before any
    reason is attached. *)
Definition two_matches : list dict :=
  match Matcher.build_matches (externals silent) [] two_cars with
  | Ok ms => ms
  | Raise _ => []
  end.


(** [[{"id": "zzz", "reason": "Nice car"}]]: a justification for an id
    that no candidate has. *)
Definition stray_reasons_reply : string :=
  "[{" ++ q ++ "id" ++ q ++ ": " ++ q ++ "zzz" ++ q ++ ", "
       ++ q ++ "reason" ++ q ++ ": " ++ q ++ "Nice car" ++ q ++ "}]".

End Examples.

(* ------------------------------------------------------------------ *)
(** ** Inputs of the walkthrough *)

Module WalkthroughInputs.
Import Examples.

Definition nl : string := String (ascii_of_nat 10) "".

(** A reply with prose, a fenced block and a trailing comma in the
    object. *)
Definition fenced_reply : string :=
  "Here you go:" ++ nl ++ "```json" ++ nl
  ++ "{" ++ q ++ "family_size" ++ q ++ ": 4, "
  ++ q ++ "usage" ++ q ++ ": [" ++ q ++ "City" ++ q ++ "],}" ++ nl ++ "```".

(** [{"usage": null, "budget_band": "low"}] *)
Definition null_usage_reply : string :=
  "{" ++ q ++ "usage" ++ q ++ ": null, "
  ++ q ++ "budget_band" ++ q ++ ": " ++ q ++ "low" ++ q ++ "}".

(** A text whose first brace opens an object with a closing brace, an
    escaped quote and an opening brace inside a key. *)
Definition tricky_text : string :=
  "x {" ++ q ++ "a}\" ++ q ++ "{" ++ q ++ ": {}} y}".

(** Two candidates of equal similarity before a better one. *)
Definition tied_cars : list Candidate :=
  [ car "first" (1 # 2) []; car "second" (1 # 2) []; car "best" (9 # 10) [] ].

Definition electric_car : Candidate :=
  car "ev" (4 # 10)
    [("price_band", PStr "low"); ("year", PFloat 2023);
     ("fuel", PStr "Electric"); ("raw_name", PStr "Tata Tiago EV")].

End WalkthroughInputs.

(* ================================================================== *)
(** * persona_agent.py *)

Module PersonaAgent.

(** [_bool_from_pref] *)
Definition _bool_from_pref (preferences : pyval) (key : string)
  : result bool :=
  items <- py_iter preferences ;;
  Ok (existsb (fun p => Str.contains (Str.lower key) p) (lower_strs items)).

(** [family_size + 1] *)
Definition py_add_one (v : pyval) : result pyval :=
  match v with
  | PInt z => Ok (PInt (z + 1))
  | PBool b => Ok (PInt ((if b then 1 else 0) + 1))
  | PFloat q => Ok (PFloat (q + 1))
  | _ => Raise TypeError
  end.

(** [family_size >= 3] *)
Definition py_ge_3 (v : pyval) : result bool :=
  match v with
  | PInt z => Ok (3 <=? z)
  | PBool b => Ok false
  | PFloat q => Ok (Qle_bool 3 q)
  | _ => Raise TypeError
  end.

(** The local [dedup]: the first occurrence of each element, in order. *)
Fixpoint dedup_from (seen : list string) (xs : list string) : list string :=
  match xs with
  | [] => []
  | x :: r =>
      if Str.mem x seen then dedup_from seen r
      else x :: dedup_from (x :: seen) r
  end.

Definition dedup (xs : list string) : list string := dedup_from [] xs.

(** The cascade that picks the label. *)
Definition label_of (primary_needs secondary_needs usage_lower : list string)
    (budget_band : pyval) : string :=
  if Str.mem "ruggedness" primary_needs then "Outdoor / Adventure Driver"
  else if Str.mem "space" primary_needs && Str.mem "safety" primary_needs
  then "Family Driver"
  else if match budget_band with
          | PStr b => String.eqb b "low"
          | _ => false
          end
  then "Budget Conscious Driver"
  else if Str.mem "electric_or_hybrid" secondary_needs
  then "Eco / EV Enthusiast"
  else if Str.mem "performance" primary_needs
  then "Performance Oriented Driver"
  else if Str.mem "comfort" primary_needs && Str.mem "city" usage_lower
  then "Comfort Commuter"
  else "General Driver".

(** [build_persona].  The f-strings of the constraints go through [str];
    the tests on [preferences] are evaluated in the order of the code,
    [or] skipping its second operand. *)
Definition build_persona (X : Externals) (parsed : dict) : result Persona :=
  let family_size := dict_get parsed "family_size" in
  let budget_band := dict_get parsed "budget_band" in
  let usage := py_or (dict_get parsed "usage") (PList []) in
  let preferences := py_or (dict_get parsed "preferences") (PList []) in
  let body_pref :=
    py_or (dict_get parsed "body_type_preference") (PList []) in
  usage_items <- py_iter usage ;;
  let usage_lower := lower_strs usage_items in
  prefs_items <- py_iter preferences ;;
  let prefs_lower := lower_strs prefs_items in
  seats <-
    (if is_none family_size then Ok []
     else n <- py_add_one family_size ;;
          Ok [("seats >= " ++ py_str X n)%string]) ;;
  let constraints :=
    (seats
     ++ (if truthy budget_band
         then [("budget_band == '" ++ py_str X budget_band ++ "'")%string]
         else [])
     ++ (if truthy body_pref
         then [("body_type in " ++ py_str X body_pref)%string] else []))%list
  in
  family <-
    (if Str.mem "family" usage_lower then Ok true
     else if truthy family_size then py_ge_3 family_size
     else Ok false) ;;
  safety <- _bool_from_pref preferences "safety" ;;
  fuel <- _bool_from_pref preferences "fuel" ;;
  performance <- _bool_from_pref preferences "performance" ;;
  power <-
    (if performance then Ok true else _bool_from_pref preferences "power") ;;
  comfort <- _bool_from_pref preferences "comfort" ;;
  let primary_needs :=
    ((if Str.mem "offroad" usage_lower
      then ["ruggedness"; "ground_clearance"] else [])
     ++ (if Str.mem "city" usage_lower
         then ["easy_to_park"; "fuel_economy"] else [])
     ++ (if Str.mem "highway" usage_lower
         then ["stability"; "comfort"] else [])
     ++ (if family then ["space"; "safety"] else [])
     ++ (if safety then ["safety"] else [])
     ++ (if fuel then ["fuel_economy"] else [])
     ++ (if power then ["performance"] else [])
     ++ (if comfort then ["comfort"] else []))%list in
  luxury <- _bool_from_pref preferences "luxury" ;;
  premium <-
    (if luxury then Ok true else _bool_from_pref preferences "premium") ;;
  let secondary_needs :=
    ((if premium then ["premium_features"] else [])
     ++ (if Str.mem "ev" prefs_lower || Str.mem "electric" prefs_lower
         then ["electric_or_hybrid"] else []))%list in
  let primary_needs := dedup primary_needs in
  let secondary_needs := dedup secondary_needs in
  let constraints := dedup constraints in
  Ok {| label := label_of primary_needs secondary_needs usage_lower
                   budget_band;
        primary_needs := primary_needs;
        secondary_needs := secondary_needs;
        constraints := constraints |}.

End PersonaAgent.

(* ================================================================== *)
(** * main.py *)

Module Main.
Import Parser Matcher PersonaAgent.

(** The retrieval collaborators: [llm_client.get_embedding] and
    [pinecone_client.query_similar]; [None] stands for an exception. *)
Record Retrieval : Type := {
  get_embedding : string -> option (list Q);
  query_similar : list Q -> Z -> option dict -> option (list Candidate)
}.

(** The [try] block an [HTTPException] comes from. *)
Inductive stage : Type :=
| ParsingError
| PersonaError
| EmbeddingError
| RetrieverError
| MatcherError.

Inductive response : Type :=
| HTTPException (status_code : Z) (detail : stage)
| Recommendation (persona : Persona) (matches : list dict).

(** The metadata filter handed to the retriever. *)
Definition filter_obj_of (parsed : dict) : option dict :=
  if truthy (dict_get parsed "budget_band")
  then Some [("price_band",
              PDict [("$in", PList [dict_get parsed "budget_band"])])]
  else None.

(** [recommend].  The call of [save_recommendation] has all its
    exceptions swallowed and does not touch what is returned. *)
Definition recommend (X : Externals) (R : Retrieval)
    (user_description : string) : response :=
  match parse_user_needs X user_description with
  | Raise _ => HTTPException 500 ParsingError
  | Ok parsed =>
      match build_persona X parsed with
      | Raise _ => HTTPException 500 PersonaError
      | Ok persona =>
          match get_embedding R user_description with
          | None | Some [] => HTTPException 500 EmbeddingError
          | Some emb =>
              match query_similar R emb 20 (filter_obj_of parsed) with
              | None => HTTPException 500 RetrieverError
              | Some candidates =>
                  match score_candidates X parsed persona candidates
                          user_description 3 with
                  | Raise _ => HTTPException 500 MatcherError
                  | Ok top3_matches => Recommendation persona top3_matches
                  end
              end
          end
      end
  end.

End Main.

(* ================================================================== *)
(** * Further predicates *)

(** ** ASCII text *)

Definition is_ascii (c : ascii) : Prop := (nat_of_ascii c < 128)%nat.

(** A string of ASCII characters only: its bytes are its characters. *)
Definition ascii_text (s : string) : Prop := Forall is_ascii (Str.chars s).

(** ** The tag sets of an intent *)

Definition str_lt (a b : string) : Prop := Str.ltb a b = true.

(** What [sorted(set)] returns: strictly increasing, so without
    duplicates. *)
Definition is_string_set (l : list string) : Prop := StronglySorted str_lt l.

Definition is_lower (s : string) : Prop := Str.lower s = s.

(** What [append_sedan] and [append_suv] do to [parsed]: nothing, or one
    tag more at the end of the list under [body_type_preference]. *)
Definition appended (tag : string) (d d1 : dict) : Prop :=
  d1 = d
  \/ exists l, dict_get d "body_type_preference" = PList l
               /\ d1 = dict_set d "body_type_preference" (PList (l ++ [PStr tag])).

(** The keys [_enrich_from_text] never writes. *)
Definition untouched_key (k : string) : Prop :=
  ~ In k ["family_size"; "budget_band"; "usage"; "preferences";
          "body_type_preference"].

(** The [required] dict of [_normalize_shape]. *)
Definition required : dict :=
  [ ("family_size", PNone);
    ("budget_band", PNone);
    ("usage", PList []);
    ("preferences", PList []);
    ("body_type_preference", PList []);
    ("other", PDict []) ].

(** The dict [_simple_heuristic_parse] starts from. *)
Definition heuristic_seed : dict :=
  [ ("family_size", PNone);
    ("budget_band", PNone);
    ("usage", PList []);
    ("preferences", PList []);
    ("body_type_preference", PList []);
    ("other", PDict [("heuristic", PBool true)]) ].


(** ** The types the scoring relies on *)

(** [(x or "").lower()] goes through: [x] is a [str] or falsy. *)
Definition str_or_falsy (v : pyval) : bool :=
  match v with
  | PStr _ => true
  | _ => negb (truthy v)
  end.

(** [for u in (x or [])] goes through. *)
Definition iterable_or_falsy (v : pyval) : bool :=
  Spec.iterable v || negb (truthy v).

(** [x + 1] and [x >= 3] go through where [x] is not [None]. *)
Definition numeric_or_none (v : pyval) : bool :=
  match v with
  | PNone | PInt _ | PBool _ | PFloat _ => true
  | _ => false
  end.

Definition scorable_intent (parsed : dict) : bool :=
  iterable_or_falsy (dict_get parsed "usage")
  && str_or_falsy (dict_get parsed "budget_band").

Definition scorable_metadata (meta : dict) : bool :=
  str_or_falsy (dict_get meta "body_type")
  && str_or_falsy (dict_get meta "fuel")
  && str_or_falsy (dict_get meta "price_band").

(** ** The fallback sentence *)

(** The end of [_fallback_reason_from_rules]: the sentence made of the
    clauses. *)
Definition sentence_of_bits (bits : list string) : string :=
  match bits with
  | [] => Reason.generic_sentence
  | _ =>
      let sentence := Str.join ", " (firstn 3 bits) in
      let sentence :=
        if Str.ends_terminal sentence then sentence else sentence ++ "." in
      Str.capitalize_first sentence
  end.

(** [fallback_bits] looks at its arguments through ten tests; an input
    for each outcome of the tests. *)
Definition probe_persona (comfort economy family safety park : bool)
  : Persona :=
  {| label := "";
     primary_needs :=
       ((if comfort then ["comfort"] else [])
        ++ (if economy then ["fuel_economy"] else [])
        ++ (if family then ["space"] else [])
        ++ (if safety then ["safety"] else [])
        ++ (if park then ["easy_to_park"] else []))%list;
     secondary_needs := [];
     constraints := [] |}.

Definition probe_body (suv sedan : bool) : string :=
  if suv then "suv" else if sedan then "sedan" else "".

Definition probe_fuel (hybrid : bool) : string :=
  if hybrid then "hybrid" else "".

Definition probe_seats (seats : bool) : pyval :=
  if seats then PInt 5 else PNone.

(** [Spec.well_formed_reason] as a test *)
Definition well_formed_reasonb (s : string) : bool :=
  negb (String.eqb s "")
  && (List.length (Str.split s) <=? 30)%nat
  && Str.ends_terminal s.

Definition for_both (f : bool -> bool) : bool := f true && f false.

(** ** The persona *)

(** [usage_lower] of [build_persona]: the strings of the [usage] field,
    in lower case. *)
Definition usage_lower_of (parsed : dict) : list string :=
  match py_iter (py_or (dict_get parsed "usage") (PList [])) with
  | Ok items => lower_strs items
  | Raise _ => []
  end.

(** [family_size and family_size >= 3] holds. *)
Definition big_family (parsed : dict) : bool :=
  truthy (dict_get parsed "family_size")
  && match PersonaAgent.py_ge_3 (dict_get parsed "family_size") with
     | Ok b => b
     | Raise _ => false
     end.

(** What [_bool_from_pref] finds in the items of [preferences]. *)
Definition pref_flag (items : list pyval) (key : string) : bool :=
  existsb (fun p => Str.contains (Str.lower key) p) (lower_strs items).

Definition persona_labels : list string :=
  ["General Driver"; "Outdoor / Adventure Driver"; "Family Driver";
   "Budget Conscious Driver"; "Eco / EV Enthusiast";
   "Performance Oriented Driver"; "Comfort Commuter"].

Definition primary_vocabulary : list string :=
  ["ruggedness"; "ground_clearance"; "easy_to_park"; "fuel_economy";
   "stability"; "comfort"; "space"; "safety"; "performance"].

Definition secondary_vocabulary : list string :=
  ["premium_features"; "electric_or_hybrid"].

(** ** Further inputs *)

(** The string of the given bytes. *)
Definition of_bytes (l : list nat) : string :=
  Str.of_chars (map ascii_of_nat l).

Module Inputs.
Import Examples WalkthroughInputs.

Definition camping_text : string := "safe car for camping with kids".

(** An intent with a key of its own, one usage and a budget. *)
Definition sparse_intent : dict :=
  [ ("usage", PList [PStr "Highway"]);
    ("budget_band", PStr "mid");
    ("seller", PStr "dealer") ].

(** [{"usage": null}] as loaded. *)
Definition null_usage_intent : dict := [("usage", PNone)].

(** Every usage mapping of [_persona_match_score] fires on this pair. *)
Definition all_round_intent : dict :=
  [("usage", PList [PStr "city"; PStr "family"; PStr "offroad"])].

Definition compact_suv : dict := [("body_type", PStr "Compact SUV")].

(** A candidate without metadata, of similarity [s]. *)
Definition near (s : Q) : Candidate :=
  {| cand_id := "a"; cand_score := s; cand_metadata := [] |}.

Definition commuter_intent : dict :=
  [ ("family_size", PInt 4);
    ("usage", PList [PStr "City"; PStr "family"]);
    ("preferences", PList [PStr "Safety first"; PStr "comfort"]) ].

(** A retrieval that finds [two_cars] for every query. *)
Definition shelf : Main.Retrieval :=
  {| Main.get_embedding := fun _ => Some [1%Q];
     Main.query_similar := fun _ _ _ => Some two_cars |}.

(** A retrieval that honours its filter: under a filter it finds the one
    car of the low price band only. *)
Definition filtering_shelf : Main.Retrieval :=
  {| Main.get_embedding := fun _ => Some [1%Q];
     Main.query_similar :=
       fun _ _ filter_obj =>
         match filter_obj with
         | Some _ => Some [electric_car]
         | None => Some two_cars
         end |}.

Definition cheap_camping_text : string := "cheap car for camping with kids".

(** Four Cyrillic letters: eight bytes, four characters. *)
Definition short_cyrillic_reply : string := "нету".

(** [MAX_TOKENS] written with the Kelvin sign for its [K]. *)
Definition kelvin_marker_reply : string :=
  "finish reason: MAX_TO" ++ of_bytes [226%nat; 132%nat; 170%nat] ++ "ENS, sorry".

End Inputs.

(* ================================================================== *)
(** * Properties *)

Lemma Qltb_true (a b : Q) : Qltb a b = true <-> (a < b)%Q.
Proof.
  unfold Qltb. rewrite negb_true_iff.
  split; intro H.
  - apply Qnot_le_lt. intro Hle. apply Qle_bool_iff in Hle. congruence.
  - destruct (Qle_bool b a) eqn:E; [|reflexivity].
    apply Qle_bool_iff in E. exfalso. apply (Qlt_not_le _ _ H E).
Qed.

Lemma Qltb_false (a b : Q) : Qltb a b = false <-> (b <= a)%Q.
Proof.
  unfold Qltb. rewrite negb_false_iff. apply Qle_bool_iff.
Qed.

Ltac qcases :=
  repeat match goal with
  | |- context [Qltb ?a ?b] =>
      let E := fresh "E" in
      destruct (Qltb a b) eqn:E;
      [apply Qltb_true in E | apply Qltb_false in E]
  end.

Lemma py_min_spec (a b : Q) : (py_min a b == Qmin a b)%Q.
Proof.
  unfold py_min. qcases.
  - rewrite Q.min_r; [reflexivity | apply Qlt_le_weak; assumption].
  - rewrite Q.min_l; [reflexivity | assumption].
Qed.

Lemma py_max_spec (a b : Q) : (py_max a b == Qmax a b)%Q.
Proof.
  unfold py_max. qcases.
  - rewrite Q.max_r; [reflexivity | apply Qlt_le_weak; assumption].
  - rewrite Q.max_l; [reflexivity | assumption].
Qed.

(** [max(lo, min(hi, x))] lies between [lo] and [hi]. *)
Lemma clamp_bounds (lo hi x : Q) :
  (lo <= hi)%Q -> (lo <= py_max lo (py_min hi x) <= hi)%Q.
Proof.
  intro H. unfold py_max, py_min. qcases; split; lra.
Qed.

Lemma inv_one_plus_bounds (s : Q) :
  (2 < s)%Q -> (0 < 1 / (1 + s) /\ 1 / (1 + s) < 1)%Q.
Proof.
  intro H.
  assert (Hp : (0 < 1 + s)%Q) by lra.
  split.
  - apply Qlt_shift_div_l; lra.
  - apply Qlt_shift_div_r; lra.
Qed.

Module MatcherFacts.
Import Matcher.

(** C4.  For every raw similarity [s], [_normalize_similarity] returns 0
    when [s] is negative, [100 * (1 / (1 + s))] when [s] exceeds 2 and
    [100 * min(s, 1)] otherwise, and the result lies in [0, 100]. *)
Theorem normalize_similarity_spec (s : Q) :
  (_normalize_similarity s == Spec.semantic_score s)%Q
  /\ (0 <= _normalize_similarity s <= 100)%Q.
Proof.
  unfold _normalize_similarity, Spec.semantic_score.
  destruct (Qltb s 0) eqn:Eneg.
  - apply Qltb_true in Eneg.
    replace (Qltb 2 0) with false by reflexivity.
    unfold py_max, py_min. simpl. split; [reflexivity | split; discriminate].
  - apply Qltb_false in Eneg.
    destruct (Qltb 2 s) eqn:Ebig.
    + apply Qltb_true in Ebig.
      destruct (inv_one_plus_bounds s Ebig) as [Hlo Hhi].
      unfold py_min.
      destruct (Qltb (1 / (1 + s)) 1) eqn:E1;
        [clear E1 | apply Qltb_false in E1; lra].
      unfold py_max.
      destruct (Qltb 0 (1 / (1 + s))) eqn:E0;
        [clear E0 | apply Qltb_false in E0; lra].
      split; [apply Qmult_comm | split; lra].
    + apply Qltb_false in Ebig.
      unfold py_min.
      destruct (Q.min_spec s 1) as [[Hlt Hm] | [Hle Hm]]; rewrite Hm;
        destruct (Qltb s 1) eqn:E1;
        [apply Qltb_true in E1 | apply Qltb_false in E1
        | apply Qltb_true in E1 | apply Qltb_false in E1];
        unfold py_max; qcases; split; try split; lra.
Qed.

(** C3.  The persona-match score is documented to lie in [0, 100], with
    the usage-to-body-type alignment counted once.  For an intent with the
    usages [family] and [offroad] and a candidate of body type [suv], both
    mappings fire, each adds one to the score, the check is counted once
    in the total, and the function returns 200. *)
Theorem persona_match_score_exceeds_100 (X : Externals) :
  exists s,
    _persona_match_score X Examples.outdoor_family_intent
      Examples.suv_metadata = Ok s
    /\ (s == 200)%Q /\ ~ (s <= 100)%Q.
Proof.
  eexists. split; [vm_compute; reflexivity|].
  split; [reflexivity | intro H; vm_compute in H; apply H; reflexivity].
Qed.

End MatcherFacts.

(* ------------------------------------------------------------------ *)
(** ** Dictionaries *)

Lemma assoc_get_set {V : Type} (d : list (string * V)) k v k' :
  assoc_get (assoc_set d k v) k' =
  if String.eqb k' k then Some v else assoc_get d k'.
Proof.
  induction d as [|[a b] d IH]; simpl.
  - reflexivity.
  - destruct (String.eqb k a) eqn:Eka; simpl.
    + apply String.eqb_eq in Eka. subst a.
      destruct (String.eqb k' k); reflexivity.
    + destruct (String.eqb k' a) eqn:Ek'a.
      * apply String.eqb_eq in Ek'a. subst a.
        rewrite String.eqb_sym, Eka. reflexivity.
      * exact IH.
Qed.

Lemma dict_get_set d k v k' :
  dict_get (dict_set d k v) k' = if String.eqb k' k then v else dict_get d k'.
Proof.
  unfold dict_get, dict_set. rewrite assoc_get_set.
  destruct (String.eqb k' k); reflexivity.
Qed.

Lemma dict_has_set d k v k' :
  dict_has (dict_set d k v) k' = String.eqb k' k || dict_has d k'.
Proof.
  unfold dict_has, assoc_has, dict_set. rewrite assoc_get_set.
  destruct (String.eqb k' k); reflexivity.
Qed.

Lemma dict_has_setdefault d k v k' :
  dict_has (dict_setdefault d k v) k' = String.eqb k' k || dict_has d k'.
Proof.
  unfold dict_setdefault. destruct (dict_has d k) eqn:E.
  - destruct (String.eqb k' k) eqn:E'; [|reflexivity].
    apply String.eqb_eq in E'. subst. rewrite E. reflexivity.
  - apply dict_has_set.
Qed.

(* ------------------------------------------------------------------ *)
(** ** Words and sentences *)

Module StrFacts.
Import Str Spec.

Lemma chars_app a b : chars (a ++ b) = (chars a ++ chars b)%list.
Proof. induction a; simpl; [reflexivity | f_equal; assumption]. Qed.

Lemma chars_of_chars l : chars (of_chars l) = l.
Proof. apply list_ascii_of_string_of_list_ascii. Qed.

Lemma of_chars_chars s : of_chars (chars s) = s.
Proof. apply string_of_list_ascii_of_string. Qed.

Lemma ends_terminal_dot s : ends_terminal (s ++ ".") = true.
Proof.
  unfold ends_terminal, last_char. rewrite chars_app, rev_app_distr.
  reflexivity.
Qed.

Lemma ends_terminal_nonempty s : ends_terminal s = true -> s <> "".
Proof. intros H ->. discriminate. Qed.

(** Appending a non-space character to a text that ends in one does not
    change the number of words. *)
Lemma split_chars_snoc cur l c d :
  nonspace c -> nonspace d ->
  List.length (split_chars cur (l ++ [c] ++ [d])) =
  List.length (split_chars cur (l ++ [c])).
Proof.
  unfold nonspace. intros Hc Hd. revert cur.
  induction l as [|a l IH]; intro cur; cbn [app split_chars].
  - rewrite Hc, Hd. reflexivity.
  - destruct (is_space a).
    + destruct cur; cbn [List.length]; rewrite IH; reflexivity.
    + apply IH.
Qed.

Lemma split_chars_app_word cur w l :
  Forall nonspace w ->
  split_chars cur (w ++ l) = split_chars (rev w ++ cur) l.
Proof.
  intro H. revert cur.
  induction H as [|c w Hc _ IH]; intro cur; cbn [app split_chars rev].
  - reflexivity.
  - rewrite Hc, IH, <- app_assoc. reflexivity.
Qed.

Lemma split_chars_words cur l :
  Forall nonspace cur -> Forall word_chars (split_chars cur l).
Proof.
  revert cur. induction l as [|c l IH]; intros cur Hcur; cbn [split_chars].
  - destruct cur as [|a cur]; constructor; [|constructor].
    split.
    + intro E. apply (f_equal (@List.length _)) in E.
      rewrite length_rev in E. discriminate.
    + apply Forall_rev. exact Hcur.
  - destruct (is_space c) eqn:Ec.
    + destruct cur as [|a cur]; [apply IH; constructor|].
      constructor; [|apply IH; constructor].
      split.
      * intro E. apply (f_equal (@List.length _)) in E.
        rewrite length_rev in E. discriminate.
      * apply Forall_rev. exact Hcur.
    + apply IH. constructor; assumption.
Qed.

Lemma chars_join ws :
  chars (join " " (map of_chars ws)) = join_chars ws.
Proof.
  induction ws as [|w r IH]; [reflexivity|].
  destruct r as [|w' r].
  - simpl. apply chars_of_chars.
  - change (chars (of_chars w ++ " " ++ join " " (map of_chars (w' :: r)))
            = (w ++ " "%char :: join_chars (w' :: r))%list).
    rewrite chars_app, chars_of_chars. f_equal.
    rewrite chars_app. simpl. f_equal. exact IH.
Qed.

Lemma split_join_chars ws :
  Forall word_chars ws -> split_chars [] (join_chars ws) = ws.
Proof.
  induction 1 as [|w r [Hne Hw] Hr IH]; [reflexivity|].
  destruct r as [|w' r].
  - simpl. rewrite <- (app_nil_r w) at 1.
    rewrite split_chars_app_word by assumption. simpl.
    rewrite app_nil_r, rev_involutive.
    destruct (rev w) eqn:E; [|reflexivity].
    apply (f_equal (@rev _)) in E. rewrite rev_involutive in E. contradiction.
  - change (join_chars (w :: w' :: r))
      with (w ++ " "%char :: join_chars (w' :: r))%list.
    rewrite split_chars_app_word by assumption.
    rewrite app_nil_r. cbn [split_chars].
    replace (is_space " ") with true by reflexivity.
    rewrite IH, rev_involutive.
    destruct (rev w) eqn:E; [|reflexivity].
    apply (f_equal (@rev _)) in E. rewrite rev_involutive in E. contradiction.
Qed.

Lemma word_ends_nonspace w : word_chars w -> ends_nonspace w.
Proof.
  intros [Hne Hw].
  destruct (exists_last Hne) as (l' & c & ->).
  exists l', c. split; [reflexivity|].
  rewrite Forall_forall in Hw. apply Hw, in_or_app. right. left. reflexivity.
Qed.

Lemma join_ends_nonspace ws :
  ws <> [] -> Forall word_chars ws -> ends_nonspace (join_chars ws).
Proof.
  intros Hne H. induction H as [|w r Hw Hr IH]; [contradiction|].
  destruct r as [|w' r].
  - apply word_ends_nonspace, Hw.
  - destruct IH as (l' & c & E & Hc); [discriminate|].
    exists (w ++ " "%char :: l')%list, c. split; [|exact Hc].
    change (join_chars (w :: w' :: r))
      with (w ++ " "%char :: join_chars (w' :: r))%list.
    rewrite E, <- app_assoc. reflexivity.
Qed.

Lemma lstrip_head l :
  match lstrip_chars l with
  | [] => True
  | c :: _ => nonspace c
  end.
Proof.
  induction l as [|a l IH]; simpl; [exact I|].
  destruct (is_space a) eqn:E; [exact IH | exact E].
Qed.

Lemma strip_ends_nonspace s :
  strip s <> "" -> ends_nonspace (chars (strip s)).
Proof.
  unfold strip, rstrip_chars. rewrite chars_of_chars.
  set (y := rev (lstrip_chars (chars s))).
  pose proof (lstrip_head y) as H.
  destruct (lstrip_chars y) as [|c t]; [intro Hne; contradiction Hne; reflexivity|].
  intros _. exists (rev t), c. split; [reflexivity | exact H].
Qed.

Lemma split_snoc_dot l :
  ends_nonspace l ->
  List.length (split_chars [] (l ++ ["."%char])) = List.length (split_chars [] l).
Proof.
  intros (l' & c & -> & Hc). rewrite <- app_assoc.
  apply split_chars_snoc; [exact Hc | reflexivity].
Qed.

Lemma split_length s : List.length (split s) = List.length (split_chars [] (chars s)).
Proof. unfold split. apply length_map. Qed.

(** The repaired reason is well formed. *)
Lemma repair_reason_ok r :
  strip r <> "" -> well_formed_reason (Reason.repair_reason (strip r)).
Proof.
  intro Hne. set (s := strip r) in *.
  assert (Hterm : ends_terminal (Reason.repair_reason s) = true).
  { unfold Reason.repair_reason.
    set (r1 := if (30 <? _)%nat then _ else _).
    destruct (ends_terminal r1) eqn:E; [exact E | apply ends_terminal_dot]. }
  split; [apply ends_terminal_nonempty, Hterm|]. split; [|exact Hterm].
  clear Hterm. unfold Reason.repair_reason.
  set (ws := split_chars [] (chars s)).
  assert (Hws : Forall word_chars ws) by (apply split_chars_words; constructor).
  assert (Hsplit : split s = map of_chars ws) by reflexivity.
  destruct (30 <? List.length (split s))%nat eqn:Elen.
  - (* truncated to the first 30 words *)
    apply Nat.ltb_lt in Elen. rewrite Hsplit, length_map in Elen.
    rewrite Hsplit, firstn_map.
    set (ws30 := firstn 30 ws).
    assert (H30 : Forall word_chars ws30).
    { rewrite Forall_forall in Hws |- *. intros x Hx. apply Hws.
      rewrite <- (firstn_skipn 30 ws). apply in_or_app. left. exact Hx. }
    assert (Hlen : List.length ws30 = 30%nat).
    { unfold ws30. rewrite length_firstn. lia. }
    assert (Hjoin : split_chars [] (chars (join " " (map of_chars ws30))) = ws30).
    { rewrite chars_join. apply split_join_chars, H30. }
    destruct (ends_terminal (join " " (map of_chars ws30))).
    + rewrite split_length, Hjoin. lia.
    + rewrite split_length, chars_app. change (chars ".") with ["."%char].
      rewrite split_snoc_dot, Hjoin; [lia|].
      rewrite chars_join. apply join_ends_nonspace; [|exact H30].
      intro E. rewrite E in Hlen. discriminate.
  - apply Nat.ltb_ge in Elen.
    destruct (ends_terminal s); [exact Elen|].
    rewrite split_length, chars_app. change (chars ".") with ["."%char].
    rewrite split_snoc_dot; [rewrite <- split_length; exact Elen|].
    apply strip_ends_nonspace, Hne.
Qed.

End StrFacts.

(* ------------------------------------------------------------------ *)
(** ** The justification generator *)

Module ReasonFacts.
Import Str Reason Spec Examples StrFacts.

Lemma in_assoc_set {V} (d : list (string * V)) k v kv :
  In kv (assoc_set d k v) -> kv = (k, v) \/ In kv d.
Proof.
  induction d as [|[a b] d IH]; simpl.
  - intros [<-|[]]. left. reflexivity.
  - destruct (String.eqb k a); simpl.
    + intros [<-|H]; [left; reflexivity | right; right; exact H].
    + intros [<-|H]; [right; left; reflexivity|].
      destruct (IH H); [left | right; right]; assumption.
Qed.

Lemma add_reason_entries X objs acc obj :
  Forall (entry_of X objs) acc -> In obj objs ->
  Forall (entry_of X objs) (add_reason X acc obj).
Proof.
  intros Hacc Hin. unfold add_reason.
  destruct obj as [| | | | |l|o]; try exact Hacc.
  destruct (dict_has o "id") eqn:Hid; [|exact Hacc].
  destruct (dict_has o "reason"); [|exact Hacc]. cbn [andb].
  destruct (dict_get o "reason") as [| | | |r| |] eqn:Hr; try exact Hacc.
  destruct (String.eqb (strip r) "") eqn:Ee; [exact Hacc|]. cbn [negb].
  apply String.eqb_neq in Ee.
  rewrite Forall_forall in Hacc |- *. intros kv Hkv.
  apply in_assoc_set in Hkv. destruct Hkv as [->|Hkv]; [|auto].
  exists o, r. repeat split; try assumption; try reflexivity;
    apply (repair_reason_ok r Ee).
Qed.

Lemma fold_add_reason_entries X objs todo acc :
  Forall (entry_of X objs) acc -> incl todo objs ->
  Forall (entry_of X objs) (fold_left (add_reason X) todo acc).
Proof.
  revert acc. induction todo as [|obj todo IH]; intros acc Hacc Hincl; simpl.
  - exact Hacc.
  - apply IH.
    + apply add_reason_entries; [exact Hacc | apply Hincl; left; reflexivity].
    + intros x Hx. apply Hincl. right. exact Hx.
Qed.

Lemma reasons_of_data_entries X data :
  match data with
  | PList objs => Forall (entry_of X objs) (reasons_of_data X data)
  | _ => reasons_of_data X data = []
  end.
Proof.
  destruct data; try reflexivity.
  apply fold_add_reason_entries; [constructor | apply incl_refl].
Qed.

Lemma reasons_of_reply_cases X raw :
  reasons_of_reply X raw = [] \/
  exists text objs, raw = Some text /\ reply_data X text = Some (PList objs)
                    /\ reasons_of_reply X raw = reasons_of_data X (PList objs).
Proof.
  unfold reasons_of_reply, reply_data.
  destruct raw as [text|]; [|left; reflexivity].
  destruct (String.eqb text ""); [left; reflexivity|].
  destruct (json_loads X text) as [data|] eqn:E1.
  - destruct data; try (left; reflexivity). right.
    exists text, l. rewrite E1. repeat split.
  - destruct (search_array text) as [g|] eqn:Es; [|left; reflexivity].
    destruct (json_loads X g) as [data|] eqn:E2; [|left; reflexivity].
    destruct data; try (left; reflexivity). right.
    exists text, l. rewrite E1, Es, E2. repeat split.
Qed.

(** C7, amended.  Every entry of the mapping returned by
    [generate_reasons_for_top_k] comes from an object of the reply that
    has an [id] and a string [reason]: its key is [str] of that id,
    whether or not a given match has this id, and its value is a non-empty
    reason of at most 30 words that ends in [.], [!] or [?]. *)
Theorem generate_reasons_entries (X : Externals) (user_text : string)
    (persona : Persona) (top_matches : list dict)
    (reasons_by_id : list (string * string)) :
  generate_reasons_for_top_k X user_text persona top_matches = Ok reasons_by_id ->
  forall k v, In (k, v) reasons_by_id ->
    well_formed_reason v
    /\ exists cars raw objs,
         cars_for_prompt top_matches = Ok cars
         /\ chat_completion X (ReasonsRequest user_text persona cars) = Some raw
         /\ reply_data X raw = Some (PList objs)
         /\ entry_of X objs (k, v).
Proof.
  unfold generate_reasons_for_top_k.
  destruct (cars_for_prompt top_matches) as [cars|e]; [|discriminate].
  cbn [bind]. intros [= <-] k v Hin.
  destruct (reasons_of_reply_cases X
              (chat_completion X (ReasonsRequest user_text persona cars)))
    as [E | (raw & objs & Eraw & Edata & E)]; rewrite E in Hin.
  - destruct Hin.
  - pose proof (reasons_of_data_entries X (PList objs)) as H.
    cbn match in H. rewrite Forall_forall in H. specialize (H _ Hin).
    split.
    + destruct H as (o & r & _ & _ & _ & _ & _ & Hw). exact Hw.
    + exists cars, raw, objs. auto.
Qed.

(** C7 as the specification states it does not hold: an object of the
    reply whose id belongs to none of the given matches is not dropped;
    its reason is in the mapping, under that id. *)
Lemma stray_id_is_kept :
  exists m,
    generate_reasons_for_top_k (externals (always stray_reasons_reply))
      "any car" general_driver two_matches = Ok m
    /\ In ("zzz", "Nice car.") m
    /\ ~ (forall k v, In (k, v) m ->
          exists r, In r two_matches
                    /\ k = py_str (externals (always stray_reasons_reply))
                             (dict_get r "id")).
Proof.
  eexists. split; [vm_compute; reflexivity|].
  split; [left; reflexivity|].
  intro H. destruct (H "zzz" "Nice car." (or_introl eq_refl)) as (r & Hin & Hk).
  vm_compute in Hin.
  destruct Hin as [<-|[<-|[]]]; vm_compute in Hk; discriminate.
Qed.

Lemma generate_reasons_entries_witness :
  well_formed_reason "Nice car."
  /\ exists cars raw objs,
       cars_for_prompt two_matches = Ok cars
       /\ chat_completion (externals (always stray_reasons_reply))
            (ReasonsRequest "any car" general_driver cars) = Some raw
       /\ reply_data (externals (always stray_reasons_reply)) raw
          = Some (PList objs)
       /\ entry_of (externals (always stray_reasons_reply)) objs
            ("zzz", "Nice car.").
Proof.
  apply (generate_reasons_entries (externals (always stray_reasons_reply))
           "any car" general_driver two_matches [("zzz", "Nice car.")]);
    [vm_compute; reflexivity | left; reflexivity].
Defined.

End ReasonFacts.

(* ------------------------------------------------------------------ *)
(** ** The candidate scorer: ranking and reasons *)

Module RankingFacts.
Import Matcher Reason Spec Examples StrFacts ReasonFacts.

Lemma insert_desc_perm m l : Permutation (insert_desc m l) (m :: l).
Proof.
  induction l as [|h t IH]; simpl.
  - reflexivity.
  - destruct (match_score h <=? match_score m).
    + reflexivity.
    + rewrite IH. apply perm_swap.
Qed.

Lemma sort_desc_perm l : Permutation (sort_desc l) l.
Proof.
  induction l as [|h t IH]; simpl.
  - reflexivity.
  - rewrite insert_desc_perm. constructor. exact IH.
Qed.

Lemma insert_desc_sorted m l : descending l -> descending (insert_desc m l).
Proof.
  unfold descending. induction 1 as [|h t Ht IH Hh]; simpl.
  - repeat constructor.
  - destruct (match_score h <=? match_score m) eqn:E.
    + apply Z.leb_le in E. constructor.
      * constructor; assumption.
      * constructor; [exact E|].
        rewrite Forall_forall in Hh |- *. intros x Hx.
        specialize (Hh x Hx). lia.
    + apply Z.leb_gt in E. constructor; [exact IH|].
      rewrite Forall_forall in Hh |- *. intros x Hx.
      apply (Permutation_in _ (insert_desc_perm m t)) in Hx.
      destruct Hx as [<-|Hx]; [lia | auto].
Qed.

Lemma sort_desc_sorted l : descending (sort_desc l).
Proof.
  induction l; simpl; [constructor | apply insert_desc_sorted; assumption].
Qed.

Lemma insert_desc_with_score v m l :
  with_score v (insert_desc m l) = with_score v (m :: l).
Proof.
  unfold with_score. induction l as [|h t IH]; [reflexivity|].
  cbn [insert_desc].
  destruct (match_score h <=? match_score m) eqn:E; [reflexivity|].
  apply Z.leb_gt in E. cbn [filter] in *. rewrite IH.
  destruct (match_score h =? v) eqn:Eh, (match_score m =? v) eqn:Em;
    try reflexivity.
  apply Z.eqb_eq in Eh, Em. lia.
Qed.

Lemma sort_desc_stable v l : with_score v (sort_desc l) = with_score v l.
Proof.
  induction l as [|h t IH]; [reflexivity|].
  cbn [sort_desc fold_right]. fold (sort_desc t).
  rewrite insert_desc_with_score. unfold with_score in *. cbn [filter].
  rewrite IH. reflexivity.
Qed.

Lemma descending_firstn n l : descending l -> descending (firstn n l).
Proof.
  unfold descending. intro H. revert n.
  induction H as [|h t Ht IH Hh]; intro n; destruct n; simpl; try constructor.
  - apply IH.
  - rewrite Forall_forall in Hh |- *. intros x Hx. apply Hh.
    rewrite <- (firstn_skipn n t). apply in_or_app. left. exact Hx.
Qed.

Lemma filter_firstn_prefix {A} (f : A -> bool) n l :
  is_prefix (filter f (firstn n l)) (filter f l).
Proof.
  exists (filter f (skipn n l)).
  rewrite <- filter_app, firstn_skipn. reflexivity.
Qed.

Lemma slice_to_nonneg {A} (l : list A) k :
  0 <= k -> slice_to l k = firstn (Z.to_nat k) l.
Proof.
  intro H. unfold slice_to. apply Z.leb_le in H. rewrite H. reflexivity.
Qed.

Lemma slice_to_firstn {A} (l : list A) k : exists n, slice_to l k = firstn n l.
Proof. unfold slice_to. destruct (0 <=? k); eauto. Qed.

Lemma py_round_bounds x : (0 <= x <= 100)%Q -> 0 <= py_round x <= 100.
Proof.
  intros [Hlo Hhi].
  pose proof (Qfloor_le x) as Hfl.
  pose proof (Qlt_floor x) as Hfu.
  assert (H0 : 0 <= Qfloor x).
  { change 0 with (Qfloor 0%Q). apply Qfloor_resp_le. exact Hlo. }
  assert (H100 : Qfloor x <= 100).
  { change 100 with (Qfloor 100%Q). apply Qfloor_resp_le. exact Hhi. }
  unfold py_round.
  destruct (Qltb (x - inject_Z (Qfloor x)) (1 # 2)) eqn:E1; [lia|].
  apply Qltb_false in E1.
  assert (Hlt : Qfloor x < 100).
  { destruct (Z.eq_dec (Qfloor x) 100) as [E|E]; [|lia].
    rewrite E in E1. exfalso. unfold inject_Z in E1. lra. }
  destruct (Qltb (1 # 2) (x - inject_Z (Qfloor x))); [lia|].
  destruct (Z.even (Qfloor x)); lia.
Qed.

Lemma final_score_bounds a b c : (0 <= final_score a b c <= 100)%Q.
Proof. unfold final_score. apply clamp_bounds. discriminate. Qed.

Lemma build_match_fresh X parsed c m :
  build_match X parsed c = Ok m -> fresh_match c m.
Proof.
  unfold build_match.
  destruct (_persona_match_score X parsed (cand_metadata c)) as [p|]; [|discriminate].
  destruct (_heuristic_boost parsed (cand_metadata c)) as [h|]; [|discriminate].
  cbn [bind]. intros [= <-]. repeat split.
  eexists. split; [reflexivity|].
  apply py_round_bounds, final_score_bounds.
Qed.

Lemma build_matches_fresh X parsed candidates results :
  build_matches X parsed candidates = Ok results ->
  Forall2 fresh_match candidates results.
Proof.
  revert results. induction candidates as [|c cs IH]; intros results; simpl.
  - intros [= <-]. constructor.
  - destruct (build_match X parsed c) as [m|] eqn:Em; [|discriminate].
    destruct (build_matches X parsed cs) as [ms|]; [|discriminate].
    cbn [bind]. intros [= <-]. constructor; [|apply IH; reflexivity].
    eapply build_match_fresh, Em.
Qed.

Lemma join_nonempty sep b r : b <> "" -> Str.join sep (b :: r) <> "".
Proof.
  destruct b; [contradiction|]. intros _. destruct r; simpl; discriminate.
Qed.

Lemma sentence_nonempty x :
  x <> "" ->
  Str.capitalize_first (if Str.ends_terminal x then x else x ++ ".") <> "".
Proof.
  destruct x as [|c x]; [contradiction|]. intros _.
  destruct (Str.ends_terminal (String c x)); cbn; discriminate.
Qed.

Lemma fallback_bits_nonempty persona body fuel seats recent :
  Forall (fun b => b <> "") (fallback_bits persona body fuel seats recent).
Proof.
  unfold fallback_bits.
  repeat (apply Forall_app; split);
    repeat match goal with
    | |- Forall _ (if ?b then _ else _) => destruct b
    end;
    repeat constructor; discriminate.
Qed.

Lemma fallback_nonempty user_text persona meta s :
  _fallback_reason_from_rules user_text persona meta = Ok s -> s <> "".
Proof.
  unfold _fallback_reason_from_rules.
  destruct (or_empty_lower (dict_get meta "body_type")) as [body|]; [|discriminate].
  cbn [bind].
  destruct (or_empty_lower _) as [fuel|]; [|discriminate].
  cbn [bind].
  set (bits := fallback_bits _ _ _ _ _).
  pose proof (fallback_bits_nonempty persona body fuel (dict_get meta "seats")
     (if truthy (dict_get meta "year")
      then match py_int (dict_get meta "year") with
           | Ok y => 2022 <=? y
           | Raise _ => false
           end
      else false)) as Hb.
  fold bits in Hb.
  destruct bits as [|b bs];
    [intros [= <-]; unfold generic_sentence; discriminate|].
  inversion Hb as [|? ? Hne _]; subst.
  intros [= <-]. apply sentence_nonempty.
  exact (join_nonempty ", " b (firstn 2 bs) Hne).
Qed.

Lemma built_metadata_of m :
  dict_get m "metadata" = PNone -> metadata_of m = Ok [].
Proof. unfold metadata_of. intros ->. reflexivity. Qed.

Lemma assoc_get_in {V} (d : list (string * V)) k v :
  assoc_get d k = Some v -> In (k, v) d.
Proof.
  induction d as [|[a b] d IH]; simpl; [discriminate|].
  destruct (String.eqb k a) eqn:E.
  - apply String.eqb_eq in E. subst. intros [= ->]. left. reflexivity.
  - intro H. right. apply IH, H.
Qed.

Lemma set_reasons_reasoned X user_text persona rb r m :
  (forall k v, In (k, v) rb -> v <> "") ->
  set_reasons X user_text persona rb r = Ok m ->
  reasoned X user_text persona rb r m.
Proof.
  intros Hrb. unfold set_reasons, reasoned.
  destruct (assoc_get rb (py_str X (dict_get r "id"))) as [reason|] eqn:E.
  - intros [= <-]. exists reason. repeat split.
    apply (Hrb _ _ (assoc_get_in _ _ _ E)).
  - destruct (metadata_of r) as [meta|]; [|discriminate]. cbn [bind].
    destruct (_fallback_reason_from_rules user_text persona meta) as [s|] eqn:Ef;
      [|discriminate].
    cbn [bind]. intros [= <-]. exists s. repeat split.
    + eapply fallback_nonempty, Ef.
    + exists meta. auto.
Qed.

Lemma set_all_reasons_reasoned X user_text persona rb top ms :
  (forall k v, In (k, v) rb -> v <> "") ->
  set_all_reasons X user_text persona rb top = Ok ms ->
  Forall2 (reasoned X user_text persona rb) top ms.
Proof.
  intro Hrb. revert ms. induction top as [|r top IH]; intros ms; simpl.
  - intros [= <-]. constructor.
  - destruct (set_reasons X user_text persona rb r) as [m|] eqn:Em; [|discriminate].
    destruct (set_all_reasons X user_text persona rb top) as [ms'|]; [|discriminate].
    cbn [bind]. intros [= <-]. constructor; [|apply IH; reflexivity].
    apply set_reasons_reasoned; assumption.
Qed.

Lemma reasoned_score X ut p rb r m :
  reasoned X ut p rb r m -> match_score m = match_score r.
Proof.
  intros (s & -> & _). unfold match_score. rewrite dict_get_set. reflexivity.
Qed.

Lemma reasoned_get X ut p rb r m k :
  reasoned X ut p rb r m -> k <> "reasons" -> dict_get m k = dict_get r k.
Proof.
  intros (s & -> & _) Hk. rewrite dict_get_set.
  apply String.eqb_neq in Hk. rewrite Hk. reflexivity.
Qed.

Section Transfer.
Variables (X : Externals) (ut : string) (p : Persona).
Variable rb : list (string * string).

Lemma reasoned_descending top ms :
  Forall2 (reasoned X ut p rb) top ms -> descending top -> descending ms.
Proof.
  unfold descending. induction 1 as [|r m top ms Hrm Hrest IH]; intro Hs.
  - constructor.
  - inversion Hs as [|? ? Hs' Hall]; subst. constructor; [apply IH, Hs'|].
    rewrite (reasoned_score _ _ _ _ _ _ Hrm).
    clear - Hrest Hall. induction Hrest as [|r' m' top ms Hrm' _ IH'].
    + constructor.
    + inversion Hall; subst. constructor; [|apply IH'; assumption].
      rewrite (reasoned_score _ _ _ _ _ _ Hrm'). assumption.
Qed.

Lemma reasoned_with_score_ids v top ms :
  Forall2 (reasoned X ut p rb) top ms -> ids (with_score v ms) = ids (with_score v top).
Proof.
  induction 1 as [|r m top ms Hrm _ IH]; [reflexivity|].
  unfold with_score, ids in *. cbn [filter].
  rewrite (reasoned_score _ _ _ _ _ _ Hrm).
  destruct (match_score r =? v); cbn [map]; rewrite IH; [|reflexivity].
  f_equal. apply (reasoned_get _ _ _ _ _ _ _ Hrm). discriminate.
Qed.

Lemma reasoned_range top ms :
  Forall2 (reasoned X ut p rb) top ms -> Forall score_in_range top -> Forall score_in_range ms.
Proof.
  induction 1 as [|r m top ms Hrm _ IH]; intro H; [constructor|].
  inversion H as [|? ? (z & Hz & Hr) Hrest]; subst.
  constructor; [|apply IH, Hrest].
  exists z. split; [|exact Hr].
  rewrite (reasoned_get _ _ _ _ _ _ _ Hrm); [exact Hz | discriminate].
Qed.

End Transfer.

Lemma fresh_ids candidates results :
  Forall2 fresh_match candidates results ->
  ids results = map (fun c => PStr (cand_id c)) candidates.
Proof.
  induction 1 as [|c m cs ms (Hid & _) _ IH]; [reflexivity|].
  unfold ids in *. cbn [map]. rewrite Hid, IH. reflexivity.
Qed.

Lemma cars_for_prompt_built top :
  Forall (fun m => dict_get m "metadata" = PNone) top ->
  exists cars, cars_for_prompt top = Ok cars.
Proof.
  induction 1 as [|m top Hm _ [cars IH]]; simpl; [eauto|].
  unfold car_for_prompt. rewrite (built_metadata_of m Hm). cbn [bind].
  rewrite IH. cbn [bind]. eauto.
Qed.

Lemma generated_values_nonempty X ut p top rb :
  generate_reasons_for_top_k X ut p top = Ok rb ->
  forall k v, In (k, v) rb -> v <> "".
Proof.
  unfold generate_reasons_for_top_k.
  destruct (cars_for_prompt top) as [cars|]; [|discriminate].
  cbn [bind]. intros [= <-] k v Hin.
  destruct (reasons_of_reply_cases X
              (chat_completion X (ReasonsRequest ut p cars)))
    as [E | (raw & objs & _ & _ & E)]; rewrite E in Hin; [destruct Hin|].
  pose proof (reasons_of_data_entries X (PList objs)) as H.
  cbn match in H. rewrite Forall_forall in H.
  destruct (H _ Hin) as (o & r & _ & _ & _ & _ & _ & Hw & _). exact Hw.
Qed.

Lemma slice_sorted_in (results : list dict) k x :
  In x (slice_to (sort_desc results) k) -> In x results.
Proof.
  destruct (slice_to_firstn (sort_desc results) k) as [n ->]. intro H.
  apply (Permutation_in _ (sort_desc_perm results)).
  rewrite <- (firstn_skipn n (sort_desc results)). apply in_or_app. left. exact H.
Qed.

(** The three stages of a run of [score_candidates] that returns. *)
Lemma score_candidates_run X parsed persona candidates user_text top_k ms :
  score_candidates X parsed persona candidates user_text top_k = Ok ms ->
  exists results rb,
    build_matches X parsed candidates = Ok results
    /\ Forall2 fresh_match candidates results
    /\ generate_reasons_for_top_k X user_text persona
         (slice_to (sort_desc results) top_k) = Ok rb
    /\ Forall2 (reasoned X user_text persona rb)
         (slice_to (sort_desc results) top_k) ms.
Proof.
  unfold score_candidates.
  destruct (build_matches X parsed candidates) as [results|] eqn:Eb; [|discriminate].
  cbn [bind].
  destruct (generate_reasons_for_top_k _ _ _ _) as [rb|] eqn:Eg; [|discriminate].
  cbn [bind]. intro Hs.
  exists results, rb.
  split; [reflexivity|]. split; [exact (build_matches_fresh _ _ _ _ Eb)|].
  split; [exact Eg|].
  apply set_all_reasons_reasoned; [|exact Hs].
  eapply generated_values_nonempty, Eg.
Qed.

Lemma fresh_results_forall (P : dict -> Prop) candidates results :
  Forall2 fresh_match candidates results ->
  (forall c m, fresh_match c m -> P m) ->
  Forall P results.
Proof.
  induction 1; intro Hp; constructor; eauto.
Qed.

Lemma Forall2_length_eq {A B} (R : A -> B -> Prop) l l' :
  Forall2 R l l' -> List.length l = List.length l'.
Proof. induction 1; simpl; congruence. Qed.

Lemma Forall2_Forall_r {A B} (R : A -> B -> Prop) (P : A -> Prop)
    (Q : B -> Prop) l l' :
  Forall2 R l l' -> Forall P l ->
  (forall a b, P a -> R a b -> Q b) -> Forall Q l'.
Proof.
  intros H2 HP Himp. induction H2; [constructor|].
  inversion HP; subst. constructor; eauto.
Qed.

Lemma is_prefix_map {A B} (f : A -> B) p l :
  is_prefix p l -> is_prefix (map f p) (map f l).
Proof. intros [rest ->]. exists (map f rest). apply map_app. Qed.

(** C1, amended.  For every parsed intent, persona, candidate list and
    user text, and every [top_k] that is not negative, the list returned
    by [score_candidates] has at most [top_k] elements, every score in it
    is an integer between 0 and 100, the list is sorted by score, largest
    first, and matches of equal score come in the order of their
    candidates: for every score, the ids of the returned matches with
    that score are a prefix of the ids of the candidates with that score,
    in input order. *)
Theorem score_candidates_ranking (X : Externals) (parsed : dict)
    (persona : Persona) (candidates : list Candidate) (user_text : string)
    (top_k : Z) (ms : list dict) :
  0 <= top_k ->
  score_candidates X parsed persona candidates user_text top_k = Ok ms ->
  Z.of_nat (List.length ms) <= top_k
  /\ Forall score_in_range ms
  /\ descending ms
  /\ exists results,
       build_matches X parsed candidates = Ok results
       /\ ids results = map (fun c => PStr (cand_id c)) candidates
       /\ forall v, is_prefix (ids (with_score v ms))
                              (ids (with_score v results)).
Proof.
  intros Hk Hrun.
  destruct (score_candidates_run _ _ _ _ _ _ _ Hrun)
    as (results & rb & Hb & Hfresh & _ & Hms).
  rewrite (slice_to_nonneg _ _ Hk) in Hms.
  set (n := Z.to_nat top_k) in *.
  repeat split.
  - rewrite <- (Forall2_length_eq _ _ _ Hms), length_firstn. lia.
  - apply (reasoned_range _ _ _ _ _ _ Hms).
    assert (Hall : Forall score_in_range results).
    { apply (fresh_results_forall _ _ _ Hfresh). intros c m (_ & H & _). exact H. }
    rewrite Forall_forall in Hall |- *. intros x Hx. apply Hall.
    apply (Permutation_in _ (sort_desc_perm results)).
    rewrite <- (firstn_skipn n (sort_desc results)). apply in_or_app. left. exact Hx.
  - apply (reasoned_descending _ _ _ _ _ _ Hms), descending_firstn, sort_desc_sorted.
  - exists results. split; [exact Hb|]. split; [apply fresh_ids, Hfresh|].
    intro v. rewrite (reasoned_with_score_ids _ _ _ _ v _ _ Hms).
    rewrite <- (sort_desc_stable v results).
    apply is_prefix_map, filter_firstn_prefix.
Qed.

(** C1 as the specification states it does not hold for a negative
    [top_k]: [results[:-1]] drops the last match only, so two candidates
    and [top_k = -1] give one match, which is more than [top_k]. *)
Lemma negative_top_k_returns_more :
  exists ms,
    score_candidates (externals silent) [] general_driver two_cars
      "any car" (-1) = Ok ms
    /\ ~ (Z.of_nat (List.length ms) <= -1).
Proof.
  eexists. split; [vm_compute; reflexivity|]. simpl. lia.
Qed.

Lemma score_candidates_ranking_witness :
  exists ms,
    score_candidates (externals silent) [] general_driver two_cars
      "any car" 1 = Ok ms
    /\ Z.of_nat (List.length ms) <= 1
    /\ Forall score_in_range ms
    /\ descending ms.
Proof.
  eexists. split; [vm_compute; reflexivity|].
  match goal with
  | |- context [Z.of_nat (List.length ?l)] =>
      destruct (score_candidates_ranking (externals silent) [] general_driver
                  two_cars "any car" 1 l) as (H1 & H2 & H3 & _)
  end; [lia | vm_compute; reflexivity | auto].
Defined.

Lemma fallback_empty_total user_text persona :
  exists s, _fallback_reason_from_rules user_text persona [] = Ok s.
Proof.
  unfold _fallback_reason_from_rules. cbn.
  destruct (fallback_bits persona "" "" PNone false); eauto.
Qed.

Lemma set_all_reasons_total X user_text persona rb top :
  Forall (fun r => dict_get r "metadata" = PNone) top ->
  exists ms, set_all_reasons X user_text persona rb top = Ok ms.
Proof.
  induction 1 as [|r top Hr _ [ms IH]]; cbn [set_all_reasons]; [eauto|].
  unfold set_reasons.
  destruct (assoc_get rb (py_str X (dict_get r "id"))).
  - cbn [bind]. rewrite IH. cbn [bind]. eauto.
  - rewrite (built_metadata_of r Hr). cbn [bind].
    destruct (fallback_empty_total user_text persona) as [s ->].
    cbn [bind]. rewrite IH. cbn [bind]. eauto.
Qed.

Lemma top_without_metadata candidates results k :
  Forall2 fresh_match candidates results ->
  Forall (fun r => dict_get r "metadata" = PNone)
         (slice_to (sort_desc results) k).
Proof.
  intro Hfresh. rewrite Forall_forall. intros r Hr.
  apply slice_sorted_in in Hr.
  assert (Hall : Forall (fun r => dict_get r "metadata" = PNone) results).
  { apply (fresh_results_forall _ _ _ Hfresh). intros c m (_ & _ & _ & H & _). exact H. }
  rewrite Forall_forall in Hall. auto.
Qed.

(** Once the scoring loop has gone through, the rest of
    [score_candidates] cannot fail. *)
Lemma score_candidates_returns X parsed persona candidates user_text top_k results :
  build_matches X parsed candidates = Ok results ->
  exists ms, score_candidates X parsed persona candidates user_text top_k = Ok ms.
Proof.
  intro Hb. unfold score_candidates. rewrite Hb. cbn [bind].
  pose proof (top_without_metadata candidates results top_k
                (build_matches_fresh _ _ _ _ Hb)) as Htop.
  unfold generate_reasons_for_top_k.
  destruct (cars_for_prompt_built _ Htop) as [cars ->]. cbn [bind].
  apply set_all_reasons_total, Htop.
Qed.

(** C6.  Once the scoring loop of [score_candidates] has gone through,
    the function returns, and every returned match has a [reasons] list of
    exactly one sentence, which is not empty; when the justification batch
    has no entry for the id of a surviving match (in particular when it
    returns the empty mapping), the sentence is the one
    [_fallback_reason_from_rules] returns for the metadata the code reads
    from that match. *)
Theorem reasons_never_empty (X : Externals) (parsed : dict)
    (persona : Persona) (candidates : list Candidate) (user_text : string)
    (top_k : Z) (results : list dict) :
  build_matches X parsed candidates = Ok results ->
  exists rb ms,
    generate_reasons_for_top_k X user_text persona
      (slice_to (sort_desc results) top_k) = Ok rb
    /\ score_candidates X parsed persona candidates user_text top_k = Ok ms
    /\ Forall2
         (fun r m =>
            exists s,
              dict_get m "reasons" = PList [PStr s]
              /\ s <> ""
              /\ (assoc_get rb (py_str X (dict_get r "id")) = None ->
                  exists meta,
                    metadata_of r = Ok meta
                    /\ _fallback_reason_from_rules user_text persona meta
                       = Ok s))
         (slice_to (sort_desc results) top_k) ms.
Proof.
  intro Hb.
  destruct (score_candidates_returns X parsed persona candidates user_text
              top_k results Hb) as [ms Hrun].
  destruct (score_candidates_run _ _ _ _ _ _ _ Hrun)
    as (results' & rb & Hb' & _ & Hg & Hms).
  rewrite Hb in Hb'. injection Hb' as <-.
  exists rb, ms. split; [exact Hg|]. split; [exact Hrun|].
  revert Hms. apply Forall2_impl.
  intros r m (s & -> & Hne & Hs).
  exists s. split; [rewrite dict_get_set; reflexivity|]. split; [exact Hne|].
  intro Hnone. rewrite Hnone in Hs. exact Hs.
Qed.

Lemma reasons_never_empty_witness :
  exists results,
    build_matches (externals silent) [] two_cars = Ok results
    /\ exists rb ms,
         generate_reasons_for_top_k (externals silent) "any car"
           family_driver (slice_to (sort_desc results) 3) = Ok rb
         /\ score_candidates (externals silent) [] family_driver two_cars
              "any car" 3 = Ok ms
         /\ Forall2
              (fun r m =>
                 exists s,
                   dict_get m "reasons" = PList [PStr s]
                   /\ s <> ""
                   /\ (assoc_get rb (py_str (externals silent)
                                       (dict_get r "id")) = None ->
                       exists meta,
                         metadata_of r = Ok meta
                         /\ _fallback_reason_from_rules "any car"
                              family_driver meta = Ok s))
              (slice_to (sort_desc results) 3) ms.
Proof.
  eexists. split; [vm_compute; reflexivity|].
  apply (reasons_never_empty (externals silent) [] family_driver two_cars
           "any car" 3).
  vm_compute. reflexivity.
Defined.

(** C10.  No match that [score_candidates] returns has a [metadata]
    key, so [r.get("metadata") or {}] is the empty mapping, and every
    match whose reason comes from the fallback carries one and the same
    sentence: the one [_fallback_reason_from_rules] returns for the empty
    metadata mapping.  It depends on the user text and the persona only,
    not on the body type, year, fuel or seats of the candidate. *)
Theorem fallback_ignores_candidate_metadata (X : Externals) (parsed : dict)
    (persona : Persona) (candidates : list Candidate) (user_text : string)
    (top_k : Z) (ms : list dict) :
  score_candidates X parsed persona candidates user_text top_k = Ok ms ->
  exists sentence results rb,
    _fallback_reason_from_rules user_text persona [] = Ok sentence
    /\ build_matches X parsed candidates = Ok results
    /\ generate_reasons_for_top_k X user_text persona
         (slice_to (sort_desc results) top_k) = Ok rb
    /\ Forall
         (fun m =>
            dict_has m "metadata" = false
            /\ (assoc_get rb (py_str X (dict_get m "id")) = None ->
                dict_get m "reasons" = PList [PStr sentence]))
         ms.
Proof.
  intro Hrun.
  destruct (score_candidates_run _ _ _ _ _ _ _ Hrun)
    as (results & rb & Hb & Hfresh & Hg & Hms).
  destruct (fallback_empty_total user_text persona) as [sentence Hsent].
  exists sentence, results, rb. repeat split; try assumption.
  assert (Htop : Forall (fun r => dict_has r "metadata" = false
                                  /\ dict_get r "metadata" = PNone)
                   (slice_to (sort_desc results) top_k)).
  { rewrite Forall_forall. intros r Hr. apply slice_sorted_in in Hr.
    assert (Hall : Forall (fun r => dict_has r "metadata" = false
                                    /\ dict_get r "metadata" = PNone) results).
    { apply (fresh_results_forall _ _ _ Hfresh). intros c m (_ & _ & H1 & H2 & _). auto. }
    rewrite Forall_forall in Hall. auto. }
  refine (Forall2_Forall_r _ _ _ _ _ Hms Htop _).
  intros r m [Hhas Hget] (s & -> & Hne & Hs).
  split.
  - rewrite dict_has_set, Hhas. reflexivity.
  - rewrite !dict_get_set. cbn [String.eqb Ascii.eqb Bool.eqb].
    change (String.eqb "id" "reasons") with false.
    change (String.eqb "reasons" "reasons") with true. cbv iota.
    intro Hnone. rewrite Hnone in Hs.
    destruct Hs as (meta & Hmeta & Hf).
    rewrite (built_metadata_of r Hget) in Hmeta. injection Hmeta as <-.
    rewrite Hsent in Hf. injection Hf as <-. reflexivity.
Qed.


Lemma fallback_ignores_candidate_metadata_witness :
  exists ms,
    score_candidates (externals silent) [] family_driver two_cars
      "any car" 3 = Ok ms
    /\ exists sentence results rb,
         _fallback_reason_from_rules "any car" family_driver [] = Ok sentence
         /\ build_matches (externals silent) [] two_cars = Ok results
         /\ generate_reasons_for_top_k (externals silent) "any car"
              family_driver (slice_to (sort_desc results) 3) = Ok rb
         /\ Forall
              (fun m =>
                 dict_has m "metadata" = false
                 /\ (assoc_get rb (py_str (externals silent)
                                       (dict_get m "id")) = None ->
                     dict_get m "reasons" = PList [PStr sentence]))
              ms.
Proof.
  eexists. split; [vm_compute; reflexivity|].
  apply (fallback_ignores_candidate_metadata (externals silent) []
           family_driver two_cars "any car" 3).
  vm_compute. reflexivity.
Defined.

End RankingFacts.

(* ------------------------------------------------------------------ *)
(** ** The intent extractor *)

Module ParserFacts.
Import Parser Examples.

Lemma all_fields_set d k v :
  Spec.all_fields_present d = true ->
  Spec.all_fields_present (dict_set d k v) = true.
Proof.
  unfold Spec.all_fields_present. rewrite !forallb_forall.
  intros H x Hx. rewrite dict_has_set, (H x Hx). apply orb_true_r.
Qed.

Lemma with_defaults_fields d : Spec.all_fields_present (with_defaults d) = true.
Proof.
  unfold Spec.all_fields_present, Spec.intent_fields, with_defaults.
  cbn [forallb]. rewrite !dict_has_setdefault. cbn.
  rewrite ?orb_true_r. reflexivity.
Qed.

Lemma with_defaults_id d :
  Spec.all_fields_present d = true -> with_defaults d = d.
Proof.
  unfold Spec.all_fields_present, Spec.intent_fields. cbn [forallb].
  rewrite !andb_true_iff. intros (H1 & H2 & H3 & H4 & H5 & H6 & _).
  unfold with_defaults, dict_setdefault.
  rewrite H1, H2, H3, H4, H5, H6. reflexivity.
Qed.

Lemma lower_set_ok v :
  Spec.iterable v = true -> exists u, lower_set v = Ok u.
Proof.
  destruct v; simpl; try discriminate; intros _; unfold lower_set; simpl; eauto.
Qed.

Lemma shaped_set d k v :
  Spec.shaped d ->
  (k = "body_type_preference" -> Spec.is_list v = true) ->
  Spec.shaped (dict_set d k v).
Proof.
  intros [Hf Hl] Hk. split.
  - apply all_fields_set, Hf.
  - rewrite dict_get_set.
    destruct (String.eqb "body_type_preference" k) eqn:E; [|exact Hl].
    apply String.eqb_eq in E. auto.
Qed.

Lemma shaped_fill_family text d :
  Spec.shaped d -> Spec.shaped (fill_family_size text d).
Proof.
  intro H. unfold fill_family_size.
  destruct (_ && _); [apply shaped_set; [exact H | discriminate] | exact H].
Qed.

Lemma shaped_fill_budget text d :
  Spec.shaped d -> Spec.shaped (fill_budget_band text d).
Proof.
  intro H. unfold fill_budget_band.
  destruct (is_none _); [|exact H].
  destruct (budget_from_text text);
    [apply shaped_set; [exact H | discriminate] | exact H].
Qed.

Lemma append_sedan_ok text d :
  Spec.shaped d -> exists d', append_sedan text d = Ok d' /\ Spec.shaped d'.
Proof.
  intros H. unfold append_sedan.
  destruct (Str.any_in _ text); [|eauto].
  destruct H as [Hf Hl].
  destruct (dict_get d "body_type_preference") eqn:E; try discriminate.
  simpl. destruct (existsb _ l).
  - exists d. split; [reflexivity|]. split; [exact Hf | rewrite E; reflexivity].
  - eexists. split; [reflexivity|].
    apply shaped_set; [split; [exact Hf | rewrite E; reflexivity] | reflexivity].
Qed.

Lemma append_suv_ok usage d :
  Spec.shaped d -> exists d', append_suv usage d = Ok d' /\ Spec.shaped d'.
Proof.
  intros H. unfold append_suv.
  destruct (_ && _); [|eauto].
  destruct H as [Hf Hl].
  destruct (dict_get d "body_type_preference") eqn:E; try discriminate.
  simpl. eexists. split; [reflexivity|].
  apply shaped_set; [split; [exact Hf | rewrite E; reflexivity] | reflexivity].
Qed.

Lemma shaped_typed d :
  Spec.all_fields_present d = true ->
  Spec.collections_typed d = true -> Spec.shaped d.
Proof.
  intros Hf Ht. split; [exact Hf|].
  unfold Spec.collections_typed in Ht. rewrite !andb_true_iff in Ht. tauto.
Qed.

(** On an intent that has its six fields, with collections of the expected
    types, the enrichment returns, and what it returns has the same
    shape. *)
Lemma enrich_total parsed text :
  Spec.all_fields_present parsed = true ->
  Spec.collections_typed parsed = true ->
  exists d, _enrich_from_text parsed text = Ok d
            /\ Spec.all_fields_present d = true
            /\ Spec.collections_typed d = true.
Proof.
  intros Hf Ht. unfold _enrich_from_text.
  rewrite (with_defaults_id _ Hf).
  pose proof (shaped_typed _ Hf Ht) as Hs.
  unfold Spec.collections_typed in Ht. rewrite !andb_true_iff in Ht.
  destruct Ht as [[Hu Hp] _].
  destruct (lower_set_ok _ Hu) as [u ->].
  destruct (lower_set_ok _ Hp) as [p ->].
  cbn [bind].
  apply (shaped_fill_family (Str.lower text)) in Hs.
  apply (shaped_fill_budget (Str.lower text)) in Hs.
  destruct (append_sedan_ok (Str.lower text) _ Hs) as (d1 & -> & Hs1).
  cbn [bind].
  destruct (append_suv_ok (usage_from_text (Str.lower text) u) _ Hs1)
    as (d2 & -> & [Hf2 Hl2]).
  cbn [bind]. eexists. split; [reflexivity|]. split.
  - apply all_fields_set, all_fields_set, Hf2.
  - unfold Spec.collections_typed. rewrite !dict_get_set. cbn. exact Hl2.
Qed.

(** The heuristic pass never raises, whatever the text. *)
Lemma heuristic_total text :
  exists d, _simple_heuristic_parse text = Ok d
            /\ Spec.all_fields_present d = true.
Proof.
  unfold _simple_heuristic_parse.
  cbn [_normalize_shape bind].
  set (d0 := with_defaults _).
  destruct (enrich_total d0 text) as (d & H & Hf & _);
    [reflexivity | reflexivity |].
  eauto.
Qed.

(** C2.  When the completion collaborator answers every request with
    [None] or with the empty string, [parse_user_needs] does not raise,
    whatever the user text, and the dict it returns has the six fields
    [family_size], [budget_band], [usage], [preferences],
    [body_type_preference] and [other]. *)
Theorem parse_user_needs_silent_collaborator
    (X : Externals) (user_text : string) :
  (forall r, no_text (chat_completion X r) = true) ->
  exists d, parse_user_needs X user_text = Ok d
            /\ Spec.all_fields_present d = true.
Proof.
  intro Hsilent. unfold parse_user_needs.
  assert (Htr : forall r, _looks_truncated (chat_completion X r) = true).
  { intro r. specialize (Hsilent r). unfold no_text in Hsilent.
    destruct (chat_completion X r) as [s|]; [|reflexivity].
    simpl. rewrite Hsilent. reflexivity. }
  rewrite Htr.
  pose proof (Hsilent (ParseRetryRequest user_text)) as H2.
  unfold no_text in H2.
  destruct (chat_completion X (ParseRetryRequest user_text)) as [s|].
  - rewrite H2. apply heuristic_total.
  - apply heuristic_total.
Qed.

Lemma parse_user_needs_silent_collaborator_witness :
  exists d, parse_user_needs (externals silent) family_city_text = Ok d
            /\ Spec.all_fields_present d = true.
Proof.
  apply parse_user_needs_silent_collaborator. intro r. reflexivity.
Defined.

(** C5 as the specification states it does not hold: on the scenario text
    the heuristic pass does not put [city] into [usage] (the text has
    [daily city commuting], none of the commute phrases), and it leaves
    [budget_band] unset (there is no rule for an amount such as
    [5 lakhs]). *)
Lemma heuristic_scenario_claim_fails :
  ~ (exists d, _simple_heuristic_parse family_city_text = Ok d
               /\ Spec.usage_includes d "family" = true
               /\ Spec.usage_includes d "city" = true
               /\ dict_get d "family_size" = PInt 3
               /\ dict_get d "budget_band" = PStr "low").
Proof.
  intros (d & H & _ & Hcity & _ & Hband).
  vm_compute in H. injection H as <-.
  vm_compute in Hcity. discriminate.
Qed.

(** C5, amended.  On the scenario text the heuristic pass yields an intent
    whose [usage] is [["family"]], whose [family_size] is 3 and whose
    [budget_band] is [None]; enriching that intent once more changes
    nothing. *)
Theorem heuristic_scenario :
  exists d, _simple_heuristic_parse family_city_text = Ok d
            /\ _enrich_from_text d family_city_text = Ok d
            /\ dict_get d "usage" = PList [PStr "family"]
            /\ dict_get d "family_size" = PInt 3
            /\ dict_get d "budget_band" = PNone.
Proof.
  eexists. split; [vm_compute; reflexivity|].
  repeat split; vm_compute; reflexivity.
Qed.





End ParserFacts.

(* ------------------------------------------------------------------ *)
(** ** The brace-balanced scanner *)

Module BalancedFacts.
Import Balanced Parser.

Lemma find_seq_S (f : nat -> bool) a n :
  find f (seq a (S n)) = if f a then Some a else find f (seq (S a) n).
Proof. reflexivity. Qed.

Lemma find_seq_shift (f : nat -> bool) a n :
  find f (seq (S a) n) = option_map S (find (fun i => f (S i)) (seq a n)).
Proof.
  revert a. induction n as [|n IH]; intro a; [reflexivity|].
  cbn [seq find]. destruct (f (S a)); [reflexivity | apply IH].
Qed.

Lemma from_first_brace_spec l :
  from_first_brace l =
  match first_brace l with
  | Some i => Some (skipn i l)
  | None => None
  end.
Proof.
  unfold first_brace. induction l as [|c l IH]; [reflexivity|].
  cbn [from_first_brace List.length]. rewrite find_seq_S. cbn [nth_error].
  destruct (c =? Str.lbrace)%char; [reflexivity|].
  rewrite find_seq_shift. cbn [nth_error]. rewrite IH.
  destruct (find _ (seq 0 (List.length l))); reflexivity.
Qed.

Lemma delimiters_upto_S t n :
  delimiters_upto t (S n) =
  (delimiters_upto t n + if is_delimiter t n then 1 else 0)%nat.
Proof.
  unfold delimiters_upto. rewrite seq_S, filter_app, length_app. cbn [filter plus].
  destruct (is_delimiter t n); reflexivity.
Qed.

Lemma sum_snoc l b :
  fold_right Z.add 0 (l ++ [b]) = fold_right Z.add 0 l + b.
Proof. induction l as [|x l IH]; cbn [app fold_right]; [|rewrite IH]; lia. Qed.

Lemma depth_upto_S t n : depth_upto t (S n) = depth_upto t n + brace_value t n.
Proof. unfold depth_upto. rewrite seq_S, map_app. apply sum_snoc. Qed.

Lemma escaped_after_snoc p ch :
  escaped_after (p ++ [ch]) = (ch =? Str.backslash)%char && negb (escaped_after p).
Proof.
  unfold escaped_after, trailing_backslashes. rewrite rev_app_distr.
  cbn [rev app leading_backslashes].
  destruct (ch =? Str.backslash)%char; [|reflexivity].
  rewrite Nat.odd_succ, <- Nat.negb_odd. reflexivity.
Qed.

Lemma skipn_cons_nth {A} (t : list A) n c r :
  skipn n t = c :: r ->
  nth_error t n = Some c /\ skipn (S n) t = r /\ firstn (S n) t = (firstn n t ++ [c])%list.
Proof.
  revert t. induction n as [|n IH]; intros t H.
  - destruct t; [discriminate|]. simpl in H. injection H as -> ->. auto.
  - destruct t as [|a t]; [discriminate|]. simpl in H.
    destruct (IH t H) as (H1 & H2 & H3). repeat split; try assumption.
    cbn [firstn app]. rewrite <- H3. reflexivity.
Qed.

Lemma scan_balanced_spec t r : forall n,
  skipn n t = r ->
  scan_balanced (depth_upto t n) (Nat.odd (delimiters_upto t n))
    (escaped_after (firstn n t)) r
  = option_map (fun i => (i - n)%nat) (find (closes_at t) (seq n (List.length r))).
Proof.
  induction r as [|ch r IH]; intros n Hn; [reflexivity|].
  destruct (skipn_cons_nth t n ch r Hn) as (Hnth & Hskip & Hfirst).
  specialize (IH (S n) Hskip).
  rewrite depth_upto_S, delimiters_upto_S, Hfirst, escaped_after_snoc in IH.
  cbn [scan_balanced List.length]. rewrite find_seq_S.
  unfold closes_at at 1, in_literal. rewrite depth_upto_S, delimiters_upto_S.
  unfold brace_value, in_literal. rewrite delimiters_upto_S.
  unfold brace_value, in_literal in IH. rewrite delimiters_upto_S in IH.
  unfold is_delimiter in *. rewrite Hnth in *.
  set (esc := escaped_after (firstn n t)) in *.
  set (d := delimiters_upto t n) in *.
  set (depth := depth_upto t n) in *.
  assert (Hodd : Nat.odd (d + (if (ch =? Str.dq)%char && negb esc then 1 else 0))
                 = if (ch =? Str.dq)%char && negb esc then negb (Nat.odd d) else Nat.odd d).
  { destruct ((ch =? Str.dq)%char && negb esc).
    - rewrite Nat.add_1_r, Nat.odd_succ, <- Nat.negb_odd. reflexivity.
    - rewrite Nat.add_0_r. reflexivity. }
  rewrite Hodd in *.
  set (ins := if (ch =? Str.dq)%char && negb esc then negb (Nat.odd d) else Nat.odd d) in *.
  assert (Hshift : forall x,
            option_map S (option_map (fun i => (i - S n)%nat)
                            (find (closes_at t) (seq (S n) (List.length r))))
            = x ->
            option_map (fun i => (i - n)%nat)
              (find (closes_at t) (seq (S n) (List.length r))) = x).
  { intros x <-.
    destruct (find (closes_at t) (seq (S n) (List.length r))) as [i|] eqn:Ef;
      [|reflexivity].
    apply find_some in Ef. destruct Ef as [Hin _]. apply in_seq in Hin.
    cbn [option_map]. f_equal. lia. }
  destruct ins; cbv beta iota in IH |- *.
  - cbn [negb andb]. rewrite Z.add_0_r in IH. rewrite IH.
    symmetry. apply Hshift. reflexivity.
  - cbn [negb andb].
    set (depth' := if (ch =? Str.lbrace)%char then depth + 1
                   else if (ch =? Str.rbrace)%char then depth - 1 else depth).
    assert (Hd : depth + (if (ch =? Str.lbrace)%char then 1
                          else if (ch =? Str.rbrace)%char then -1 else 0) = depth').
    { unfold depth'. destruct (ch =? Str.lbrace)%char; [reflexivity|].
      destruct (ch =? Str.rbrace)%char; lia. }
    rewrite Hd in *.
    destruct (depth' =? 0); [cbn [option_map]; f_equal; lia|].
    rewrite IH. symmetry. apply Hshift. reflexivity.
Qed.

Lemma find_balanced_chars_spec l :
  find_balanced_chars l =
  match first_brace l with
  | Some start => first_balanced (skipn start l)
  | None => None
  end.
Proof.
  unfold find_balanced_chars. rewrite from_first_brace_spec.
  destruct (first_brace l) as [start|]; [|reflexivity].
  set (t := skipn start l).
  pose proof (scan_balanced_spec t t O eq_refl) as H.
  change (depth_upto t 0) with 0 in H.
  change (Nat.odd (delimiters_upto t 0)) with false in H.
  change (escaped_after (firstn 0 t)) with false in H.
  rewrite H. unfold first_balanced.
  destruct (find (closes_at t) (seq 0 (List.length t))) as [i|]; [|reflexivity].
  cbn [option_map]. rewrite Nat.sub_0_r. reflexivity.
Qed.

(** C9.  For every string, [_find_first_balanced_json] returns the text
    from the first opening brace to the closing brace that matches it,
    the braces inside double-quoted literals not counted and a quote after
    a backslash that escapes it not delimiting a literal, and [None] when
    there is no opening brace or the depth never returns to zero. *)
Theorem find_first_balanced_json_spec (s : string) :
  _find_first_balanced_json s = balanced_object s.
Proof.
  unfold _find_first_balanced_json, balanced_object.
  rewrite find_balanced_chars_spec.
  destruct (first_brace (Str.chars s)); reflexivity.
Qed.

End BalancedFacts.

(* ------------------------------------------------------------------ *)
(** ** The services at work *)

Module Walkthrough.
Import Parser Matcher Examples WalkthroughInputs.

(** The fenced block is taken, its trailing comma removed, the missing
    fields filled in and the keywords of the text added. *)
Example fenced_reply_parsed :
  parse_user_needs (externals (always fenced_reply))
    "safe suv for camping with kids"
  = Ok [("family_size", PInt 4);
        ("usage", PList [PStr "city"; PStr "family"; PStr "offroad"]);
        ("budget_band", PNone);
        ("preferences", PList [PStr "ruggedness"; PStr "safety"]);
        ("body_type_preference", PList [PStr "suv"]);
        ("other", PDict [])].
Proof. vm_compute. reflexivity. Qed.

(** An object whose [usage] is [null] makes the enrichment raise, and
    [parse_user_needs] with it. *)
Example null_usage_reply_raises :
  Json.loads null_usage_reply
  = Some (PDict [("usage", PNone); ("budget_band", PStr "low")])
  /\ parse_user_needs (externals (always null_usage_reply)) "a cheap car"
     = Raise TypeError.
Proof. split; vm_compute; reflexivity. Qed.

Example tricky_text_balanced :
  _find_first_balanced_json tricky_text
  = Some ("{" ++ q ++ "a}\" ++ q ++ "{" ++ q ++ ": {}}")
  /\ Balanced.balanced_object tricky_text
     = Some ("{" ++ q ++ "a}\" ++ q ++ "{" ++ q ++ ": {}}").
Proof. split; vm_compute; reflexivity. Qed.

(** The better candidate comes first; the two of equal score keep the
    order in which they came in. *)
Example tied_cars_ranked :
  exists ms,
    score_candidates (externals silent) [] general_driver tied_cars
      "any car" 3 = Ok ms
    /\ Spec.ids ms = [PStr "best"; PStr "first"; PStr "second"]
    /\ map match_score ms = [100; 62; 62].
Proof. eexists. split; [vm_compute; reflexivity|]. split; reflexivity. Qed.

(** Similarity 0.4, budget band met, model year 2023, electric:
    40 + 0.25 * 100 + 0.15 * 85 = 77.75, rounded to 78. *)
Example electric_car_scored :
  exists m,
    score_candidates (externals silent) [("budget_band", PStr "low")]
      family_driver [electric_car] "a cheap car" 3 = Ok [m]
    /\ dict_get m "score" = PInt 78
    /\ dict_get m "name" = PStr "Tata Tiago EV"
    /\ dict_get m "reasons"
       = PList [PStr "Offers practical space for family use, keeps your family’s safety in mind."].
Proof. eexists. split; [vm_compute; reflexivity|]. repeat split. Qed.

End Walkthrough.

(* ------------------------------------------------------------------ *)
(** ** The tag sets *)

Module SetFacts.

Lemma nat_of_ascii_inj x y : nat_of_ascii x = nat_of_ascii y -> x = y.
Proof.
  intro H. rewrite <- (ascii_nat_embedding x), <- (ascii_nat_embedding y), H.
  reflexivity.
Qed.

Lemma ltb_irrefl a : Str.ltb a a = false.
Proof.
  induction a as [|c a IH]; [reflexivity|]. cbn [Str.ltb].
  rewrite Nat.ltb_irrefl. exact IH.
Qed.

(** [Str.ltb] is a strict total order. *)
Lemma ltb_trans a b c :
  Str.ltb a b = true -> Str.ltb b c = true -> Str.ltb a c = true.
Proof.
  revert b c. induction a as [|x a IH]; intros [|y b] [|z c]; cbn [Str.ltb];
    try discriminate; try reflexivity.
  destruct (nat_of_ascii x <? nat_of_ascii y)%nat eqn:Exy.
  - intros _. apply Nat.ltb_lt in Exy.
    destruct (nat_of_ascii y <? nat_of_ascii z)%nat eqn:Eyz.
    + intros _. apply Nat.ltb_lt in Eyz.
      replace (nat_of_ascii x <? nat_of_ascii z)%nat with true; [reflexivity|].
      symmetry. apply Nat.ltb_lt. lia.
    + destruct (nat_of_ascii z <? nat_of_ascii y)%nat eqn:Ezy; [discriminate|].
      apply Nat.ltb_ge in Eyz, Ezy. intros _.
      replace (nat_of_ascii x <? nat_of_ascii z)%nat with true; [reflexivity|].
      symmetry. apply Nat.ltb_lt. lia.
  - destruct (nat_of_ascii y <? nat_of_ascii x)%nat eqn:Eyx; [discriminate|].
    apply Nat.ltb_ge in Exy, Eyx. intro Hab.
    destruct (nat_of_ascii y <? nat_of_ascii z)%nat eqn:Eyz.
    + intros _. apply Nat.ltb_lt in Eyz.
      replace (nat_of_ascii x <? nat_of_ascii z)%nat with true; [reflexivity|].
      symmetry. apply Nat.ltb_lt. lia.
    + destruct (nat_of_ascii z <? nat_of_ascii y)%nat eqn:Ezy; [discriminate|].
      apply Nat.ltb_ge in Eyz, Ezy. intro Hbc.
      replace (nat_of_ascii x <? nat_of_ascii z)%nat with false
        by (symmetry; apply Nat.ltb_ge; lia).
      replace (nat_of_ascii z <? nat_of_ascii x)%nat with false
        by (symmetry; apply Nat.ltb_ge; lia).
      eapply IH; eassumption.
Qed.

Lemma ltb_total a b :
  Str.ltb a b = false -> String.eqb a b = false -> Str.ltb b a = true.
Proof.
  revert b. induction a as [|x a IH]; intros [|y b]; cbn [Str.ltb String.eqb];
    try discriminate; try reflexivity.
  destruct (nat_of_ascii x <? nat_of_ascii y)%nat eqn:Exy; [discriminate|].
  destruct (nat_of_ascii y <? nat_of_ascii x)%nat eqn:Eyx; [reflexivity|].
  apply Nat.ltb_ge in Exy, Eyx.
  assert (x = y) by (apply nat_of_ascii_inj; lia). subst y.
  rewrite Ascii.eqb_refl. apply IH.
Qed.

Lemma str_lt_neq a b : str_lt a b -> a <> b.
Proof. intros H ->. unfold str_lt in H. rewrite ltb_irrefl in H. discriminate. Qed.

(** [Str.set_add] keeps a sorted list sorted and adds one element. *)
Lemma in_set_add x y l : In y (Str.set_add x l) <-> y = x \/ In y l.
Proof.
  induction l as [|z l IH]; cbn [Str.set_add].
  - simpl. intuition.
  - destruct (String.eqb x z) eqn:E.
    + apply String.eqb_eq in E. subst z. simpl. intuition.
    + destruct (Str.ltb x z).
      * simpl. intuition.
      * simpl. rewrite IH. intuition.
Qed.

Lemma set_add_sorted x l : is_string_set l -> is_string_set (Str.set_add x l).
Proof.
  unfold is_string_set. induction 1 as [|z l Hl IH Hz]; cbn [Str.set_add].
  - repeat constructor.
  - destruct (String.eqb x z) eqn:E; [constructor; assumption|].
    destruct (Str.ltb x z) eqn:L.
    + constructor; [constructor; assumption|].
      constructor; [exact L|].
      rewrite Forall_forall in Hz |- *. intros w Hw.
      eapply ltb_trans; [exact L | apply Hz, Hw].
    + constructor; [exact IH|].
      rewrite Forall_forall in Hz |- *. intros w Hw.
      apply in_set_add in Hw. destruct Hw as [->|Hw]; [|auto].
      apply ltb_total; [exact L | exact E].
Qed.

Lemma in_fold_set_add l acc y :
  In y (fold_left (fun acc x => Str.set_add x acc) l acc) <-> In y l \/ In y acc.
Proof.
  revert acc. induction l as [|x l IH]; intro acc; cbn [fold_left].
  - simpl. intuition.
  - rewrite IH, in_set_add. simpl. intuition.
Qed.

Lemma in_set_of_list l y : In y (Str.set_of_list l) <-> In y l.
Proof. unfold Str.set_of_list. rewrite in_fold_set_add. simpl. intuition. Qed.

Lemma fold_set_add_sorted l acc :
  is_string_set acc ->
  is_string_set (fold_left (fun acc x => Str.set_add x acc) l acc).
Proof.
  revert acc. induction l as [|x l IH]; intros acc H; cbn [fold_left]; [exact H|].
  apply IH, set_add_sorted, H.
Qed.

Lemma set_of_list_sorted l : is_string_set (Str.set_of_list l).
Proof. apply fold_set_add_sorted. constructor. Qed.

(** Two sorted duplicate-free lists with the same elements are equal. *)
Lemma string_set_ext l l' :
  is_string_set l -> is_string_set l' ->
  (forall y, In y l <-> In y l') -> l = l'.
Proof.
  unfold is_string_set. intro H. revert l'.
  induction H as [|x l Hl IH Hx]; intros l' H' Hiff.
  - destruct l' as [|y l']; [reflexivity|].
    exfalso. apply (Hiff y). left. reflexivity.
  - destruct l' as [|y l'].
    + exfalso. apply (Hiff x). left. reflexivity.
    + inversion H' as [|? ? Hl' Hy]; subst.
      rewrite Forall_forall in Hx, Hy.
      assert (x = y).
      { destruct (proj1 (Hiff x) (or_introl eq_refl)) as [E|Hin]; [auto|].
        destruct (proj2 (Hiff y) (or_introl eq_refl)) as [E|Hin']; [auto|].
        exfalso. pose proof (Hy _ Hin) as H1. pose proof (Hx _ Hin') as H2.
        pose proof (ltb_trans _ _ _ H1 H2) as H3.
        rewrite ltb_irrefl in H3. discriminate. }
      subst y. f_equal. apply IH; [exact Hl'|].
      intro w. split; intro Hw.
      * destruct (proj1 (Hiff w) (or_intror Hw)) as [E|Hin]; [|exact Hin].
        subst w. exfalso. apply (str_lt_neq _ _ (Hx _ Hw)). reflexivity.
      * destruct (proj2 (Hiff w) (or_intror Hw)) as [E|Hin]; [|exact Hin].
        subst w. exfalso. apply (str_lt_neq _ _ (Hy _ Hw)). reflexivity.
Qed.

Lemma set_add_member x l : is_string_set l -> In x l -> Str.set_add x l = l.
Proof.
  intros Hs Hin. apply string_set_ext; [apply set_add_sorted, Hs | exact Hs|].
  intro y. rewrite in_set_add. split; [intros [->|H]; assumption | auto].
Qed.

Lemma set_of_list_id l : is_string_set l -> Str.set_of_list l = l.
Proof.
  intro Hs. apply string_set_ext; [apply set_of_list_sorted | exact Hs|].
  apply in_set_of_list.
Qed.

Lemma lower_ascii_idem c : Str.lower_ascii (Str.lower_ascii c) = Str.lower_ascii c.
Proof.
  destruct c as [[] [] [] [] [] [] [] []]; reflexivity.
Qed.

Lemma lower_idem s : Str.lower (Str.lower s) = Str.lower s.
Proof.
  induction s as [|c s IH]; [reflexivity|]. cbn [Str.lower].
  rewrite lower_ascii_idem, IH. reflexivity.
Qed.

End SetFacts.

(* ------------------------------------------------------------------ *)
(** ** The keyword enrichment *)

Module EnrichFacts.
Import Parser ParserFacts SetFacts Inputs.

Lemma dict_get_setdefault d k v k' :
  dict_get (dict_setdefault d k v) k' =
  if String.eqb k' k && negb (dict_has d k) then v else dict_get d k'.
Proof.
  unfold dict_setdefault. destruct (dict_has d k) eqn:E.
  - rewrite andb_false_r. reflexivity.
  - rewrite dict_get_set, andb_true_r. reflexivity.
Qed.

Lemma dict_has_get_setdefault d k v k' :
  dict_has d k' = true -> dict_get (dict_setdefault d k v) k' = dict_get d k'.
Proof.
  intro H. rewrite dict_get_setdefault.
  destruct (String.eqb k' k) eqn:E; [|reflexivity].
  apply String.eqb_eq in E. subst. rewrite H. reflexivity.
Qed.

Lemma dict_has_setdefault_mono d k v k' :
  dict_has d k' = true -> dict_has (dict_setdefault d k v) k' = true.
Proof. intro H. rewrite dict_has_setdefault, H. apply orb_true_r. Qed.

(** [setdefault] leaves a present key alone. *)
Lemma with_defaults_get d k :
  dict_has d k = true -> dict_get (with_defaults d) k = dict_get d k.
Proof.
  intro H. unfold with_defaults.
  repeat (rewrite dict_has_get_setdefault;
          [|repeat apply dict_has_setdefault_mono; exact H]).
  reflexivity.
Qed.

(** The enrichment, stage by stage. *)
Lemma enrich_stages d user_text d' :
  _enrich_from_text d user_text = Ok d' ->
  exists u0 p0 d1 d2,
    lower_set (dict_get (with_defaults d) "usage") = Ok u0
    /\ lower_set (dict_get (with_defaults d) "preferences") = Ok p0
    /\ append_sedan (Str.lower user_text)
         (fill_budget_band (Str.lower user_text)
            (fill_family_size (Str.lower user_text) (with_defaults d))) = Ok d1
    /\ append_suv (usage_from_text (Str.lower user_text) u0) d1 = Ok d2
    /\ d' = dict_set
              (dict_set d2 "usage"
                 (PList (map PStr (usage_from_text (Str.lower user_text) u0))))
              "preferences"
              (PList (map PStr (prefs_from_text (Str.lower user_text) p0))).
Proof.
  unfold _enrich_from_text.
  destruct (lower_set (dict_get (with_defaults d) "usage")) as [u0|]; [|discriminate].
  destruct (lower_set (dict_get (with_defaults d) "preferences")) as [p0|]; [|discriminate].
  cbn [bind].
  destruct (append_sedan _ _) as [d1|] eqn:E1; [|discriminate]. cbn [bind].
  destruct (append_suv _ _) as [d2|] eqn:E2; [|discriminate]. cbn [bind].
  intros [= <-]. exists u0, p0, d1, d2. repeat split; assumption.
Qed.

Lemma lower_strs_lower items : Forall is_lower (lower_strs items).
Proof.
  induction items as [|v items IH]; cbn [lower_strs]; [constructor|].
  destruct v; try exact IH. constructor; [apply lower_idem | exact IH].
Qed.

Lemma in_lower_strs items s : In (PStr s) items -> In (Str.lower s) (lower_strs items).
Proof.
  induction items as [|v items IH]; [intros []|].
  intros [->|H]; cbn [lower_strs].
  - left. reflexivity.
  - destruct v; auto. right. auto.
Qed.

(** The sets of the enrichment, as sorted lists of lower-case strings. *)
Lemma lower_set_set v u :
  lower_set v = Ok u -> is_string_set u /\ Forall is_lower u.
Proof.
  unfold lower_set. destruct (py_iter v) as [items|]; [|discriminate].
  cbn [bind]. intros [= <-]. split; [apply set_of_list_sorted|].
  rewrite Forall_forall. intros y Hy. apply (proj1 (in_set_of_list _ _)) in Hy.
  pose proof (lower_strs_lower items) as H. rewrite Forall_forall in H.
  apply H, Hy.
Qed.

Lemma add_if_set b x s : is_string_set s -> is_string_set (add_if b x s).
Proof. intro H. destruct b; [apply set_add_sorted, H | exact H]. Qed.

Lemma in_add_if b x s y : In y (add_if b x s) <-> (b = true /\ y = x) \/ In y s.
Proof.
  destruct b; cbn [add_if].
  - rewrite in_set_add. intuition.
  - intuition. discriminate.
Qed.

Lemma add_if_lower b x s : is_lower x -> Forall is_lower s -> Forall is_lower (add_if b x s).
Proof.
  intros Hx Hs. rewrite Forall_forall in *. intros y Hy.
  apply in_add_if in Hy. destruct Hy as [[_ ->]|Hy]; auto.
Qed.

Lemma add_if_again b x s :
  is_string_set s -> (b = true -> In x s) -> add_if b x s = s.
Proof.
  intros Hs Hin. destruct b; [|reflexivity].
  apply set_add_member; auto.
Qed.

Lemma usage_from_text_set text u :
  is_string_set u -> is_string_set (usage_from_text text u).
Proof. intro H. unfold usage_from_text. repeat apply add_if_set. exact H. Qed.

Lemma prefs_from_text_set text p :
  is_string_set p -> is_string_set (prefs_from_text text p).
Proof. intro H. unfold prefs_from_text. repeat apply add_if_set. exact H. Qed.

Lemma usage_from_text_lower text u :
  Forall is_lower u -> Forall is_lower (usage_from_text text u).
Proof.
  intro H. unfold usage_from_text.
  repeat (apply add_if_lower; [reflexivity|]). exact H.
Qed.

Lemma prefs_from_text_lower text p :
  Forall is_lower p -> Forall is_lower (prefs_from_text text p).
Proof.
  intro H. unfold prefs_from_text.
  repeat (apply add_if_lower; [reflexivity|]). exact H.
Qed.

Lemma usage_from_text_incl text u y : In y u -> In y (usage_from_text text u).
Proof.
  intro H. unfold usage_from_text. repeat (apply in_add_if; right). exact H.
Qed.

Lemma prefs_from_text_incl text p y : In y p -> In y (prefs_from_text text p).
Proof.
  intro H. unfold prefs_from_text. repeat (apply in_add_if; right). exact H.
Qed.

(** The keyword rules add nothing the second time. *)
Lemma usage_from_text_idem text u :
  is_string_set u ->
  usage_from_text text (usage_from_text text u) = usage_from_text text u.
Proof.
  intro Hu. pose proof (usage_from_text_set text u Hu) as Hs.
  set (U := usage_from_text text u) in *.
  assert (Hin : forall y, In y (usage_from_text text U) <-> In y U).
  { intro y. split; [|apply usage_from_text_incl].
    unfold usage_from_text at 1. rewrite !in_add_if.
    intros [[Hb ->]|[[Hb ->]|[[Hb ->]|H]]]; try exact H;
      unfold U, usage_from_text; rewrite !in_add_if; rewrite Hb; intuition. }
  apply string_set_ext; [apply usage_from_text_set, Hs | exact Hs | exact Hin].
Qed.

Lemma prefs_from_text_idem text p :
  is_string_set p ->
  prefs_from_text text (prefs_from_text text p) = prefs_from_text text p.
Proof.
  intro Hp. pose proof (prefs_from_text_set text p Hp) as Hs.
  set (P := prefs_from_text text p) in *.
  assert (Hin : forall y, In y (prefs_from_text text P) <-> In y P).
  { intro y. split; [|apply prefs_from_text_incl].
    unfold prefs_from_text at 1. rewrite !in_add_if.
    intros [[Hb ->]|[[Hb ->]|[[Hb ->]|[[Hb ->]|[[Hb ->]|[[Hb ->]|H]]]]]];
      try exact H;
      unfold P, prefs_from_text; rewrite !in_add_if; rewrite Hb; intuition. }
  apply string_set_ext; [apply prefs_from_text_set, Hs | exact Hs | exact Hin].
Qed.

Lemma assoc_set_same {V} (d : list (string * V)) k v :
  assoc_get d k = Some v -> assoc_set d k v = d.
Proof.
  induction d as [|[a b] d IH]; cbn [assoc_get assoc_set]; [discriminate|].
  destruct (String.eqb k a) eqn:E.
  - apply String.eqb_eq in E. subst a. intros [= ->]. reflexivity.
  - intro H. rewrite (IH H). reflexivity.
Qed.

Lemma dict_set_same d k v :
  dict_has d k = true -> dict_get d k = v -> dict_set d k v = d.
Proof.
  unfold dict_has, assoc_has, dict_get, dict_set.
  destruct (assoc_get d k) as [w|] eqn:E; [|discriminate].
  intros _ <-. apply assoc_set_same, E.
Qed.

Lemma dict_get_set_other d k v k' :
  k' <> k -> dict_get (dict_set d k v) k' = dict_get d k'.
Proof.
  intro H. rewrite dict_get_set. apply String.eqb_neq in H. rewrite H. reflexivity.
Qed.

Lemma dict_get_set_same d k v : dict_get (dict_set d k v) k = v.
Proof. rewrite dict_get_set, String.eqb_refl. reflexivity. Qed.

Lemma dict_has_set_mono d k v k' :
  dict_has d k' = true -> dict_has (dict_set d k v) k' = true.
Proof. intro H. rewrite dict_has_set, H. apply orb_true_r. Qed.

(** Each step writes one key. *)
Lemma fill_family_other text d k :
  k <> "family_size" ->
  dict_get (fill_family_size text d) k = dict_get d k.
Proof.
  intro H. unfold fill_family_size.
  destruct (_ && _); [apply dict_get_set_other, H | reflexivity].
Qed.

Lemma fill_family_kept text d :
  dict_get d "family_size" <> PNone ->
  fill_family_size text d = d.
Proof.
  intro H. unfold fill_family_size.
  destruct (dict_get d "family_size"); try contradiction;
    rewrite andb_false_r; reflexivity.
Qed.

Lemma fill_budget_other text d k :
  k <> "budget_band" ->
  dict_get (fill_budget_band text d) k = dict_get d k.
Proof.
  intro H. unfold fill_budget_band.
  destruct (is_none _); [|reflexivity].
  destruct (budget_from_text text); [apply dict_get_set_other, H | reflexivity].
Qed.

Lemma fill_budget_kept text d :
  dict_get d "budget_band" <> PNone ->
  fill_budget_band text d = d.
Proof.
  intro H. unfold fill_budget_band.
  destruct (dict_get d "budget_band"); try contradiction; reflexivity.
Qed.

Lemma fill_family_has text d k :
  dict_has d k = true -> dict_has (fill_family_size text d) k = true.
Proof.
  intro H. unfold fill_family_size.
  destruct (_ && _); [apply dict_has_set_mono, H | exact H].
Qed.

Lemma fill_budget_has text d k :
  dict_has d k = true -> dict_has (fill_budget_band text d) k = true.
Proof.
  intro H. unfold fill_budget_band.
  destruct (is_none _); [|exact H].
  destruct (budget_from_text text); [apply dict_has_set_mono, H | exact H].
Qed.

Lemma append_sedan_appended text d d1 :
  append_sedan text d = Ok d1 -> appended "sedan" d d1.
Proof.
  unfold append_sedan, appended.
  destruct (Str.any_in _ text); [|intros [= <-]; left; reflexivity].
  destruct (py_contains_str _ _) as [[|]|]; cbn [bind]; try discriminate.
  - intros [= <-]. left. reflexivity.
  - destruct (dict_get d "body_type_preference"); cbn; try discriminate.
    intros [= <-]. right. eauto.
Qed.

Lemma append_suv_appended usage d d1 :
  append_suv usage d = Ok d1 -> appended "suv" d d1.
Proof.
  unfold append_suv, appended.
  destruct (_ && _); [|intros [= <-]; left; reflexivity].
  destruct (dict_get d "body_type_preference"); cbn; try discriminate.
  intros [= <-]. right. eauto.
Qed.

Lemma appended_other tag d d1 k :
  appended tag d d1 -> k <> "body_type_preference" ->
  dict_get d1 k = dict_get d k.
Proof.
  intros [->|(l & _ & ->)] H; [reflexivity | apply dict_get_set_other, H].
Qed.

Lemma appended_has tag d d1 k :
  appended tag d d1 -> dict_has d k = true -> dict_has d1 k = true.
Proof.
  intros [->|(l & _ & ->)] H; [exact H | apply dict_has_set_mono, H].
Qed.

Lemma appended_list tag d d1 l :
  appended tag d d1 -> dict_get d "body_type_preference" = PList l ->
  exists added, dict_get d1 "body_type_preference" = PList (l ++ added).
Proof.
  intros [->|(l' & Hl' & ->)] H.
  - exists []. rewrite app_nil_r. exact H.
  - rewrite H in Hl'. injection Hl' as <-.
    exists [PStr tag]. apply dict_get_set_same.
Qed.

Lemma all_fields_has d k :
  Spec.all_fields_present d = true -> In k Spec.intent_fields -> dict_has d k = true.
Proof.
  unfold Spec.all_fields_present. rewrite forallb_forall. auto.
Qed.

Lemma all_fields_from d d1 :
  (forall k, dict_has d k = true -> dict_has d1 k = true) ->
  Spec.all_fields_present d = true -> Spec.all_fields_present d1 = true.
Proof.
  unfold Spec.all_fields_present. rewrite !forallb_forall. auto.
Qed.

Lemma lower_strs_tags U : lower_strs (map PStr U) = map Str.lower U.
Proof. induction U as [|x U IH]; cbn [map lower_strs]; [|rewrite IH]; reflexivity. Qed.

Lemma map_lower_id U : Forall is_lower U -> map Str.lower U = U.
Proof. induction 1 as [|x U Hx _ IH]; cbn [map]; [|rewrite Hx, IH]; reflexivity. Qed.

(** Reading back the tags the enrichment wrote. *)
Lemma lower_set_tags U :
  is_string_set U -> Forall is_lower U -> lower_set (PList (map PStr U)) = Ok U.
Proof.
  intros Hs Hl. unfold lower_set. cbn [py_iter bind].
  rewrite lower_strs_tags, (map_lower_id _ Hl), (set_of_list_id _ Hs). reflexivity.
Qed.

Lemma enrich_shape (d : dict) (user_text : string) (d' : dict) :
  _enrich_from_text d user_text = Ok d' ->
  Spec.all_fields_present d' = true
  /\ exists U P,
       dict_get d' "usage" = PList (map PStr U)
       /\ dict_get d' "preferences" = PList (map PStr P)
       /\ is_string_set U /\ Forall is_lower U
       /\ is_string_set P /\ Forall is_lower P.
Proof.
  intro H. destruct (enrich_stages _ _ _ H) as (u0 & p0 & d1 & d2 & Hu & Hp & H1 & H2 & ->).
  apply append_sedan_appended in H1. apply append_suv_appended in H2.
  destruct (lower_set_set _ _ Hu) as [Hus Hul].
  destruct (lower_set_set _ _ Hp) as [Hps Hpl].
  split.
  - apply all_fields_set, all_fields_set.
    apply (all_fields_from (with_defaults d)); [|apply with_defaults_fields].
    intros k Hk. apply (appended_has _ _ _ _ H2), (appended_has _ _ _ _ H1).
    apply fill_budget_has, fill_family_has, Hk.
  - eexists _, _. split; [|split; [apply dict_get_set_same|]].
    + rewrite dict_get_set_other by discriminate. apply dict_get_set_same.
    + repeat split.
      * apply usage_from_text_set, Hus.
      * apply usage_from_text_lower, Hul.
      * apply prefs_from_text_set, Hps.
      * apply prefs_from_text_lower, Hpl.
Qed.

(** X1.  Whatever [_enrich_from_text] returns has the six fields, and its
    [usage] and [preferences] are lists of lower-case strings in strictly
    increasing order (what [sorted] makes of a set), so without
    duplicates. *)
Theorem enrich_output_shape (d : dict) (user_text : string) (d' : dict) :
  _enrich_from_text d user_text = Ok d' ->
  Spec.all_fields_present d' = true
  /\ exists U P,
       dict_get d' "usage" = PList (map PStr U)
       /\ dict_get d' "preferences" = PList (map PStr P)
       /\ is_string_set U /\ Forall is_lower U
       /\ is_string_set P /\ Forall is_lower P.
Proof. exact (enrich_shape d user_text d'). Qed.

Lemma enrich_output_shape_witness :
  exists d',
    _enrich_from_text sparse_intent camping_text = Ok d'
    /\ Spec.all_fields_present d' = true
    /\ exists U P,
         dict_get d' "usage" = PList (map PStr U)
         /\ dict_get d' "preferences" = PList (map PStr P)
         /\ is_string_set U /\ Forall is_lower U
         /\ is_string_set P /\ Forall is_lower P.
Proof.
  eexists. split; [vm_compute; reflexivity|].
  apply (enrich_output_shape sparse_intent camping_text).
  vm_compute. reflexivity.
Defined.

(** X2.  [_enrich_from_text] only adds: a [family_size] or [budget_band]
    that is not [None] is returned as it was, every key the function does
    not write (also [other] and keys of the caller's own) keeps its value,
    every string of a [usage] list is still there in lower case, and a
    [body_type_preference] list is only extended at its end. *)
Theorem enrich_never_removes (d : dict) (user_text : string) (d' : dict) :
  _enrich_from_text d user_text = Ok d' ->
  (dict_get d "family_size" <> PNone ->
   dict_get d' "family_size" = dict_get d "family_size")
  /\ (dict_get d "budget_band" <> PNone ->
      dict_get d' "budget_band" = dict_get d "budget_band")
  /\ (forall k, dict_has d k = true -> untouched_key k ->
                dict_get d' k = dict_get d k)
  /\ (forall l s, dict_get d "usage" = PList l -> In (PStr s) l ->
                  Spec.usage_includes d' (Str.lower s) = true)
  /\ (forall l, dict_get d "body_type_preference" = PList l ->
                exists added,
                  dict_get d' "body_type_preference" = PList (l ++ added)).
Proof.
  intro H. destruct (enrich_stages _ _ _ H) as (u0 & p0 & d1 & d2 & Hu & Hp & H1 & H2 & ->).
  apply append_sedan_appended in H1. apply append_suv_appended in H2.
  assert (Hpresent : forall k v, dict_get d k = v -> v <> PNone -> dict_has d k = true).
  { intros k v Hk Hv. unfold dict_get in Hk. unfold dict_has, assoc_has.
    destruct (assoc_get d k); [reflexivity | congruence]. }
  assert (Hchain : forall k, k <> "usage" -> k <> "preferences" ->
            k <> "body_type_preference" ->
            dict_get (dict_set (dict_set d2 "usage"
                        (PList (map PStr (usage_from_text (Str.lower user_text) u0))))
                        "preferences"
                        (PList (map PStr (prefs_from_text (Str.lower user_text) p0)))) k
            = dict_get (fill_budget_band (Str.lower user_text)
                          (fill_family_size (Str.lower user_text) (with_defaults d))) k).
  { intros k K1 K2 K3. rewrite !dict_get_set_other by assumption.
    rewrite (appended_other _ _ _ _ H2 K3), (appended_other _ _ _ _ H1 K3). reflexivity. }
  split; [|split; [|split; [|split]]].
  - intro Hne. rewrite Hchain by discriminate.
    rewrite fill_budget_other by discriminate.
    assert (Hd : dict_get (with_defaults d) "family_size" = dict_get d "family_size")
      by (apply with_defaults_get, (Hpresent _ _ eq_refl Hne)).
    rewrite fill_family_kept; [exact Hd | rewrite Hd; exact Hne].
  - intro Hne. rewrite Hchain by discriminate.
    assert (Hd : dict_get (with_defaults d) "budget_band" = dict_get d "budget_band")
      by (apply with_defaults_get, (Hpresent _ _ eq_refl Hne)).
    rewrite fill_budget_kept.
    + rewrite fill_family_other by discriminate. exact Hd.
    + rewrite fill_family_other by discriminate. rewrite Hd. exact Hne.
  - intros k Hk Hx. unfold untouched_key in Hx. cbn [In] in Hx.
    rewrite Hchain by (intro; subst; apply Hx; tauto).
    rewrite fill_budget_other by (intro; subst; apply Hx; tauto).
    rewrite fill_family_other by (intro; subst; apply Hx; tauto).
    apply with_defaults_get, Hk.
  - intros l s Hl Hin. unfold Spec.usage_includes.
    rewrite dict_get_set_other by discriminate. rewrite dict_get_set_same.
    rewrite with_defaults_get in Hu
      by (apply (Hpresent _ _ Hl); discriminate).
    rewrite Hl in Hu. unfold lower_set in Hu. cbn [py_iter bind] in Hu.
    injection Hu as <-.
    apply existsb_exists. exists (PStr (Str.lower s)). split.
    + apply in_map, usage_from_text_incl, in_set_of_list, in_lower_strs, Hin.
    + apply String.eqb_refl.
  - intros l Hl.
    rewrite !dict_get_set_other by discriminate.
    assert (H0 : dict_get (fill_budget_band (Str.lower user_text)
                   (fill_family_size (Str.lower user_text) (with_defaults d)))
                   "body_type_preference" = PList l).
    { rewrite fill_budget_other, fill_family_other by discriminate.
      rewrite with_defaults_get; [exact Hl|].
      apply (Hpresent _ _ Hl). discriminate. }
    destruct (appended_list _ _ _ _ H1 H0) as [a1 Ha1].
    destruct (appended_list _ _ _ _ H2 Ha1) as [a2 Ha2].
    exists (a1 ++ a2)%list. rewrite app_assoc. exact Ha2.
Qed.

Lemma enrich_never_removes_witness :
  exists d',
    _enrich_from_text sparse_intent camping_text = Ok d'
    /\ (dict_get sparse_intent "family_size" <> PNone ->
        dict_get d' "family_size" = dict_get sparse_intent "family_size")
    /\ (dict_get sparse_intent "budget_band" <> PNone ->
        dict_get d' "budget_band" = dict_get sparse_intent "budget_band")
    /\ (forall k, dict_has sparse_intent k = true -> untouched_key k ->
                  dict_get d' k = dict_get sparse_intent k)
    /\ (forall l s, dict_get sparse_intent "usage" = PList l ->
                    In (PStr s) l ->
                    Spec.usage_includes d' (Str.lower s) = true)
    /\ (forall l, dict_get sparse_intent "body_type_preference" = PList l ->
                  exists added,
                    dict_get d' "body_type_preference" = PList (l ++ added)).
Proof.
  eexists. split; [vm_compute; reflexivity|].
  apply (enrich_never_removes sparse_intent camping_text).
  vm_compute. reflexivity.
Defined.

(** On its own result, each step of the enrichment is the identity. *)
Lemma fill_family_fixed text d d' :
  dict_get d' "family_size" = dict_get (fill_family_size text d) "family_size" ->
  fill_family_size text d' = d'.
Proof.
  intro H. unfold fill_family_size at 1.
  destruct (family_words text) eqn:Ef; [|reflexivity].
  cbn [andb]. rewrite H. unfold fill_family_size. rewrite Ef. cbn [andb].
  destruct (is_none (dict_get d "family_size")) eqn:En.
  - rewrite dict_get_set_same. reflexivity.
  - rewrite En. reflexivity.
Qed.

Lemma fill_budget_fixed text d d' :
  dict_get d' "budget_band" = dict_get (fill_budget_band text d) "budget_band" ->
  fill_budget_band text d' = d'.
Proof.
  intro H. unfold fill_budget_band at 1. rewrite H. unfold fill_budget_band.
  destruct (is_none (dict_get d "budget_band")) eqn:En.
  - destruct (budget_from_text text) eqn:Eb.
    + rewrite dict_get_set_same. reflexivity.
    + rewrite En. reflexivity.
  - rewrite En. reflexivity.
Qed.

Lemma contains_truthy v x :
  x <> "" -> py_contains_str v x = Ok true -> truthy v = true.
Proof.
  intros Hx. destruct v; cbn; try discriminate.
  - intros [= H]. destruct s; [|reflexivity].
    destruct x; [congruence|]. cbn in H. discriminate.
  - destruct l; [discriminate|reflexivity].
  - destruct d; [discriminate|reflexivity].
Qed.

Lemma contains_snoc l x :
  py_contains_str (PList (l ++ [PStr x])) x = Ok true.
Proof.
  cbn. rewrite existsb_app. cbn. rewrite String.eqb_refl, orb_true_r. reflexivity.
Qed.

Lemma append_sedan_fixed text d d1 d' :
  append_sedan text d = Ok d1 ->
  dict_get d' "body_type_preference" = dict_get d1 "body_type_preference" ->
  append_sedan text d' = Ok d'.
Proof.
  unfold append_sedan. destruct (Str.any_in _ text); [|reflexivity].
  intros H Hd. rewrite Hd.
  destruct (py_contains_str (dict_get d "body_type_preference") "sedan")
    as [[|]|] eqn:Ec; cbn [bind] in H; try discriminate.
  - injection H as <-. rewrite Ec. reflexivity.
  - destruct (dict_get d "body_type_preference"); cbn in H; try discriminate.
    injection H as <-. rewrite dict_get_set_same, contains_snoc. reflexivity.
Qed.

Lemma append_suv_keeps_sedan usage d d1 :
  append_suv usage d = Ok d1 ->
  py_contains_str (dict_get d "body_type_preference") "sedan" = Ok true ->
  d1 = d.
Proof.
  unfold append_suv. intros H Hc.
  rewrite (contains_truthy _ "sedan" ltac:(discriminate) Hc), andb_false_r in H.
  congruence.
Qed.

Lemma append_suv_fixed usage d d1 d' :
  append_suv usage d = Ok d1 ->
  dict_get d' "body_type_preference" = dict_get d1 "body_type_preference" ->
  append_suv usage d' = Ok d'.
Proof.
  unfold append_suv. intros H Hd. rewrite Hd.
  destruct (Str.mem "offroad" usage); [|reflexivity]. cbn [andb] in *.
  destruct (truthy (dict_get d "body_type_preference")) eqn:Et; cbn [negb] in H.
  - injection H as <-. rewrite Et. reflexivity.
  - destruct (dict_get d "body_type_preference"); cbn in H; try discriminate.
    injection H as <-. rewrite dict_get_set_same.
    destruct l; reflexivity.
Qed.

Lemma enrich_fixed_point (d : dict) (user_text : string) (d' : dict) :
  _enrich_from_text d user_text = Ok d' ->
  _enrich_from_text d' user_text = Ok d'.
Proof.
  intro H.
  destruct (enrich_shape _ _ _ H) as (Hf & _).
  destruct (enrich_stages _ _ _ H) as (u0 & p0 & d1 & d2 & Hu & Hp & H1 & H2 & E).
  destruct (lower_set_set _ _ Hu) as [Hus Hul].
  destruct (lower_set_set _ _ Hp) as [Hps Hpl].
  set (text := Str.lower user_text) in *.
  set (U := usage_from_text text u0) in *.
  set (P := prefs_from_text text p0) in *.
  assert (HU : dict_get d' "usage" = PList (map PStr U)).
  { subst d'. rewrite dict_get_set_other by discriminate. apply dict_get_set_same. }
  assert (HP : dict_get d' "preferences" = PList (map PStr P)).
  { subst d'. apply dict_get_set_same. }
  assert (Hk : forall k, k <> "usage" -> k <> "preferences" ->
                         dict_get d' k = dict_get d2 k).
  { intros k K1 K2. subst d'. rewrite !dict_get_set_other by assumption. reflexivity. }
  pose proof (append_sedan_appended _ _ _ H1) as A1.
  pose proof (append_suv_appended _ _ _ H2) as A2.
  unfold _enrich_from_text. fold text.
  rewrite (with_defaults_id _ Hf).
  rewrite HU, HP.
  rewrite (lower_set_tags U), (lower_set_tags P);
    [| apply prefs_from_text_set, Hps | apply prefs_from_text_lower, Hpl
     | apply usage_from_text_set, Hus | apply usage_from_text_lower, Hul].
  cbn [bind].
  assert (EU : usage_from_text text U = U) by apply (usage_from_text_idem _ _ Hus).
  assert (EP : prefs_from_text text P = P) by apply (prefs_from_text_idem _ _ Hps).
  rewrite EU, EP.
  rewrite (fill_family_fixed text (with_defaults d)).
  2:{ rewrite Hk by discriminate.
      rewrite (appended_other _ _ _ _ A2), (appended_other _ _ _ _ A1) by discriminate.
      apply fill_budget_other. discriminate. }
  rewrite (fill_budget_fixed text (fill_family_size text (with_defaults d))).
  2:{ rewrite Hk by discriminate.
      rewrite (appended_other _ _ _ _ A2), (appended_other _ _ _ _ A1) by discriminate.
      reflexivity. }
  assert (Hb : dict_get d' "body_type_preference" = dict_get d2 "body_type_preference")
    by (apply Hk; discriminate).
  assert (S1 : append_sedan text d' = Ok d').
  { unfold append_sedan in *.
    destruct (Str.any_in _ text); [|reflexivity].
    rewrite Hb.
    assert (Hc : py_contains_str (dict_get d1 "body_type_preference") "sedan" = Ok true).
    { destruct (py_contains_str _ "sedan") as [[|]|] eqn:Ec in H1;
        cbn [bind] in H1; try discriminate.
      - injection H1 as <-. exact Ec.
      - destruct (dict_get _ "body_type_preference") in H1; cbn in H1; try discriminate.
        injection H1 as <-. rewrite dict_get_set_same. apply contains_snoc. }
    rewrite (append_suv_keeps_sedan _ _ _ H2 Hc), Hc. reflexivity. }
  rewrite S1. cbn [bind].
  rewrite (append_suv_fixed _ _ _ _ H2 Hb). cbn [bind].
  f_equal.
  rewrite (dict_set_same d' "usage").
  - apply dict_set_same; [|exact HP].
    apply all_fields_has; [exact Hf | cbn; tauto].
  - apply all_fields_has; [exact Hf | cbn; tauto].
  - exact HU.
Qed.

(** X3.  [_enrich_from_text] is idempotent: enriching what it returned
    with the same text returns it unchanged. *)
Theorem enrich_idempotent (d : dict) (user_text : string) (d' : dict) :
  _enrich_from_text d user_text = Ok d' ->
  _enrich_from_text d' user_text = Ok d'.
Proof. exact (enrich_fixed_point d user_text d'). Qed.

Lemma enrich_idempotent_witness :
  exists d',
    _enrich_from_text sparse_intent camping_text = Ok d'
    /\ _enrich_from_text d' camping_text = Ok d'.
Proof.
  eexists. split; [vm_compute; reflexivity|].
  apply (enrich_idempotent sparse_intent camping_text).
  vm_compute. reflexivity.
Defined.

(** X4.  A [usage] or [preferences] key that is present and holds a
    value that cannot be iterated ([None], a number, a bool) makes
    [_enrich_from_text] raise [TypeError]: [setdefault] fills only absent
    keys. *)
Theorem enrich_not_iterable (d : dict) (user_text : string) (k : string) :
  k = "usage" \/ k = "preferences" ->
  dict_has d k = true ->
  Spec.iterable (dict_get d k) = false ->
  _enrich_from_text d user_text = Raise TypeError.
Proof.
  intros Hk Hh Hi. unfold _enrich_from_text.
  assert (E : forall k, dict_has d k = true ->
            dict_get (with_defaults d) k = dict_get d k)
    by (intros; apply with_defaults_get; assumption).
  destruct Hk as [-> | ->].
  - rewrite (E _ Hh). unfold lower_set.
    destruct (dict_get d "usage"); cbn in Hi |- *; try discriminate; reflexivity.
  - rewrite (E _ Hh). unfold lower_set at 2.
    destruct (lower_set (dict_get (with_defaults d) "usage")) eqn:Eu.
    + cbn [bind].
      destruct (dict_get d "preferences"); cbn in Hi |- *; try discriminate; reflexivity.
    + cbn [bind]. unfold lower_set in Eu.
      destruct (dict_get (with_defaults d) "usage"); cbn in Eu; try discriminate;
        injection Eu as <-; reflexivity.
Qed.

Lemma enrich_not_iterable_witness :
  ("usage" = "usage" \/ "usage" = "preferences")
  /\ dict_has null_usage_intent "usage" = true
  /\ Spec.iterable (dict_get null_usage_intent "usage") = false
  /\ _enrich_from_text null_usage_intent camping_text = Raise TypeError.
Proof.
  assert (Hk : "usage" = "usage" \/ "usage" = "preferences")
    by (left; reflexivity).
  split; [exact Hk|]. split; [reflexivity|]. split; [reflexivity|].
  exact (enrich_not_iterable null_usage_intent camping_text "usage" Hk
           eq_refl eq_refl).
Defined.

(** The fields only the two [fill] steps write. *)
Lemma enrich_get_scalar d t d' k :
  _enrich_from_text d t = Ok d' ->
  k <> "usage" -> k <> "preferences" -> k <> "body_type_preference" ->
  dict_get d' k
  = dict_get (fill_budget_band (Str.lower t)
                (fill_family_size (Str.lower t) (with_defaults d))) k.
Proof.
  intros H K1 K2 K3.
  destruct (enrich_stages _ _ _ H) as (u0 & p0 & d1 & d2 & Hu & Hp & H1 & H2 & ->).
  apply append_sedan_appended in H1. apply append_suv_appended in H2.
  rewrite !dict_get_set_other by assumption.
  rewrite (appended_other _ _ _ _ H2 K3), (appended_other _ _ _ _ H1 K3). reflexivity.
Qed.

Lemma mem_in x l : Str.mem x l = true <-> In x l.
Proof.
  unfold Str.mem. rewrite existsb_exists. split.
  - intros (y & Hy & E). apply String.eqb_eq in E. subst. exact Hy.
  - intro H. exists x. split; [exact H | apply String.eqb_refl].
Qed.

Lemma usage_includes_in d U x :
  dict_get d "usage" = PList (map PStr U) ->
  Spec.usage_includes d x = true <-> In x U.
Proof.
  intro H. unfold Spec.usage_includes. rewrite H.
  rewrite existsb_exists. split.
  - intros (v & Hv & E). apply in_map_iff in Hv. destruct Hv as (s & <- & Hs).
    apply String.eqb_eq in E. subst. exact Hs.
  - intro Hx. exists (PStr x). split; [apply in_map, Hx | apply String.eqb_refl].
Qed.

Lemma enrich_keywords (d : dict) (user_text : string) (d' : dict) :
  _enrich_from_text d user_text = Ok d' ->
  (family_words (Str.lower user_text) = true ->
     Spec.usage_includes d' "family" = true
     /\ dict_get d' "family_size" <> PNone)
  /\ (outdoor_words (Str.lower user_text) = true ->
     Spec.usage_includes d' "offroad" = true)
  /\ (Spec.usage_includes d' "offroad" = true ->
     truthy (dict_get d' "body_type_preference") = true)
  /\ (budget_from_text (Str.lower user_text) <> None ->
     dict_get d' "budget_band" <> PNone).
Proof.
  intro H.
  pose proof (enrich_get_scalar _ _ _ "family_size" H) as Hfam.
  pose proof (enrich_get_scalar _ _ _ "budget_band" H) as Hbud.
  destruct (enrich_stages _ _ _ H) as (u0 & p0 & d1 & d2 & Hu & Hp & H1 & H2 & E).
  set (text := Str.lower user_text) in *.
  set (U := usage_from_text text u0) in *.
  assert (HU : dict_get d' "usage" = PList (map PStr U)).
  { subst d'. rewrite dict_get_set_other by discriminate. apply dict_get_set_same. }
  split; [|split; [|split]].
  - intro Hf. split.
    + apply (usage_includes_in _ _ _ HU). unfold U, usage_from_text.
      rewrite Hf. apply in_add_if. right. apply in_add_if. right.
      apply in_add_if. left. split; reflexivity.
    + rewrite Hfam by discriminate. rewrite fill_budget_other by discriminate.
      unfold fill_family_size. rewrite Hf. cbn [andb].
      destruct (dict_get (with_defaults d) "family_size") eqn:Ed; cbn [is_none];
        try (rewrite Ed; discriminate).
      rewrite dict_get_set_same. discriminate.
  - intro Ho. apply (usage_includes_in _ _ _ HU). unfold U, usage_from_text.
    rewrite Ho. apply in_add_if. left. split; reflexivity.
  - intro Ho. apply (usage_includes_in _ _ _ HU), mem_in in Ho.
    assert (Hb : dict_get d' "body_type_preference" = dict_get d2 "body_type_preference").
    { subst d'. rewrite !dict_get_set_other by discriminate. reflexivity. }
    rewrite Hb. unfold append_suv in H2. rewrite Ho in H2. cbn [andb] in H2.
    destruct (truthy (dict_get d1 "body_type_preference")) eqn:Et; cbn [negb] in H2.
    + injection H2 as <-. exact Et.
    + destruct (dict_get d1 "body_type_preference"); cbn in H2; try discriminate.
      injection H2 as <-. rewrite dict_get_set_same. destruct l; reflexivity.
  - intro Hb. rewrite Hbud by discriminate.
    unfold fill_budget_band.
    destruct (dict_get (fill_family_size text (with_defaults d)) "budget_band") eqn:Ed;
      cbn [is_none]; try (rewrite Ed; discriminate).
    destruct (budget_from_text text); [|contradiction].
    rewrite dict_get_set_same. discriminate.
Qed.

(** X5.  The keyword rules hold of every dict [_enrich_from_text]
    returns: a family word in the text puts [family] into [usage] and
    leaves a [family_size] that is not [None]; an outdoor word puts
    [offroad] into [usage]; [offroad] in [usage], from the text or from
    the input, comes with a non-empty [body_type_preference]; a budget
    phrase leaves a [budget_band] that is not [None]. *)
Theorem enrich_applies_keywords (d : dict) (user_text : string) (d' : dict) :
  _enrich_from_text d user_text = Ok d' ->
  (family_words (Str.lower user_text) = true ->
     Spec.usage_includes d' "family" = true
     /\ dict_get d' "family_size" <> PNone)
  /\ (outdoor_words (Str.lower user_text) = true ->
     Spec.usage_includes d' "offroad" = true)
  /\ (Spec.usage_includes d' "offroad" = true ->
     truthy (dict_get d' "body_type_preference") = true)
  /\ (budget_from_text (Str.lower user_text) <> None ->
     dict_get d' "budget_band" <> PNone).
Proof. exact (enrich_keywords d user_text d'). Qed.

Lemma enrich_applies_keywords_witness :
  exists d',
    _enrich_from_text sparse_intent camping_text = Ok d'
    /\ (family_words (Str.lower camping_text) = true ->
          Spec.usage_includes d' "family" = true
          /\ dict_get d' "family_size" <> PNone)
    /\ (outdoor_words (Str.lower camping_text) = true ->
          Spec.usage_includes d' "offroad" = true)
    /\ (Spec.usage_includes d' "offroad" = true ->
          truthy (dict_get d' "body_type_preference") = true)
    /\ (budget_from_text (Str.lower camping_text) <> None ->
          dict_get d' "budget_band" <> PNone).
Proof.
  eexists. split; [vm_compute; reflexivity|].
  apply (enrich_applies_keywords sparse_intent camping_text).
  vm_compute. reflexivity.
Defined.

End EnrichFacts.

(* ------------------------------------------------------------------ *)
(** ** The intent that is returned *)

Module IntentFacts.
Import Parser ParserFacts SetFacts EnrichFacts Examples WalkthroughInputs.

Lemma dict_has_setdefault_inv d k v k' :
  dict_has (dict_setdefault d k v) k' = true -> dict_has d k' = true \/ k' = k.
Proof.
  unfold dict_setdefault. destruct (dict_has d k) eqn:E; [tauto|].
  rewrite dict_has_set. destruct (String.eqb k' k) eqn:Ek.
  - apply String.eqb_eq in Ek. tauto.
  - cbn. tauto.
Qed.

Lemma dict_get_setdefault_absent d k v :
  dict_has d k = false -> dict_get (dict_setdefault d k v) k = v.
Proof.
  intro H. unfold dict_setdefault. rewrite H. apply dict_get_set_same.
Qed.

Lemma dict_get_setdefault_other d k v k' :
  k' <> k -> dict_get (dict_setdefault d k v) k' = dict_get d k'.
Proof.
  intro H. unfold dict_setdefault. destruct (dict_has d k); [reflexivity|].
  apply dict_get_set_other, H.
Qed.

Lemma dict_has_setdefault_other d k v k' :
  k' <> k -> dict_has (dict_setdefault d k v) k' = dict_has d k'.
Proof.
  intro H. unfold dict_setdefault. destruct (dict_has d k); [reflexivity|].
  rewrite dict_has_set. apply String.eqb_neq in H. rewrite H. reflexivity.
Qed.

(** What the [setdefault] calls add. *)
Lemma with_defaults_absent d k :
  In k Spec.intent_fields -> dict_has d k = false ->
  dict_get (with_defaults d) k = dict_get required k.
Proof.
  intros Hk Hd. unfold with_defaults. cbn in Hk.
  destruct Hk as [<-|[<-|[<-|[<-|[<-|[<-|[]]]]]]].
  all: rewrite ?dict_get_setdefault_other by discriminate.
  all: rewrite dict_get_setdefault_absent; [reflexivity|].
  all: rewrite ?dict_has_setdefault_other by discriminate; exact Hd.
Qed.

Lemma with_defaults_has_inv d k :
  dict_has (with_defaults d) k = true ->
  dict_has d k = true \/ In k Spec.intent_fields.
Proof.
  unfold with_defaults. intro H.
  repeat (apply dict_has_setdefault_inv in H; destruct H as [H| ->];
          [|right; cbn; tauto]).
  left. exact H.
Qed.

(** X6.  [_normalize_shape] raises [RuntimeError] on everything that is
    not a dict.  On a dict it returns a dict with the six fields in which
    every key that was present keeps its value, an absent field has the
    default of [required], no other key appears, and which a second call
    returns unchanged. *)
Theorem normalize_shape_spec (parsed : pyval) :
  match _normalize_shape parsed with
  | Ok d' =>
      exists d,
        parsed = PDict d
        /\ Spec.all_fields_present d' = true
        /\ (forall k, dict_has d k = true -> dict_get d' k = dict_get d k)
        /\ (forall k, In k Spec.intent_fields -> dict_has d k = false ->
                      dict_get d' k = dict_get required k)
        /\ (forall k, dict_has d' k = true ->
                      dict_has d k = true \/ In k Spec.intent_fields)
        /\ _normalize_shape (PDict d') = Ok d'
  | Raise e => e = RuntimeError /\ forall d, parsed <> PDict d
  end.
Proof.
  destruct parsed; cbn [_normalize_shape]; try (split; [reflexivity | discriminate]).
  exists d. split; [reflexivity|]. split; [apply with_defaults_fields|].
  split; [intros k Hk; apply with_defaults_get, Hk|].
  split; [apply with_defaults_absent|].
  split; [apply with_defaults_has_inv|].
  rewrite (with_defaults_id (with_defaults d)); [reflexivity|].
  apply with_defaults_fields.
Qed.

Lemma heuristic_is_enrich t :
  _simple_heuristic_parse t = _enrich_from_text heuristic_seed t.
Proof. reflexivity. Qed.

Lemma heuristic_seed_defaults : with_defaults heuristic_seed = heuristic_seed.
Proof. reflexivity. Qed.

Lemma incl_add_if b x s V : In x V -> incl s V -> incl (add_if b x s) V.
Proof.
  intros Hx Hs y Hy. apply in_add_if in Hy. destruct Hy as [[_ ->]|Hy]; auto.
Qed.

Lemma usage_from_text_vocabulary text :
  incl (usage_from_text text []) ["family"; "city"; "offroad"].
Proof.
  unfold usage_from_text. cbv zeta.
  apply (incl_add_if _ "offroad"); [right; right; left; reflexivity|].
  apply (incl_add_if _ "city"); [right; left; reflexivity|].
  apply (incl_add_if _ "family"); [left; reflexivity|].
  intros ? [].
Qed.

Lemma prefs_from_text_vocabulary text :
  incl (prefs_from_text text [])
       ["ruggedness"; "comfort"; "safety"; "fuel_economy"; "performance";
        "reliability"].
Proof.
  unfold prefs_from_text. cbv zeta.
  apply (incl_add_if _ "reliability"); [do 5 right; left; reflexivity|].
  apply (incl_add_if _ "performance"); [do 4 right; left; reflexivity|].
  apply (incl_add_if _ "fuel_economy"); [do 3 right; left; reflexivity|].
  apply (incl_add_if _ "safety"); [do 2 right; left; reflexivity|].
  apply (incl_add_if _ "comfort"); [right; left; reflexivity|].
  apply (incl_add_if _ "ruggedness"); [left; reflexivity|].
  intros ? [].
Qed.

(** The heuristic pass, stage by stage. *)
Lemma heuristic_stages t d :
  _simple_heuristic_parse t = Ok d ->
  let text := Str.lower t in
  exists d1 d2,
    append_sedan text (fill_budget_band text (fill_family_size text heuristic_seed))
    = Ok d1
    /\ append_suv (usage_from_text text []) d1 = Ok d2
    /\ d = dict_set (dict_set d2 "usage"
                       (PList (map PStr (usage_from_text text []))))
             "preferences" (PList (map PStr (prefs_from_text text []))).
Proof.
  intro H. rewrite heuristic_is_enrich in H.
  destruct (enrich_stages _ _ _ H) as (u0 & p0 & d1 & d2 & Hu & Hp & H1 & H2 & E).
  rewrite heuristic_seed_defaults in Hu, Hp, H1.
  assert (Hu0 : u0 = []) by (vm_compute in Hu; congruence).
  assert (Hp0 : p0 = []) by (vm_compute in Hp; congruence).
  subst u0 p0. cbv zeta. eauto.
Qed.

Lemma heuristic_intent_cases user_text :
  exists d U P,
    _simple_heuristic_parse user_text = Ok d
    /\ In (dict_get d "family_size") [PNone; PInt 3; PInt 5]
    /\ In (dict_get d "budget_band") [PNone; PStr "low"; PStr "mid"; PStr "high"]
    /\ dict_get d "usage" = PList (map PStr U)
    /\ incl U ["family"; "city"; "offroad"]
    /\ dict_get d "preferences" = PList (map PStr P)
    /\ incl P ["ruggedness"; "comfort"; "safety"; "fuel_economy";
               "performance"; "reliability"]
    /\ In (dict_get d "body_type_preference")
          [PList []; PList [PStr "sedan"]; PList [PStr "suv"]]
    /\ dict_get d "other" = PDict [("heuristic", PBool true)].
Proof.
  destruct (heuristic_total user_text) as (d & H & _).
  pose proof H as Hrun. rewrite heuristic_is_enrich in Hrun.
  pose proof (enrich_get_scalar _ _ _ "family_size" Hrun) as Hfam.
  pose proof (enrich_get_scalar _ _ _ "budget_band" Hrun) as Hbud.
  pose proof (enrich_get_scalar _ _ _ "other" Hrun) as Hoth.
  rewrite heuristic_seed_defaults in Hfam, Hbud, Hoth.
  destruct (heuristic_stages _ _ H) as (d1 & d2 & H1 & H2 & E).
  set (text := Str.lower user_text) in *.
  exists d, (usage_from_text text []), (prefs_from_text text []).
  split; [exact H|].
  split.
  { rewrite Hfam by discriminate. rewrite fill_budget_other by discriminate.
    unfold fill_family_size.
    change (is_none (dict_get heuristic_seed "family_size")) with true.
    rewrite andb_true_r.
    destruct (family_words text).
    - rewrite dict_get_set_same. unfold family_size_default.
      destruct (_ || _); [right; left; reflexivity|].
      destruct (_ || _); [right; right; left; reflexivity | right; left; reflexivity].
    - left. reflexivity. }
  split.
  { rewrite Hbud by discriminate. unfold fill_budget_band.
    assert (Hn : dict_get (fill_family_size text heuristic_seed) "budget_band" = PNone)
      by (rewrite fill_family_other by discriminate; reflexivity).
    rewrite Hn. cbn [is_none].
    destruct (budget_from_text text) as [b|] eqn:Eb.
    - rewrite dict_get_set_same. unfold budget_from_text in Eb.
      destruct (Str.any_in _ text); [injection Eb as <-; right; right; left; reflexivity|].
      destruct (Str.any_in _ text); [injection Eb as <-; right; left; reflexivity|].
      destruct (Str.any_in _ text); [injection Eb as <-|discriminate].
      right; right; right; left; reflexivity.
    - rewrite Hn. left. reflexivity. }
  split.
  { rewrite E. rewrite dict_get_set_other by discriminate. apply dict_get_set_same. }
  split.
  { apply usage_from_text_vocabulary. }
  split.
  { rewrite E. apply dict_get_set_same. }
  split.
  { apply prefs_from_text_vocabulary. }
  split.
  { assert (Hb : dict_get d "body_type_preference" = dict_get d2 "body_type_preference").
    { rewrite E. rewrite !dict_get_set_other by discriminate. reflexivity. }
    rewrite Hb.
    assert (H0 : dict_get (fill_budget_band text (fill_family_size text heuristic_seed))
                   "body_type_preference" = PList []).
    { rewrite fill_budget_other, fill_family_other by discriminate. reflexivity. }
    unfold append_sedan in H1. rewrite H0 in H1.
    unfold append_suv in H2.
    destruct (Str.any_in _ text);
      cbn [py_contains_str existsb bind py_append app] in H1; injection H1 as <-.
    - rewrite dict_get_set_same in H2. cbn [truthy app negb] in H2.
      rewrite andb_false_r in H2.
      injection H2 as <-. rewrite dict_get_set_same. right; left; reflexivity.
    - rewrite H0 in H2. cbn [truthy negb] in H2. rewrite andb_true_r in H2.
      destruct (Str.mem _ _); cbn [py_append bind app] in H2; injection H2 as <-.
      + rewrite dict_get_set_same. right; right; left; reflexivity.
      + rewrite H0. left; reflexivity. }
  rewrite Hoth by discriminate.
  rewrite fill_budget_other, fill_family_other by discriminate. reflexivity.
Qed.

(** X7.  [_simple_heuristic_parse] never raises, and the intent it
    returns lies in a small range: [family_size] is [None], 3 or 5,
    [budget_band] is [None], [low], [mid] or [high], [usage] holds only
    [family], [city], [offroad], [preferences] only the six tags of the
    keyword rules, [body_type_preference] is empty, [[sedan]] or [[suv]],
    and [other] is [{"heuristic": True}]. *)
Theorem heuristic_intent_range (user_text : string) :
  exists d U P,
    _simple_heuristic_parse user_text = Ok d
    /\ In (dict_get d "family_size") [PNone; PInt 3; PInt 5]
    /\ In (dict_get d "budget_band") [PNone; PStr "low"; PStr "mid"; PStr "high"]
    /\ dict_get d "usage" = PList (map PStr U)
    /\ incl U ["family"; "city"; "offroad"]
    /\ dict_get d "preferences" = PList (map PStr P)
    /\ incl P ["ruggedness"; "comfort"; "safety"; "fuel_economy";
               "performance"; "reliability"]
    /\ In (dict_get d "body_type_preference")
          [PList []; PList [PStr "sedan"]; PList [PStr "suv"]]
    /\ dict_get d "other" = PDict [("heuristic", PBool true)].
Proof. exact (heuristic_intent_cases user_text). Qed.

(** Every path of [parse_user_needs] that returns ends in
    [_enrich_from_text]. *)
Lemma finish_enriched v t d :
  (parsed <- _normalize_shape v ;; _enrich_from_text parsed t) = Ok d ->
  exists d0, _enrich_from_text d0 t = Ok d.
Proof.
  destruct (_normalize_shape v) as [d0|e]; cbn [bind]; [eauto | discriminate].
Qed.

Lemma heuristic_enriched t d :
  _simple_heuristic_parse t = Ok d -> exists d0, _enrich_from_text d0 t = Ok d.
Proof. unfold _simple_heuristic_parse. apply finish_enriched. Qed.

Lemma on_parse_failure_enriched raw t d :
  on_parse_failure raw t = Ok d -> exists d0, _enrich_from_text d0 t = Ok d.
Proof.
  unfold on_parse_failure. destruct (_looks_truncated _); [|discriminate].
  apply heuristic_enriched.
Qed.

Lemma load_and_finish_enriched X raw jt t d :
  load_and_finish X raw jt t = Ok d -> exists d0, _enrich_from_text d0 t = Ok d.
Proof.
  unfold load_and_finish. destruct (_attempt_json_load X jt).
  - apply finish_enriched.
  - apply on_parse_failure_enriched.
Qed.

Lemma parse_user_needs_enriched X t d :
  parse_user_needs X t = Ok d -> exists d0, _enrich_from_text d0 t = Ok d.
Proof.
  unfold parse_user_needs.
  destruct (if _looks_truncated _ then _ else _) as [raw|];
    [|apply heuristic_enriched].
  destruct (String.eqb raw ""); [apply heuristic_enriched|].
  unfold parse_reply.
  destruct (match search_fence raw with Some g => Some g | None => _ end) eqn:Ej.
  - apply load_and_finish_enriched.
  - destruct (_attempt_json_load X (Some raw)) as [v|e] eqn:Ea.
    + destruct v; try (unfold load_and_finish; rewrite ?Ea; fail).
      all: try (intro H; apply load_and_finish_enriched in H; exact H).
      destruct (parsed <- _normalize_shape (PDict d0);; _enrich_from_text parsed t)
        eqn:Ef.
      * intros [= <-]. apply finish_enriched in Ef. exact Ef.
      * apply on_parse_failure_enriched.
    + apply on_parse_failure_enriched.
Qed.

(** X8.  Every intent [parse_user_needs] returns, from a reply of the
    model or from the heuristic pass, has gone through the enrichment with
    the user text: it has the six fields, [usage] and [preferences] are
    sorted duplicate-free lists of lower-case strings, enriching it again
    changes nothing, and a family word in the text shows in [usage] and
    [family_size] whatever the model replied. *)
Theorem parse_user_needs_intent (X : Externals) (user_text : string) (d : dict) :
  parse_user_needs X user_text = Ok d ->
  Spec.all_fields_present d = true
  /\ (exists U P,
        dict_get d "usage" = PList (map PStr U)
        /\ dict_get d "preferences" = PList (map PStr P)
        /\ is_string_set U /\ Forall is_lower U
        /\ is_string_set P /\ Forall is_lower P)
  /\ _enrich_from_text d user_text = Ok d
  /\ (family_words (Str.lower user_text) = true ->
      Spec.usage_includes d "family" = true
      /\ dict_get d "family_size" <> PNone).
Proof.
  intro H. destruct (parse_user_needs_enriched _ _ _ H) as [d0 H0].
  destruct (enrich_shape _ _ _ H0) as [Hf Hs].
  split; [exact Hf|]. split; [exact Hs|]. split.
  - apply (enrich_fixed_point _ _ _ H0).
  - apply (enrich_keywords _ _ _ H0).
Qed.

Lemma parse_user_needs_intent_witness :
  exists d,
    parse_user_needs (externals (always fenced_reply))
      "safe suv for camping with kids" = Ok d
    /\ Spec.all_fields_present d = true
    /\ (exists U P,
          dict_get d "usage" = PList (map PStr U)
          /\ dict_get d "preferences" = PList (map PStr P)
          /\ is_string_set U /\ Forall is_lower U
          /\ is_string_set P /\ Forall is_lower P)
    /\ _enrich_from_text d "safe suv for camping with kids" = Ok d
    /\ (family_words (Str.lower "safe suv for camping with kids") = true ->
        Spec.usage_includes d "family" = true
        /\ dict_get d "family_size" <> PNone).
Proof.
  eexists. split; [vm_compute; reflexivity|].
  apply (parse_user_needs_intent (externals (always fenced_reply))
           "safe suv for camping with kids").
  vm_compute. reflexivity.
Defined.

(** The reply is measured in characters: four Cyrillic letters take
    eight bytes and still look truncated, so the heuristic pass answers;
    a marker is found under the Kelvin sign as well. *)
Example short_reply_counts_characters :
  String.length Inputs.short_cyrillic_reply = 8%nat
  /\ Str.len Inputs.short_cyrillic_reply = 4%nat
  /\ _looks_truncated (Some Inputs.short_cyrillic_reply) = true
  /\ parse_user_needs (externals (always Inputs.short_cyrillic_reply))
       family_city_text
     = _simple_heuristic_parse family_city_text
  /\ _looks_truncated (Some Inputs.kelvin_marker_reply) = true.
Proof. repeat split. Qed.

End IntentFacts.

(* ------------------------------------------------------------------ *)
(** ** The balanced object and the trailing commas *)

Module ScannerFacts.
Import Parser WalkthroughInputs.

Lemma from_first_brace_split l t :
  from_first_brace l = Some t ->
  exists pre rest,
    l = (pre ++ t)%list /\ t = Str.lbrace :: rest /\ ~ In Str.lbrace pre.
Proof.
  induction l as [|c r IH]; cbn [from_first_brace]; [discriminate|].
  destruct (Ascii.eqb c Str.lbrace) eqn:E.
  - intros [= <-]. apply Ascii.eqb_eq in E. subst c.
    exists [], r. cbn. tauto.
  - intro H. destruct (IH H) as (pre & rest & -> & -> & Hn).
    exists (c :: pre), rest. split; [reflexivity|]. split; [reflexivity|].
    intros [->|Hin]; [|exact (Hn Hin)].
    rewrite Ascii.eqb_refl in E. discriminate.
Qed.

(** The scan does not look beyond the position it returns. *)
Lemma scan_balanced_prefix l : forall depth in_string esc n,
  scan_balanced depth in_string esc l = Some n ->
  scan_balanced depth in_string esc (firstn (S n) l) = Some n.
Proof.
  induction l as [|ch r IH]; intros depth in_string esc n; [discriminate|].
  cbn [scan_balanced firstn].
  set (ins := if (Ascii.eqb ch Str.dq && negb esc)%bool then negb in_string else in_string).
  set (e := (Ascii.eqb ch Str.backslash && negb esc)%bool).
  set (d := if Ascii.eqb ch Str.lbrace then depth + 1
            else if Ascii.eqb ch Str.rbrace then depth - 1 else depth).
  assert (Hrec : forall dd, option_map S (scan_balanced dd ins e r) = Some n ->
            option_map S (scan_balanced dd ins e (firstn n r)) = Some n).
  { intros dd H. destruct (scan_balanced dd ins e r) as [m|] eqn:Em; [|discriminate].
    injection H as <-. rewrite (IH _ _ _ _ Em). reflexivity. }
  destruct ins.
  - apply Hrec.
  - destruct (d =? 0).
    + intros [= <-]. reflexivity.
    + apply Hrec.
Qed.

(** At a depth of at least 1 the scan can only stop at a closing brace. *)
Lemma scan_balanced_closes l : forall depth in_string esc n,
  1 <= depth ->
  scan_balanced depth in_string esc l = Some n ->
  nth_error l n = Some Str.rbrace.
Proof.
  induction l as [|ch r IH]; intros depth in_string esc n Hd; [discriminate|].
  cbn [scan_balanced].
  set (ins := if (Ascii.eqb ch Str.dq && negb esc)%bool then negb in_string else in_string).
  set (e := (Ascii.eqb ch Str.backslash && negb esc)%bool).
  assert (Hrec : forall dd, 1 <= dd ->
            option_map S (scan_balanced dd ins e r) = Some n ->
            nth_error (ch :: r) n = Some Str.rbrace).
  { intros dd Hdd H. destruct (scan_balanced dd ins e r) as [m|] eqn:Em; [|discriminate].
    injection H as <-. cbn. apply (IH _ _ _ _ Hdd Em). }
  destruct ins.
  - apply Hrec, Hd.
  - destruct (Ascii.eqb ch Str.lbrace) eqn:El.
    + destruct (depth + 1 =? 0) eqn:E0; [lia|]. apply Hrec. lia.
    + destruct (Ascii.eqb ch Str.rbrace) eqn:Er.
      * destruct (depth - 1 =? 0) eqn:E0.
        -- intros [= <-]. apply Ascii.eqb_eq in Er. subst. reflexivity.
        -- apply Hrec. lia.
      * destruct (depth =? 0) eqn:E0; [lia|]. apply Hrec, Hd.
Qed.

Lemma scan_balanced_start rest n :
  scan_balanced 0 false false (Str.lbrace :: rest) = Some n ->
  exists m, n = S m /\ scan_balanced 1 false false rest = Some m.
Proof.
  cbn. destruct (scan_balanced 1 false false rest) as [m|]; [|discriminate].
  intros [= <-]. eauto.
Qed.

Lemma firstn_nth_snoc {A} (l : list A) n x :
  nth_error l n = Some x -> firstn (S n) l = (firstn n l ++ [x])%list.
Proof.
  revert n. induction l as [|a l IH]; intros [|n]; cbn; try discriminate.
  - intros [= ->]. reflexivity.
  - intro H. rewrite <- (IH n H). reflexivity.
Qed.

Lemma find_balanced_chars_result l r :
  find_balanced_chars l = Some r ->
  (exists pre post, l = (pre ++ r ++ post)%list /\ ~ In Str.lbrace pre)
  /\ (exists body, r = (Str.lbrace :: body ++ [Str.rbrace])%list)
  /\ find_balanced_chars r = Some r.
Proof.
  unfold find_balanced_chars.
  destruct (from_first_brace l) as [t|] eqn:Ef; [|discriminate].
  destruct (scan_balanced 0 false false t) as [n|] eqn:Es; [|discriminate].
  intros [= <-].
  destruct (from_first_brace_split _ _ Ef) as (pre & rest & -> & -> & Hpre).
  destruct (scan_balanced_start _ _ Es) as (m & -> & Hm).
  pose proof (scan_balanced_closes rest 1 false false m ltac:(lia) Hm) as Hlast.
  split; [|split].
  - exists pre, (skipn (S (S m)) (Str.lbrace :: rest)).
    split; [|exact Hpre]. f_equal. symmetry.
    exact (firstn_skipn (S (S m)) (Str.lbrace :: rest)).
  - exists (firstn m rest).
    change (firstn (S (S m)) (Str.lbrace :: rest))
      with (Str.lbrace :: firstn (S m) rest).
    rewrite (firstn_nth_snoc _ _ _ Hlast). reflexivity.
  - change (Str.lbrace :: firstn (S m) rest)
      with (firstn (S (S m)) (Str.lbrace :: rest)).
    assert (Hh : from_first_brace (firstn (S (S m)) (Str.lbrace :: rest))
                 = Some (firstn (S (S m)) (Str.lbrace :: rest))) by reflexivity.
    rewrite Hh, (scan_balanced_prefix _ _ _ _ _ Es).
    rewrite firstn_firstn, Nat.min_id. reflexivity.
Qed.

(** X9.  What [_find_first_balanced_json] returns is a piece of the
    text that starts at its first opening brace (no brace before it),
    begins with an opening and ends with a closing brace, and is its own
    first balanced object: the function returns it unchanged when applied
    to it. *)
Theorem find_first_balanced_json_result (s r : string) :
  _find_first_balanced_json s = Some r ->
  (exists pre post,
      Str.chars s = (pre ++ Str.chars r ++ post)%list /\ ~ In Str.lbrace pre)
  /\ (exists body, Str.chars r = (Str.lbrace :: body ++ [Str.rbrace])%list)
  /\ _find_first_balanced_json r = Some r.
Proof.
  unfold _find_first_balanced_json.
  destruct (find_balanced_chars (Str.chars s)) as [l|] eqn:E; [|discriminate].
  intros [= <-]. rewrite StrFacts.chars_of_chars.
  destruct (find_balanced_chars_result _ _ E) as (H1 & H2 & H3).
  rewrite H3. tauto.
Qed.

Lemma find_first_balanced_json_result_witness :
  exists r,
    _find_first_balanced_json tricky_text = Some r
    /\ (exists pre post,
          Str.chars tricky_text = (pre ++ Str.chars r ++ post)%list
          /\ ~ In Str.lbrace pre)
    /\ (exists body, Str.chars r = (Str.lbrace :: body ++ [Str.rbrace])%list)
    /\ _find_first_balanced_json r = Some r.
Proof.
  eexists. split; [vm_compute; reflexivity|].
  apply (find_first_balanced_json_result tricky_text).
  vm_compute. reflexivity.
Defined.







End ScannerFacts.

(* ------------------------------------------------------------------ *)
(** ** The scoring loop *)

Module ScoringFacts.
Import Matcher Reason Spec RankingFacts Examples WalkthroughInputs Inputs.

(** When [(x or "").lower()] and [for u in (x or [])] go through. *)
Lemma or_empty_lower_ok v :
  str_or_falsy v = true -> exists s, or_empty_lower v = Ok s.
Proof.
  unfold or_empty_lower, py_or, str_or_falsy.
  destruct v as [|b|z|q|s|l|d]; cbn [truthy]; intro H;
    try (apply negb_true_iff in H; cbn [truthy] in H; rewrite H; eauto).
  - cbn. eauto.
  - destruct (negb (String.eqb s "")); eauto.
Qed.

Lemma or_empty_lower_raises v :
  str_or_falsy v = false -> or_empty_lower v = Raise AttributeError.
Proof.
  unfold or_empty_lower, py_or, str_or_falsy.
  destruct v as [|b|z|q|s|l|d]; cbn [truthy]; intro H; try discriminate;
    apply negb_false_iff in H; cbn [truthy] in H; rewrite H; reflexivity.
Qed.

Lemma iter_or_empty_ok v :
  iterable_or_falsy v = true -> exists l, py_iter (py_or v (PList [])) = Ok l.
Proof.
  unfold iterable_or_falsy, py_or.
  destruct v as [|b|z|q|s|l|d]; cbn [iterable orb truthy]; intro H;
    try (apply negb_true_iff in H; cbn [truthy] in H; rewrite H; cbn; eauto).
  - cbn. eauto.
  - destruct (negb (String.eqb s "")); cbn; eauto.
  - destruct l; cbn; eauto.
  - destruct d; cbn; eauto.
Qed.

Lemma iter_or_empty_raises v :
  iterable_or_falsy v = false -> py_iter (py_or v (PList [])) = Raise TypeError.
Proof.
  unfold iterable_or_falsy, py_or.
  destruct v as [|b|z|q|s|l|d]; cbn [iterable orb truthy]; intro H;
    try discriminate;
    apply negb_false_iff in H; cbn [truthy] in H; rewrite H; reflexivity.
Qed.

Lemma year_bonus_range v : (0 <= year_bonus v <= 30)%Q.
Proof.
  unfold year_bonus. destruct (truthy v); [|split; discriminate].
  destruct (py_int v); [|split; discriminate].
  repeat match goal with |- context [if ?b then _ else _] => destruct b end;
    split; discriminate.
Qed.

Lemma km_bonus_range v : (0 <= km_bonus v <= 25)%Q.
Proof.
  unfold km_bonus. destruct (truthy v); [|split; discriminate].
  destruct (py_int v); [|split; discriminate].
  repeat match goal with |- context [if ?b then _ else _] => destruct b end;
    split; discriminate.
Qed.

Lemma fuel_bonus_range s : (0 <= fuel_bonus s <= 30)%Q.
Proof.
  unfold fuel_bonus.
  repeat match goal with |- context [if ?b then _ else _] => destruct b end;
    split; discriminate.
Qed.

Lemma heuristic_boost_cases parsed meta :
  match _heuristic_boost parsed meta with
  | Ok q => (0 <= q <= 100)%Q
            /\ str_or_falsy (dict_get meta "fuel") = true
            /\ str_or_falsy (dict_get parsed "budget_band") = true
            /\ str_or_falsy (dict_get meta "price_band") = true
  | Raise e => e = AttributeError
               /\ (str_or_falsy (dict_get meta "fuel") = false
                   \/ str_or_falsy (dict_get parsed "budget_band") = false
                   \/ str_or_falsy (dict_get meta "price_band") = false)
  end.
Proof.
  unfold _heuristic_boost.
  destruct (str_or_falsy (dict_get meta "fuel")) eqn:E1.
  2:{ rewrite (or_empty_lower_raises _ E1). cbn. tauto. }
  destruct (or_empty_lower_ok _ E1) as [fuel ->]. cbn [bind].
  destruct (str_or_falsy (dict_get parsed "budget_band")) eqn:E2.
  2:{ rewrite (or_empty_lower_raises _ E2). cbn. tauto. }
  destruct (or_empty_lower_ok _ E2) as [ub ->]. cbn [bind].
  destruct (str_or_falsy (dict_get meta "price_band")) eqn:E3.
  2:{ rewrite (or_empty_lower_raises _ E3). cbn. tauto. }
  destruct (or_empty_lower_ok _ E3) as [cb ->]. cbn [bind].
  split; [|tauto].
  pose proof (year_bonus_range (dict_get meta "year")).
  pose proof (km_bonus_range (dict_get meta "km_driven")).
  pose proof (fuel_bonus_range fuel).
  destruct (_ && _ && _); unfold py_min; qcases; split; lra.
Qed.

(** X11.  [_heuristic_boost] returns a value between 0 and 100 when the
    [fuel] and [price_band] of the metadata and the [budget_band] of the
    intent are strings or falsy; otherwise, and only then, it raises, and
    what it raises is [AttributeError] (from [.lower()]).  Ill-typed
    [year] and [km_driven] never make it raise. *)
Theorem heuristic_boost_spec (parsed metadata : dict) :
  match _heuristic_boost parsed metadata with
  | Ok q => (0 <= q <= 100)%Q
            /\ str_or_falsy (dict_get metadata "fuel") = true
            /\ str_or_falsy (dict_get parsed "budget_band") = true
            /\ str_or_falsy (dict_get metadata "price_band") = true
  | Raise e => e = AttributeError
               /\ (str_or_falsy (dict_get metadata "fuel") = false
                   \/ str_or_falsy (dict_get parsed "budget_band") = false
                   \/ str_or_falsy (dict_get metadata "price_band") = false)
  end.
Proof. exact (heuristic_boost_cases parsed metadata). Qed.

(** [_persona_match_score]: its range and its two ways to raise. *)
Lemma persona_match_cases X parsed meta :
  match _persona_match_score X parsed meta with
  | Ok q => (0 <= q <= 300)%Q
            /\ str_or_falsy (dict_get meta "body_type") = true
            /\ iterable_or_falsy (dict_get parsed "usage") = true
  | Raise e =>
      (e = AttributeError /\ str_or_falsy (dict_get meta "body_type") = false)
      \/ (e = TypeError /\ iterable_or_falsy (dict_get parsed "usage") = false)
  end.
Proof.
  unfold _persona_match_score.
  destruct (str_or_falsy (dict_get meta "body_type")) eqn:E1.
  2:{ rewrite (or_empty_lower_raises _ E1).
      repeat match goal with |- context [if ?b then _ else _] => destruct b end;
        cbn; tauto. }
  destruct (or_empty_lower_ok _ E1) as [body ->]. cbn [bind].
  destruct (iterable_or_falsy (dict_get parsed "usage")) eqn:E2.
  2:{ rewrite (iter_or_empty_raises _ E2). cbn [bind].
      repeat match goal with |- context [if ?b then _ else _] => destruct b end;
        cbn; tauto. }
  destruct (iter_or_empty_ok _ E2) as [items ->]. cbn [bind].
  repeat match goal with |- context [if ?b then _ else _] => destruct b end;
    cbn; (split; [split; discriminate | tauto]).
Qed.

Lemma build_match_cases X parsed c :
  match build_match X parsed c with
  | Ok m => scorable_intent parsed = true
            /\ scorable_metadata (cand_metadata c) = true
  | Raise e => (e = AttributeError \/ e = TypeError)
               /\ (scorable_intent parsed = false
                   \/ scorable_metadata (cand_metadata c) = false)
  end.
Proof.
  unfold build_match, scorable_intent, scorable_metadata.
  pose proof (persona_match_cases X parsed (cand_metadata c)) as Hp.
  pose proof (heuristic_boost_cases parsed (cand_metadata c)) as Hh.
  destruct (_persona_match_score X parsed (cand_metadata c)) as [ps|e]; cbn [bind].
  - destruct Hp as (_ & -> & ->).
    destruct (_heuristic_boost parsed (cand_metadata c)) as [h|e]; cbn [bind].
    + destruct Hh as (_ & -> & -> & ->). split; reflexivity.
    + destruct Hh as (-> & [-> | [-> | ->]]); split; auto;
        rewrite ?andb_false_r; auto.
  - destruct Hp as [(-> & ->) | (-> & ->)]; split; auto.
Qed.

(** The scoring loop raises at the first candidate it cannot score. *)
Lemma build_matches_cases X parsed candidates :
  match build_matches X parsed candidates with
  | Ok results =>
      candidates = []
      \/ (scorable_intent parsed = true
          /\ Forall (fun c => scorable_metadata (cand_metadata c) = true)
                    candidates)
  | Raise e =>
      (e = AttributeError \/ e = TypeError)
      /\ candidates <> []
      /\ (scorable_intent parsed = false
          \/ Exists (fun c => scorable_metadata (cand_metadata c) = false)
                    candidates)
  end.
Proof.
  induction candidates as [|c r IH]; cbn [build_matches]; [left; reflexivity|].
  pose proof (build_match_cases X parsed c) as Hc.
  destruct (build_match X parsed c) as [m|e]; cbn [bind].
  - destruct Hc as [Hi Hm].
    destruct (build_matches X parsed r) as [ms|e]; cbn [bind].
    + right. split; [exact Hi|]. constructor; [exact Hm|].
      destruct IH as [-> | [_ H]]; [constructor | exact H].
    + destruct IH as (He & _ & [H|H]).
      * split; [exact He|]. split; [discriminate|]. left. exact H.
      * split; [exact He|]. split; [discriminate|]. right.
        apply Exists_cons_tl, H.
  - destruct Hc as (He & [H|H]).
    + split; [exact He|]. split; [discriminate|]. left. exact H.
    + split; [exact He|]. split; [discriminate|]. right.
      apply Exists_cons_hd, H.
Qed.

Lemma score_candidates_raise X parsed persona candidates user_text top_k e :
  score_candidates X parsed persona candidates user_text top_k = Raise e ->
  build_matches X parsed candidates = Raise e.
Proof.
  intro H. destruct (build_matches X parsed candidates) as [results|e'] eqn:Eb.
  - destruct (score_candidates_returns X parsed persona candidates user_text
                top_k results Eb) as [ms Hms]. congruence.
  - unfold score_candidates in H. rewrite Eb in H. exact H.
Qed.

(** X12.  [score_candidates] returns exactly when the scoring loop can
    score every candidate: the list is empty, or [usage] of the intent is
    iterable or falsy, its [budget_band] a string or falsy, and
    [body_type], [fuel] and [price_band] of every candidate's metadata
    are strings or falsy.  Otherwise it raises [AttributeError] or
    [TypeError]; [top_k] and the replies of the model play no part in
    this. *)
Theorem score_candidates_outcome (X : Externals) (parsed : dict)
    (persona : Persona) (candidates : list Candidate) (user_text : string)
    (top_k : Z) :
  match score_candidates X parsed persona candidates user_text top_k with
  | Ok ms =>
      candidates = []
      \/ (scorable_intent parsed = true
          /\ Forall (fun c => scorable_metadata (cand_metadata c) = true)
                    candidates)
  | Raise e =>
      (e = AttributeError \/ e = TypeError)
      /\ candidates <> []
      /\ (scorable_intent parsed = false
          \/ Exists (fun c => scorable_metadata (cand_metadata c) = false)
                    candidates)
  end.
Proof.
  pose proof (build_matches_cases X parsed candidates) as Hb.
  destruct (score_candidates X parsed persona candidates user_text top_k)
    as [ms|e] eqn:Es.
  - destruct (score_candidates_run _ _ _ _ _ _ _ Es) as (results & rb & Hr & _).
    rewrite Hr in Hb. exact Hb.
  - rewrite (score_candidates_raise _ _ _ _ _ _ _ Es) in Hb. exact Hb.
Qed.

Lemma in_skipn {A} (x : A) n l : In x (skipn n l) -> In x l.
Proof.
  revert l. induction n as [|n IH]; intros [|a l]; cbn; auto.
Qed.

(** In a sorted list nothing behind a cut is larger than anything before
    it. *)
Lemma descending_split l n :
  descending l ->
  forall m r, In m (firstn n l) -> In r (skipn n l) ->
              match_score r <= match_score m.
Proof.
  unfold descending. intro H. revert n.
  induction H as [|a l Hl IH Ha]; intros n m r Hm Hr.
  - rewrite firstn_nil in Hm. destruct Hm.
  - destruct n as [|n]; [destruct Hm|]. cbn in Hm, Hr.
    destruct Hm as [<-|Hm].
    + rewrite Forall_forall in Ha. apply Ha.
      apply (in_skipn _ n), Hr.
    + apply (IH n); assumption.
Qed.

Lemma Forall2_in_r {A B} (R : A -> B -> Prop) l l' b :
  Forall2 R l l' -> In b l' -> exists a, In a l /\ R a b.
Proof.
  induction 1 as [|x y l l' Hxy _ IH]; intros Hin; [destruct Hin|].
  destruct Hin as [<-|Hin].
  - exists x. split; [left; reflexivity | exact Hxy].
  - destruct (IH Hin) as (a & Ha & HR). exists a. split; [right|]; assumption.
Qed.

Lemma build_matches_length X parsed candidates results :
  build_matches X parsed candidates = Ok results ->
  List.length results = List.length candidates.
Proof.
  intro H. symmetry.
  apply (Forall2_length_eq _ _ _ (build_matches_fresh _ _ _ _ H)).
Qed.

Lemma score_candidates_length X parsed persona candidates user_text top_k ms :
  0 <= top_k ->
  score_candidates X parsed persona candidates user_text top_k = Ok ms ->
  List.length ms = Nat.min (Z.to_nat top_k) (List.length candidates).
Proof.
  intros Hk H.
  destruct (score_candidates_run _ _ _ _ _ _ _ H) as (results & rb & Hb & Hf & _ & Hr).
  rewrite (slice_to_nonneg _ _ Hk) in Hr.
  rewrite <- (Forall2_length_eq _ _ _ Hr), length_firstn.
  rewrite (Permutation_length (sort_desc_perm results)).
  rewrite (build_matches_length _ _ _ _ Hb). reflexivity.
Qed.

(** X13.  For [top_k >= 0], [score_candidates] returns exactly
    [min(top_k, len(candidates))] matches, and they are the best ones:
    the matches the scoring loop built split into the returned ones (each
    returned with its one reason in place of the empty list) and the
    rest, and no match of the rest has a higher score than a returned
    one. *)
Theorem score_candidates_selects_top (X : Externals) (parsed : dict)
    (persona : Persona) (candidates : list Candidate) (user_text : string)
    (top_k : Z) (ms : list dict) :
  0 <= top_k ->
  score_candidates X parsed persona candidates user_text top_k = Ok ms ->
  List.length ms = Nat.min (Z.to_nat top_k) (List.length candidates)
  /\ exists results top rest,
       build_matches X parsed candidates = Ok results
       /\ Permutation results (top ++ rest)
       /\ Forall2 (fun r m =>
                     exists s, m = dict_set r "reasons" (PList [PStr s]))
                  top ms
       /\ (forall m r, In m ms -> In r rest ->
                       match_score r <= match_score m).
Proof.
  intros Hk H.
  destruct (score_candidates_run _ _ _ _ _ _ _ H) as (results & rb & Hb & Hf & _ & Hr).
  rewrite (slice_to_nonneg _ _ Hk) in Hr.
  set (n := Z.to_nat top_k) in *.
  split.
  - apply (score_candidates_length _ _ _ _ _ _ _ Hk H).
  - exists results, (firstn n (sort_desc results)), (skipn n (sort_desc results)).
    split; [exact Hb|]. split; [|split].
    + rewrite firstn_skipn. symmetry. apply sort_desc_perm.
    + revert Hr. apply Forall2_impl. intros r m (s & Hm & _). eauto.
    + intros m r Hm Hin.
      destruct (Forall2_in_r _ _ _ _ Hr Hm) as (r0 & Hr0 & Hrm).
      rewrite (reasoned_score _ _ _ _ _ _ Hrm).
      apply (descending_split _ n (sort_desc_sorted results) _ _ Hr0 Hin).
Qed.

Lemma score_candidates_selects_top_witness :
  0 <= 2
  /\ exists ms,
       score_candidates (externals silent) [] general_driver tied_cars
         "any car" 2 = Ok ms
       /\ List.length ms = Nat.min (Z.to_nat 2) (List.length tied_cars)
       /\ exists results top rest,
            build_matches (externals silent) [] tied_cars = Ok results
            /\ Permutation results (top ++ rest)
            /\ Forall2 (fun r m =>
                          exists s, m = dict_set r "reasons" (PList [PStr s]))
                       top ms
            /\ (forall m r, In m ms -> In r rest ->
                            match_score r <= match_score m).
Proof.
  assert (H2 : 0 <= 2) by (vm_compute; discriminate).
  split; [exact H2|].
  eexists. split; [vm_compute; reflexivity|].
  apply (score_candidates_selects_top (externals silent) [] general_driver
           tied_cars "any car" 2 _ H2).
  vm_compute. reflexivity.
Defined.

Lemma persona_match_range X parsed meta q :
  _persona_match_score X parsed meta = Ok q -> (0 <= q <= 300)%Q.
Proof.
  intro H. pose proof (persona_match_cases X parsed meta) as Hc.
  rewrite H in Hc. tauto.
Qed.

(** X14.  What [_persona_match_score] returns lies between 0 and 300;
    the bound 300 is met (three usage mappings fire, one check is
    counted). *)
Theorem persona_match_score_range (X : Externals) (parsed metadata : dict)
    (q : Q) :
  _persona_match_score X parsed metadata = Ok q -> (0 <= q <= 300)%Q.
Proof. exact (persona_match_range X parsed metadata q). Qed.

Lemma persona_match_score_range_witness :
  _persona_match_score (externals silent) all_round_intent compact_suv
  = Ok (300 # 1)%Q
  /\ (0 <= 300 # 1 <= 300)%Q.
Proof.
  split; [vm_compute; reflexivity|].
  apply (persona_match_score_range (externals silent) all_round_intent
           compact_suv).
  vm_compute. reflexivity.
Defined.

Lemma py_round_cases x :
  py_round x = Qfloor x \/ py_round x = Qfloor x + 1.
Proof.
  unfold py_round. cbv zeta.
  destruct (Qltb _ _); [tauto|]. destruct (Qltb _ _); [tauto|].
  destruct (Z.even _); tauto.
Qed.

(** Rounding to nearest, ties to even, is monotone. *)
Lemma py_round_mono x y : (x <= y)%Q -> py_round x <= py_round y.
Proof.
  intro H. pose proof (Qfloor_resp_le _ _ H) as Hf.
  destruct (Z.eq_dec (Qfloor x) (Qfloor y)) as [E|N].
  - unfold py_round. cbv zeta. rewrite <- E.
    set (f := Qfloor x) in *.
    destruct (Qltb (x - inject_Z f) (1 # 2)) eqn:E1.
    + destruct (Qltb (y - inject_Z f) (1 # 2)); [lia|].
      destruct (Qltb (1 # 2) (y - inject_Z f)); [lia|].
      destruct (Z.even f); lia.
    + apply Qltb_false in E1.
      destruct (Qltb (y - inject_Z f) (1 # 2)) eqn:E2.
      { apply Qltb_true in E2. lra. }
      destruct (Qltb (1 # 2) (x - inject_Z f)) eqn:E3.
      * apply Qltb_true in E3.
        destruct (Qltb (1 # 2) (y - inject_Z f)) eqn:E4; [lia|].
        apply Qltb_false in E4. lra.
      * destruct (Qltb (1 # 2) (y - inject_Z f)); [destruct (Z.even f); lia|].
        lia.
  - destruct (py_round_cases x) as [-> | ->], (py_round_cases y) as [-> | ->]; lia.
Qed.

Lemma normalize_similarity_mono s1 s2 :
  (s1 <= s2)%Q -> (s2 <= 2)%Q ->
  (_normalize_similarity s1 <= _normalize_similarity s2)%Q.
Proof.
  intros H H2. unfold _normalize_similarity. cbv zeta.
  destruct (Qltb s1 0) eqn:E1; [apply Qltb_true in E1 | apply Qltb_false in E1];
  (destruct (Qltb s2 0) eqn:E2; [apply Qltb_true in E2 | apply Qltb_false in E2]).
  all: repeat match goal with
       | |- context [if Qltb 2 ?a then _ else _] =>
           let E := fresh "E" in
           destruct (Qltb 2 a) eqn:E;
           [apply Qltb_true in E; try lra | apply Qltb_false in E]
       end.
  all: unfold py_min; qcases; unfold py_max; qcases; lra.
Qed.

Lemma final_score_mono a1 a2 b c :
  (a1 <= a2)%Q -> (final_score a1 b c <= final_score a2 b c)%Q.
Proof.
  intro H. unfold final_score. cbv zeta.
  unfold py_min; qcases; unfold py_max; qcases; lra.
Qed.

Lemma build_match_score X parsed c m :
  build_match X parsed c = Ok m ->
  exists ps h,
    _persona_match_score X parsed (cand_metadata c) = Ok ps
    /\ _heuristic_boost parsed (cand_metadata c) = Ok h
    /\ match_score m
       = py_round (final_score (_normalize_similarity (cand_score c)) ps h)
    /\ dict_get m "name" = _safe_get_name (cand_metadata c) (cand_id c)
    /\ dict_get m "id" = PStr (cand_id c).
Proof.
  unfold build_match.
  destruct (_persona_match_score X parsed (cand_metadata c)) as [ps|]; [|discriminate].
  destruct (_heuristic_boost parsed (cand_metadata c)) as [h|]; [|discriminate].
  cbn [bind]. intros [= <-]. exists ps, h. repeat split.
Qed.

(** X15.  With the same intent and metadata, a candidate of higher
    similarity never gets a lower score, as long as the similarities are
    at most 2 (above 2 the normalisation takes [1 / (1 + s)], and the
    order is lost: [similarity_above_two_drops]). *)
Theorem score_monotone_in_similarity (X : Externals) (parsed : dict)
    (c1 c2 : Candidate) (m1 m2 : dict) :
  cand_metadata c1 = cand_metadata c2 ->
  (cand_score c1 <= cand_score c2)%Q -> (cand_score c2 <= 2)%Q ->
  build_match X parsed c1 = Ok m1 ->
  build_match X parsed c2 = Ok m2 ->
  match_score m1 <= match_score m2.
Proof.
  intros Hm Hs H2 B1 B2.
  destruct (build_match_score _ _ _ _ B1) as (ps1 & h1 & P1 & H1 & -> & _).
  destruct (build_match_score _ _ _ _ B2) as (ps2 & h2 & P2 & H2' & -> & _).
  rewrite Hm in P1, H1. rewrite P1 in P2. rewrite H1 in H2'.
  injection P2 as <-. injection H2' as <-.
  apply py_round_mono, final_score_mono, normalize_similarity_mono; assumption.
Qed.

Lemma score_monotone_in_similarity_witness :
  cand_metadata (near (1 # 2)) = cand_metadata (near (9 # 10))
  /\ (cand_score (near (1 # 2)) <= cand_score (near (9 # 10)))%Q
  /\ (cand_score (near (9 # 10)) <= 2)%Q
  /\ exists m1 m2,
       build_match (externals silent) [] (near (1 # 2)) = Ok m1
       /\ build_match (externals silent) [] (near (9 # 10)) = Ok m2
       /\ match_score m1 <= match_score m2.
Proof.
  assert (H1 : (cand_score (near (1 # 2)) <= cand_score (near (9 # 10)))%Q)
    by (vm_compute; discriminate).
  assert (H2 : (cand_score (near (9 # 10)) <= 2)%Q)
    by (vm_compute; discriminate).
  split; [reflexivity|]. split; [exact H1|]. split; [exact H2|].
  eexists _, _. split; [vm_compute; reflexivity|].
  split; [vm_compute; reflexivity|].
  apply (score_monotone_in_similarity (externals silent) []
           (near (1 # 2)) (near (9 # 10)) _ _ eq_refl H1 H2);
    vm_compute; reflexivity.
Defined.

(** Beyond 2 the order is lost: similarity 2 scores 100, similarity 3
    scores 38. *)
Example similarity_above_two_drops :
  exists m1 m2,
    build_match (externals silent) [] (near 2) = Ok m1
    /\ build_match (externals silent) [] (near 3) = Ok m2
    /\ match_score m1 = 100 /\ match_score m2 = 38.
Proof. eexists _, _. repeat split. Qed.

Lemma safe_get_name_truthy meta cid : truthy (_safe_get_name meta cid) = true.
Proof.
  unfold _safe_get_name, py_or.
  repeat match goal with
         | |- context [if truthy ?v then _ else _] =>
             let E := fresh "E" in destruct (truthy v) eqn:E
         end; try assumption; reflexivity.
Qed.

Lemma build_matches_each X parsed candidates results :
  build_matches X parsed candidates = Ok results ->
  Forall2 (fun c m => build_match X parsed c = Ok m) candidates results.
Proof.
  revert results. induction candidates as [|c r IH]; cbn [build_matches]; intro results.
  - intros [= <-]. constructor.
  - destruct (build_match X parsed c) as [m|] eqn:Em; [|discriminate].
    destruct (build_matches X parsed r) as [ms|]; [|discriminate].
    cbn [bind]. intros [= <-]. constructor; [exact Em | apply IH; reflexivity].
Qed.

(** X16.  Every match [score_candidates] returns carries the id of one
    of the candidates and the name [_safe_get_name] picks for it, which
    is never empty or [None]: the chain of [or] ends in ["Unknown"]. *)
Theorem score_candidates_names (X : Externals) (parsed : dict)
    (persona : Persona) (candidates : list Candidate) (user_text : string)
    (top_k : Z) (ms : list dict) :
  score_candidates X parsed persona candidates user_text top_k = Ok ms ->
  Forall (fun m =>
            exists c, In c candidates
                      /\ dict_get m "id" = PStr (cand_id c)
                      /\ dict_get m "name"
                         = _safe_get_name (cand_metadata c) (cand_id c)
                      /\ truthy (dict_get m "name") = true) ms.
Proof.
  intro H.
  destruct (score_candidates_run _ _ _ _ _ _ _ H) as (results & rb & Hb & _ & _ & Hr).
  pose proof (build_matches_each _ _ _ _ Hb) as He.
  assert (Hres : Forall (fun r => exists c, In c candidates
                   /\ build_match X parsed c = Ok r) results).
  { clear - He. induction He as [|c m cs ms' Hcm _ IH]; constructor.
    - exists c. split; [left; reflexivity | exact Hcm].
    - rewrite Forall_forall in IH |- *. intros r Hx.
      destruct (IH r Hx) as (c' & Hin & Hc'). exists c'. split; [right|]; assumption. }
  assert (Htop : Forall (fun r => exists c, In c candidates
                   /\ build_match X parsed c = Ok r)
                   (slice_to (sort_desc results) top_k)).
  { rewrite Forall_forall in Hres |- *. intros r Hx.
    apply Hres, (slice_sorted_in _ _ _ Hx). }
  apply (Forall2_Forall_r _ _ _ _ _ Hr Htop).
  intros r m (c & Hin & Hc) Hrm. exists c.
  destruct (build_match_score _ _ _ _ Hc) as (_ & _ & _ & _ & _ & Hn & Hi).
  rewrite (reasoned_get _ _ _ _ _ _ "id" Hrm) by discriminate.
  rewrite (reasoned_get _ _ _ _ _ _ "name" Hrm) by discriminate.
  rewrite Hn, Hi. repeat split; [exact Hin | apply safe_get_name_truthy].
Qed.

Lemma score_candidates_names_witness :
  exists ms,
    score_candidates (externals silent) [] general_driver two_cars
      "any car" 3 = Ok ms
    /\ Forall (fun m =>
                 exists c, In c two_cars
                           /\ dict_get m "id" = PStr (cand_id c)
                           /\ dict_get m "name"
                              = _safe_get_name (cand_metadata c) (cand_id c)
                           /\ truthy (dict_get m "name") = true) ms.
Proof.
  eexists. split; [vm_compute; reflexivity|].
  apply (score_candidates_names (externals silent) [] general_driver
           two_cars "any car" 3).
  vm_compute. reflexivity.
Defined.

End ScoringFacts.

(* ------------------------------------------------------------------ *)
(** ** The sentences *)

Module SentenceFacts.
Import Matcher Reason Spec RankingFacts Examples ScoringFacts.

Lemma for_both_spec f : for_both f = true -> forall b, f b = true.
Proof.
  unfold for_both. intros H b. apply andb_true_iff in H.
  destruct b; tauto.
Qed.

Lemma well_formed_reasonb_spec s :
  well_formed_reasonb s = true -> well_formed_reason s.
Proof.
  unfold well_formed_reasonb, well_formed_reason. intro H.
  apply andb_true_iff in H. destruct H as [H H3].
  apply andb_true_iff in H. destruct H as [H1 H2].
  split; [|split].
  - intros ->. discriminate.
  - apply Nat.leb_le, H2.
  - exact H3.
Qed.

(** The sentence is well formed for each of the 1024 outcomes of the ten
    tests. *)
Lemma probes_checked :
  for_both (fun comfort => for_both (fun economy => for_both (fun family =>
  for_both (fun safety => for_both (fun park => for_both (fun suv =>
  for_both (fun sedan => for_both (fun hybrid => for_both (fun seats =>
  for_both (fun recent =>
    well_formed_reasonb
      (sentence_of_bits
         (fallback_bits (probe_persona comfort economy family safety park)
            (probe_body suv sedan) (probe_fuel hybrid) (probe_seats seats)
            recent)))))))))))) = true.
Proof. vm_compute. reflexivity. Qed.

Lemma probe_persona_tests comfort economy family safety park :
  let needs := primary_needs (probe_persona comfort economy family safety park) in
  Str.mem "comfort" needs = comfort
  /\ Str.mem "fuel_economy" needs = economy
  /\ Str.mem "space" needs = family
  /\ Str.mem "safety" needs = safety
  /\ Str.mem "easy_to_park" needs = park.
Proof.
  destruct comfort, economy, family, safety, park; cbv; repeat split.
Qed.

(** [fallback_bits] depends on its arguments through the ten tests
    only. *)
Lemma fallback_bits_probe persona body fuel seats recent :
  fallback_bits persona body fuel seats recent
  = fallback_bits
      (probe_persona
         (Str.mem "comfort" (primary_needs persona))
         (Str.mem "fuel_economy" (primary_needs persona))
         (Str.mem "space" (primary_needs persona)
          || Str.contains "family" (Str.lower (label persona)))
         (Str.mem "safety" (primary_needs persona))
         (Str.mem "easy_to_park" (primary_needs persona)))
      (probe_body (String.eqb body "suv") (String.eqb body "sedan"))
      (probe_fuel (Str.contains "hybrid" fuel))
      (probe_seats (truthy seats))
      recent.
Proof.
  set (comfort := Str.mem "comfort" (primary_needs persona)).
  set (economy := Str.mem "fuel_economy" (primary_needs persona)).
  set (family := Str.mem "space" (primary_needs persona)
                 || Str.contains "family" (Str.lower (label persona))).
  set (safety := Str.mem "safety" (primary_needs persona)).
  set (park := Str.mem "easy_to_park" (primary_needs persona)).
  unfold fallback_bits.
  destruct (probe_persona_tests comfort economy family safety park)
    as (-> & -> & -> & -> & ->).
  fold comfort economy family safety park.
  change (Str.contains "family"
            (Str.lower (label (probe_persona comfort economy family safety park))))
    with false.
  rewrite orb_false_r.
  assert (Hf : Str.contains "hybrid" (probe_fuel (Str.contains "hybrid" fuel))
               = Str.contains "hybrid" fuel)
    by (destruct (Str.contains "hybrid" fuel); reflexivity).
  assert (Hs : truthy (probe_seats (truthy seats)) = truthy seats)
    by (destruct (truthy seats); reflexivity).
  rewrite Hf, Hs.
  destruct (String.eqb body "suv"), (String.eqb body "sedan"); reflexivity.
Qed.

Lemma probes_all comfort economy family safety park suv sedan hybrid seats recent :
  well_formed_reasonb
    (sentence_of_bits
       (fallback_bits (probe_persona comfort economy family safety park)
          (probe_body suv sedan) (probe_fuel hybrid) (probe_seats seats)
          recent)) = true.
Proof.
  pose proof probes_checked as H.
  apply for_both_spec with (b := comfort) in H.
  apply for_both_spec with (b := economy) in H.
  apply for_both_spec with (b := family) in H.
  apply for_both_spec with (b := safety) in H.
  apply for_both_spec with (b := park) in H.
  apply for_both_spec with (b := suv) in H.
  apply for_both_spec with (b := sedan) in H.
  apply for_both_spec with (b := hybrid) in H.
  apply for_both_spec with (b := seats) in H.
  apply for_both_spec with (b := recent) in H.
  exact H.
Qed.

Lemma sentence_of_bits_well_formed persona body fuel seats recent :
  well_formed_reason
    (sentence_of_bits (fallback_bits persona body fuel seats recent)).
Proof.
  rewrite fallback_bits_probe. apply well_formed_reasonb_spec, probes_all.
Qed.

Lemma fallback_reason_cases user_text persona meta :
  match _fallback_reason_from_rules user_text persona meta with
  | Ok s =>
      well_formed_reason s
      /\ str_or_falsy (dict_get meta "body_type") = true
      /\ str_or_falsy (py_or (dict_get meta "fuel_type") (dict_get meta "fuel"))
         = true
  | Raise e =>
      e = AttributeError
      /\ (str_or_falsy (dict_get meta "body_type") = false
          \/ str_or_falsy (py_or (dict_get meta "fuel_type")
                             (dict_get meta "fuel")) = false)
  end.
Proof.
  unfold _fallback_reason_from_rules.
  destruct (str_or_falsy (dict_get meta "body_type")) eqn:E1.
  2:{ rewrite (or_empty_lower_raises _ E1). cbn. tauto. }
  destruct (or_empty_lower_ok _ E1) as [body ->]. cbn [bind].
  destruct (str_or_falsy (py_or (dict_get meta "fuel_type") (dict_get meta "fuel")))
    eqn:E2.
  2:{ rewrite (or_empty_lower_raises _ E2). cbn. tauto. }
  destruct (or_empty_lower_ok _ E2) as [fuel ->]. cbn [bind].
  set (recent := if truthy (dict_get meta "year") then _ else false).
  pose proof (sentence_of_bits_well_formed persona body fuel
                (dict_get meta "seats") recent) as Hw.
  unfold sentence_of_bits in Hw.
  destruct (fallback_bits persona body fuel (dict_get meta "seats") recent);
    (split; [exact Hw | tauto]).
Qed.

(** X17.  [_fallback_reason_from_rules] returns when [body_type] and
    [fuel_type or fuel] of the metadata are strings or falsy, and raises
    [AttributeError] otherwise; the sentence it returns is not empty, has
    at most 30 words and ends in terminal punctuation, whatever the
    persona and the metadata. *)
Theorem fallback_reason_spec (user_text : string) (persona : Persona)
    (meta : dict) :
  match _fallback_reason_from_rules user_text persona meta with
  | Ok s =>
      well_formed_reason s
      /\ str_or_falsy (dict_get meta "body_type") = true
      /\ str_or_falsy (py_or (dict_get meta "fuel_type") (dict_get meta "fuel"))
         = true
  | Raise e =>
      e = AttributeError
      /\ (str_or_falsy (dict_get meta "body_type") = false
          \/ str_or_falsy (py_or (dict_get meta "fuel_type")
                             (dict_get meta "fuel")) = false)
  end.
Proof. exact (fallback_reason_cases user_text persona meta). Qed.

Lemma fallback_well_formed user_text persona meta s :
  _fallback_reason_from_rules user_text persona meta = Ok s ->
  well_formed_reason s.
Proof.
  intro H. pose proof (fallback_reason_cases user_text persona meta) as Hc.
  rewrite H in Hc. tauto.
Qed.

Lemma generated_values_well_formed X ut p top rb :
  generate_reasons_for_top_k X ut p top = Ok rb ->
  forall k v, In (k, v) rb -> well_formed_reason v.
Proof.
  unfold generate_reasons_for_top_k.
  destruct (cars_for_prompt top) as [cars|]; [|discriminate].
  cbn [bind]. intros [= <-] k v Hin.
  destruct (ReasonFacts.reasons_of_reply_cases X
              (chat_completion X (ReasonsRequest ut p cars)))
    as [E | (raw & objs & _ & _ & E)]; rewrite E in Hin; [destruct Hin|].
  pose proof (ReasonFacts.reasons_of_data_entries X (PList objs)) as H.
  cbn match in H. rewrite Forall_forall in H.
  destruct (H _ Hin) as (o & r & _ & _ & _ & _ & _ & Hw). exact Hw.
Qed.

Lemma attached_reasons_well_formed (X : Externals) (parsed : dict)
    (persona : Persona) (candidates : list Candidate) (user_text : string)
    (top_k : Z) (ms : list dict) :
  score_candidates X parsed persona candidates user_text top_k = Ok ms ->
  Forall (fun m => exists s, dict_get m "reasons" = PList [PStr s]
                             /\ well_formed_reason s) ms.
Proof.
  intro H.
  destruct (score_candidates_run _ _ _ _ _ _ _ H) as (results & rb & _ & _ & Hg & Hr).
  pose proof (generated_values_well_formed _ _ _ _ _ Hg) as Hrb.
  apply (Forall2_Forall_r _ (fun _ => True) _ _ _ Hr);
    [apply Forall_forall; trivial|].
  intros r m _ Hrm.
  destruct Hrm as (s & -> & _ & Hs). exists s.
  split; [rewrite dict_get_set, String.eqb_refl; reflexivity|].
  destruct (assoc_get rb (py_str X (dict_get r "id"))) as [reason|] eqn:Eg.
  - subst s. apply (Hrb _ _ (assoc_get_in _ _ _ Eg)).
  - destruct Hs as (meta & _ & Hf). apply (fallback_well_formed _ _ _ _ Hf).
Qed.

(** X18.  Every match [score_candidates] returns has exactly one reason,
    and that reason, taken from the reply of the model or made by the
    rules, is not empty, has at most 30 words and ends in [.], [!] or
    [?]. *)
Theorem score_candidates_reasons_well_formed (X : Externals) (parsed : dict)
    (persona : Persona) (candidates : list Candidate) (user_text : string)
    (top_k : Z) (ms : list dict) :
  score_candidates X parsed persona candidates user_text top_k = Ok ms ->
  Forall (fun m => exists s, dict_get m "reasons" = PList [PStr s]
                             /\ well_formed_reason s) ms.
Proof.
  exact (attached_reasons_well_formed X parsed persona candidates user_text
           top_k ms).
Qed.

Lemma score_candidates_reasons_well_formed_witness :
  exists ms,
    score_candidates (externals silent) [] family_driver two_cars
      "any car" 3 = Ok ms
    /\ Forall (fun m => exists s, dict_get m "reasons" = PList [PStr s]
                                  /\ well_formed_reason s) ms.
Proof.
  eexists. split; [vm_compute; reflexivity|].
  apply (score_candidates_reasons_well_formed (externals silent) []
           family_driver two_cars "any car" 3).
  vm_compute. reflexivity.
Defined.

End SentenceFacts.

(* ------------------------------------------------------------------ *)
(** ** The persona *)

Module PersonaFacts.
Import PersonaAgent EnrichFacts ScoringFacts Inputs.

(** [dedup] keeps every element once. *)
Lemma dedup_from_in seen xs x :
  In x (dedup_from seen xs) <-> In x xs /\ ~ In x seen.
Proof.
  revert seen. induction xs as [|a r IH]; intro seen; cbn [dedup_from].
  - cbn. tauto.
  - destruct (Str.mem a seen) eqn:E.
    + apply mem_in in E. rewrite IH. cbn. split.
      * tauto.
      * intros [[->|H] Hn]; tauto.
    + assert (Hn : ~ In a seen).
      { intro H. apply mem_in in H. congruence. }
      cbn [In]. rewrite IH. cbn [In]. split.
      * intros [<-|[H1 H2]]; [tauto|]. split; [tauto|]. tauto.
      * intros [[<-|H] Hs]; [tauto|].
        destruct (string_dec a x) as [->|Hne]; [tauto|]. right. tauto.
Qed.

Lemma dedup_from_nodup seen xs : NoDup (dedup_from seen xs).
Proof.
  revert seen. induction xs as [|a r IH]; intro seen; cbn [dedup_from].
  - constructor.
  - destruct (Str.mem a seen); [apply IH|].
    constructor; [|apply IH].
    rewrite dedup_from_in. cbn. tauto.
Qed.

Lemma dedup_in xs x : In x (dedup xs) <-> In x xs.
Proof. unfold dedup. rewrite dedup_from_in. cbn. tauto. Qed.

Lemma dedup_nodup xs : NoDup (dedup xs).
Proof. apply dedup_from_nodup. Qed.

Lemma dedup_from_length seen xs :
  (List.length (dedup_from seen xs) <= List.length xs)%nat.
Proof.
  revert seen. induction xs as [|a r IH]; intro seen; cbn [dedup_from]; [lia|].
  destruct (Str.mem a seen); cbn; [specialize (IH seen) | specialize (IH (a :: seen))]; lia.
Qed.

Lemma mem_dedup x xs : Str.mem x (dedup xs) = Str.mem x xs.
Proof.
  apply eq_true_iff_eq. rewrite !mem_in. apply dedup_in.
Qed.

Lemma bool_from_pref_ok v items key :
  py_iter v = Ok items ->
  _bool_from_pref v key = Ok (pref_flag items key).
Proof. intro H. unfold _bool_from_pref. rewrite H. reflexivity. Qed.

Lemma py_ge_3_numeric v :
  numeric_or_none v = true -> truthy v = true -> exists b, py_ge_3 v = Ok b.
Proof. destruct v; cbn; try discriminate; eauto. Qed.

(** What a run that returns has computed. *)
Lemma build_persona_inv X parsed p :
  build_persona X parsed = Ok p ->
  exists usage_items prefs_items seats,
    py_iter (py_or (dict_get parsed "usage") (PList [])) = Ok usage_items
    /\ py_iter (py_or (dict_get parsed "preferences") (PList [])) = Ok prefs_items
    /\ numeric_or_none (dict_get parsed "family_size") = true
    /\ (List.length seats <= 1)%nat
    /\ let usage_lower := lower_strs usage_items in
       let family := Str.mem "family" usage_lower || big_family parsed in
       let flag := pref_flag prefs_items in
       primary_needs p =
         dedup
           ((if Str.mem "offroad" usage_lower
             then ["ruggedness"; "ground_clearance"] else [])
            ++ (if Str.mem "city" usage_lower
                then ["easy_to_park"; "fuel_economy"] else [])
            ++ (if Str.mem "highway" usage_lower
                then ["stability"; "comfort"] else [])
            ++ (if family then ["space"; "safety"] else [])
            ++ (if flag "safety" then ["safety"] else [])
            ++ (if flag "fuel" then ["fuel_economy"] else [])
            ++ (if flag "performance" || flag "power"
                then ["performance"] else [])
            ++ (if flag "comfort" then ["comfort"] else []))%list
       /\ secondary_needs p =
            dedup
              ((if flag "luxury" || flag "premium"
                then ["premium_features"] else [])
               ++ (if Str.mem "ev" (lower_strs prefs_items)
                      || Str.mem "electric" (lower_strs prefs_items)
                   then ["electric_or_hybrid"] else []))%list
       /\ constraints p =
            dedup
              (seats
               ++ (if truthy (dict_get parsed "budget_band")
                   then [("budget_band == '"
                          ++ py_str X (dict_get parsed "budget_band")
                          ++ "'")%string]
                   else [])
               ++ (if truthy (py_or (dict_get parsed "body_type_preference")
                                    (PList []))
                   then [("body_type in "
                          ++ py_str X (py_or (dict_get parsed
                                                "body_type_preference")
                                             (PList [])))%string]
                   else []))%list
       /\ label p = label_of (primary_needs p) (secondary_needs p)
                      usage_lower (dict_get parsed "budget_band").
Proof.
  unfold build_persona.
  destruct (py_iter (py_or (dict_get parsed "usage") (PList [])))
    as [usage_items|] eqn:Eu; [|discriminate]. cbn [bind].
  destruct (py_iter (py_or (dict_get parsed "preferences") (PList [])))
    as [prefs_items|] eqn:Ep; [|discriminate]. cbn [bind].
  rewrite !(bool_from_pref_ok _ _ _ Ep).
  set (flag := pref_flag prefs_items).
  destruct (if is_none (dict_get parsed "family_size") then _ else _)
    as [seats|] eqn:Es; [|discriminate]. cbn [bind].
  assert (Hnum : numeric_or_none (dict_get parsed "family_size") = true
                 /\ (List.length seats <= 1)%nat).
  { destruct (dict_get parsed "family_size"); cbn in Es; try discriminate;
      injection Es as <-; split; cbn; auto. }
  destruct Hnum as [Hnum Hlen].
  assert (Hfam : (if Str.mem "family" (lower_strs usage_items) then Ok true
                  else if truthy (dict_get parsed "family_size")
                       then py_ge_3 (dict_get parsed "family_size")
                       else Ok false)
                 = Ok (Str.mem "family" (lower_strs usage_items)
                       || big_family parsed)).
  { unfold big_family.
    destruct (Str.mem "family" (lower_strs usage_items)); [reflexivity|].
    destruct (truthy (dict_get parsed "family_size")) eqn:Et; [|reflexivity].
    destruct (py_ge_3_numeric _ Hnum Et) as [b ->]. reflexivity. }
  rewrite Hfam. cbn [bind].
  assert (Hor : forall a b : bool,
            (if a then Ok true else Ok b) = Ok (a || b))
    by (intros [] ?; reflexivity).
  rewrite !Hor. cbn [bind].
  intros [= <-]. exists usage_items, prefs_items, seats. cbn.
  repeat split; auto.
Qed.

Lemma build_persona_cases X parsed :
  match build_persona X parsed with
  | Ok p =>
      iterable_or_falsy (dict_get parsed "usage") = true
      /\ iterable_or_falsy (dict_get parsed "preferences") = true
      /\ numeric_or_none (dict_get parsed "family_size") = true
  | Raise e =>
      e = TypeError
      /\ (iterable_or_falsy (dict_get parsed "usage") = false
          \/ iterable_or_falsy (dict_get parsed "preferences") = false
          \/ numeric_or_none (dict_get parsed "family_size") = false)
  end.
Proof.
  unfold build_persona.
  destruct (iterable_or_falsy (dict_get parsed "usage")) eqn:E1.
  2:{ rewrite (iter_or_empty_raises _ E1). cbn. tauto. }
  destruct (iter_or_empty_ok _ E1) as [usage_items ->]. cbn [bind].
  destruct (iterable_or_falsy (dict_get parsed "preferences")) eqn:E2.
  2:{ rewrite (iter_or_empty_raises _ E2). cbn. tauto. }
  destruct (iter_or_empty_ok _ E2) as [prefs_items Ep]. rewrite Ep. cbn [bind].
  rewrite !(bool_from_pref_ok _ _ _ Ep).
  destruct (numeric_or_none (dict_get parsed "family_size")) eqn:E3.
  2:{ destruct (dict_get parsed "family_size"); try discriminate; cbn; tauto. }
  assert (Hs : exists seats,
             (if is_none (dict_get parsed "family_size") then Ok []
              else n <- py_add_one (dict_get parsed "family_size");;
                   Ok [("seats >= " ++ py_str X n)%string]) = Ok seats).
  { destruct (dict_get parsed "family_size"); try discriminate; cbn; eauto. }
  destruct Hs as [seats ->]. cbn [bind].
  assert (Hf : exists family,
             (if Str.mem "family" (lower_strs usage_items) then Ok true
              else if truthy (dict_get parsed "family_size")
                   then py_ge_3 (dict_get parsed "family_size")
                   else Ok false) = Ok family).
  { destruct (Str.mem "family" (lower_strs usage_items)); [eauto|].
    destruct (truthy (dict_get parsed "family_size")) eqn:Et; [|eauto].
    apply (py_ge_3_numeric _ E3 Et). }
  destruct Hf as [family ->]. cbn [bind].
  assert (Hor : forall a b : bool,
            (if a then Ok true else Ok b) = Ok (a || b))
    by (intros [] ?; reflexivity).
  rewrite !Hor. cbn [bind]. tauto.
Qed.

(** X19.  [build_persona] returns exactly when [usage] and [preferences]
    of the intent are iterable or falsy and [family_size] is [None] or a
    number; otherwise it raises [TypeError] (a string as [family_size],
    as a model may well reply, is such a case). *)
Theorem build_persona_outcome (X : Externals) (parsed : dict) :
  match build_persona X parsed with
  | Ok p =>
      iterable_or_falsy (dict_get parsed "usage") = true
      /\ iterable_or_falsy (dict_get parsed "preferences") = true
      /\ numeric_or_none (dict_get parsed "family_size") = true
  | Raise e =>
      e = TypeError
      /\ (iterable_or_falsy (dict_get parsed "usage") = false
          \/ iterable_or_falsy (dict_get parsed "preferences") = false
          \/ numeric_or_none (dict_get parsed "family_size") = false)
  end.
Proof. exact (build_persona_cases X parsed). Qed.

Lemma persona_lists_cases X parsed p :
  build_persona X parsed = Ok p ->
  NoDup (primary_needs p) /\ incl (primary_needs p) primary_vocabulary
  /\ NoDup (secondary_needs p) /\ incl (secondary_needs p) secondary_vocabulary
  /\ NoDup (constraints p) /\ (List.length (constraints p) <= 3)%nat.
Proof.
  intro H.
  destruct (build_persona_inv _ _ _ H)
    as (ui & pi & seats & _ & _ & _ & Hlen & Hp & Hs & Hc & _).
  rewrite Hp, Hs, Hc.
  split; [apply dedup_nodup|]. split.
  { intros x Hx. apply (proj1 (dedup_in _ _)) in Hx.
    repeat (apply in_app_or in Hx; destruct Hx as [Hx|Hx]);
      match type of Hx with
      | In _ (if ?b then _ else _) => destruct b
      end; cbn in Hx |- *; tauto. }
  split; [apply dedup_nodup|]. split.
  { intros x Hx. apply (proj1 (dedup_in _ _)) in Hx.
    repeat (apply in_app_or in Hx; destruct Hx as [Hx|Hx]);
      match type of Hx with
      | In _ (if ?b then _ else _) => destruct b
      end; cbn in Hx |- *; tauto. }
  split; [apply dedup_nodup|].
  etransitivity; [apply dedup_from_length|].
  rewrite !length_app.
  destruct (truthy (dict_get parsed "budget_band")),
           (truthy (py_or (dict_get parsed "body_type_preference") (PList [])));
    cbn; lia.
Qed.

(** X20.  The lists of a persona have no duplicates; its primary needs
    come from a vocabulary of nine words, its secondary needs from two,
    and it has at most three constraints. *)
Theorem persona_lists (X : Externals) (parsed : dict) (p : Persona) :
  build_persona X parsed = Ok p ->
  NoDup (primary_needs p) /\ incl (primary_needs p) primary_vocabulary
  /\ NoDup (secondary_needs p) /\ incl (secondary_needs p) secondary_vocabulary
  /\ NoDup (constraints p) /\ (List.length (constraints p) <= 3)%nat.
Proof. exact (persona_lists_cases X parsed p). Qed.

Lemma persona_lists_witness :
  exists p,
    build_persona (externals silent) commuter_intent = Ok p
    /\ NoDup (primary_needs p) /\ incl (primary_needs p) primary_vocabulary
    /\ NoDup (secondary_needs p)
    /\ incl (secondary_needs p) secondary_vocabulary
    /\ NoDup (constraints p) /\ (List.length (constraints p) <= 3)%nat.
Proof.
  eexists. split; [vm_compute; reflexivity|].
  apply (persona_lists (externals silent) commuter_intent).
  vm_compute. reflexivity.
Defined.

(** The cascade, read backwards from the label. *)
Lemma label_of_cases pn sn ul bb :
  In (label_of pn sn ul bb) persona_labels
  /\ (label_of pn sn ul bb = "Outdoor / Adventure Driver"
      <-> Str.mem "ruggedness" pn = true)
  /\ (label_of pn sn ul bb = "Family Driver"
      <-> Str.mem "ruggedness" pn = false
          /\ Str.mem "space" pn = true /\ Str.mem "safety" pn = true)
  /\ (Str.contains "family" (Str.lower (label_of pn sn ul bb)) = true
      -> label_of pn sn ul bb = "Family Driver").
Proof.
  unfold label_of.
  destruct (Str.mem "ruggedness" pn).
  { split; [cbn; tauto|]. split; [tauto|]. split.
    - split; [discriminate | intros [? _]; discriminate].
    - cbv. discriminate. }
  destruct (Str.mem "space" pn), (Str.mem "safety" pn); cbn [andb].
  { split; [cbn; tauto|]. split; [split; discriminate|]. tauto. }
  all: repeat match goal with
       | |- context [if ?b then _ else _] => destruct b
       end.
  all: split; [cbn; tauto|].
  all: split; [split; discriminate|].
  all: split; [split; [discriminate | intros (_ & ? & ?); discriminate]|].
  all: cbv; discriminate.
Qed.

Lemma usage_lower_of_ok parsed items :
  py_iter (py_or (dict_get parsed "usage") (PList [])) = Ok items ->
  usage_lower_of parsed = lower_strs items.
Proof. intro H. unfold usage_lower_of. rewrite H. reflexivity. Qed.

Lemma persona_label_cases X parsed p :
  build_persona X parsed = Ok p ->
  In (label p) persona_labels
  /\ (label p = "Outdoor / Adventure Driver"
      <-> In "offroad" (usage_lower_of parsed))
  /\ (label p = "Family Driver"
      <-> ~ In "offroad" (usage_lower_of parsed)
          /\ (In "family" (usage_lower_of parsed)
              \/ big_family parsed = true))
  /\ (Str.contains "family" (Str.lower (label p)) = true ->
      In "space" (primary_needs p) /\ In "safety" (primary_needs p)).
Proof.
  intro H.
  destruct (build_persona_inv _ _ _ H)
    as (ui & pi & seats & Hu & _ & _ & _ & Hp & _ & _ & Hl).
  cbv zeta in Hp, Hl.
  rewrite (usage_lower_of_ok _ _ Hu).
  set (ul := lower_strs ui) in *.
  set (family := Str.mem "family" ul || big_family parsed) in *.
  destruct (label_of_cases (primary_needs p) (secondary_needs p) ul
              (dict_get parsed "budget_band")) as (L1 & L2 & L3 & L4).
  rewrite <- Hl in L1, L2, L3, L4.
  assert (Hrug : Str.mem "ruggedness" (primary_needs p) = Str.mem "offroad" ul).
  { rewrite Hp, mem_dedup.
    destruct (Str.mem "offroad" ul); [reflexivity|].
    repeat match goal with
           | |- context [if ?b then _ else _] => destruct b
           end; reflexivity. }
  assert (Hspace : Str.mem "space" (primary_needs p) = family).
  { rewrite Hp, mem_dedup.
    repeat match goal with
           | |- context [if ?b then _ else _] => destruct b
           end; reflexivity. }
  assert (Hsafe : family = true -> Str.mem "safety" (primary_needs p) = true).
  { intro Hf. rewrite Hp, mem_dedup, Hf.
    repeat match goal with
           | |- context [if ?b then _ else _] => destruct b
           end; reflexivity. }
  split; [exact L1|]. split; [|split].
  - rewrite L2, Hrug. apply mem_in.
  - rewrite L3, Hrug, Hspace. rewrite <- (mem_in "offroad"), <- (mem_in "family").
    unfold family. split.
    + intros (Ho & Hf & _). split; [congruence|].
      apply orb_true_iff in Hf. exact Hf.
    + intros (Ho & Hf). apply orb_true_iff in Hf.
      split; [destruct (Str.mem "offroad" ul); congruence|].
      split; [exact Hf|]. apply Hsafe. exact Hf.
  - intro Hc. apply L4, L3 in Hc. destruct Hc as (_ & H1 & H2).
    split; apply mem_in; assumption.
Qed.

(** X21.  The label of a persona is one of seven.  It is the outdoor
    label exactly when [usage] holds [offroad] (in any case of letters),
    and [Family Driver] exactly when it does not and [usage] holds
    [family] or [family_size] is at least 3.  A label with [family] in it
    comes with [space] and [safety] among the primary needs. *)
Theorem persona_label_table (X : Externals) (parsed : dict) (p : Persona) :
  build_persona X parsed = Ok p ->
  In (label p) persona_labels
  /\ (label p = "Outdoor / Adventure Driver"
      <-> In "offroad" (usage_lower_of parsed))
  /\ (label p = "Family Driver"
      <-> ~ In "offroad" (usage_lower_of parsed)
          /\ (In "family" (usage_lower_of parsed)
              \/ big_family parsed = true))
  /\ (Str.contains "family" (Str.lower (label p)) = true ->
      In "space" (primary_needs p) /\ In "safety" (primary_needs p)).
Proof. exact (persona_label_cases X parsed p). Qed.

Lemma persona_label_table_witness :
  exists p,
    build_persona (externals silent) commuter_intent = Ok p
    /\ In (label p) persona_labels
    /\ (label p = "Outdoor / Adventure Driver"
        <-> In "offroad" (usage_lower_of commuter_intent))
    /\ (label p = "Family Driver"
        <-> ~ In "offroad" (usage_lower_of commuter_intent)
            /\ (In "family" (usage_lower_of commuter_intent)
                \/ big_family commuter_intent = true))
    /\ (Str.contains "family" (Str.lower (label p)) = true ->
        In "space" (primary_needs p) /\ In "safety" (primary_needs p)).
Proof.
  eexists. split; [vm_compute; reflexivity|].
  apply (persona_label_table (externals silent) commuter_intent).
  vm_compute. reflexivity.
Defined.

End PersonaFacts.

(* ------------------------------------------------------------------ *)
(** ** From the text to the recommendation *)

Module PipelineFacts.
Import Parser ParserFacts Matcher RankingFacts Spec PersonaAgent Main.
Import SetFacts EnrichFacts IntentFacts ScoringFacts SentenceFacts PersonaFacts.
Import Examples WalkthroughInputs Inputs.

Lemma usage_lower_of_tags d U :
  dict_get d "usage" = PList (map PStr U) -> Forall is_lower U ->
  usage_lower_of d = U.
Proof.
  intros H Hl. unfold usage_lower_of, py_or. rewrite H.
  destruct (truthy (PList (map PStr U))) eqn:Et; cbn [py_iter].
  - rewrite lower_strs_tags. apply map_lower_id, Hl.
  - destruct U; [reflexivity | discriminate].
Qed.

(** The persona of an enriched intent. *)
Lemma enriched_persona_cases X d0 t d :
  _enrich_from_text d0 t = Ok d ->
  ((exists p, build_persona X d = Ok p)
   <-> numeric_or_none (dict_get d "family_size") = true)
  /\ forall p, build_persona X d = Ok p ->
       (outdoor_words (Str.lower t) = true ->
        label p = "Outdoor / Adventure Driver")
       /\ (family_words (Str.lower t) = true ->
           label p = "Outdoor / Adventure Driver"
           \/ label p = "Family Driver").
Proof.
  intro H.
  destruct (enrich_shape _ _ _ H) as (_ & U & P & HU & HP & _ & HUl & _).
  destruct (enrich_keywords _ _ _ H) as (Kf & Ko & _).
  pose proof (usage_lower_of_tags _ _ HU HUl) as Hul.
  split.
  - pose proof (build_persona_cases X d) as Hc. split.
    + intros [p Hp]. rewrite Hp in Hc. tauto.
    + intro Hn. destruct (build_persona X d) as [p|e]; [eauto|].
      rewrite HU, HP, Hn in Hc. cbn in Hc.
      destruct Hc as (_ & [Hc|[Hc|Hc]]); discriminate.
  - intros p Hp.
    destruct (persona_label_cases _ _ _ Hp) as (_ & Lo & Lf & _).
    rewrite Hul in Lo, Lf.
    assert (Hin : forall x, Spec.usage_includes d x = true -> In x U)
      by (intros x; apply (usage_includes_in _ _ _ HU)).
    split.
    + intro Hw. apply Lo, Hin, Ko, Hw.
    + intro Hw. destruct (in_dec string_dec "offroad" U) as [Hi|Hn].
      * left. apply Lo, Hi.
      * right. apply Lf. split; [exact Hn|]. left. apply Hin, Kf, Hw.
Qed.

(** X22.  On an intent [parse_user_needs] returned, [build_persona]
    returns exactly when [family_size] is [None] or a number; the persona
    then has the outdoor label when the text has an outdoor word, and the
    outdoor or the family label when it has a family word. *)
Theorem intent_persona (X : Externals) (user_text : string) (d : dict) :
  parse_user_needs X user_text = Ok d ->
  ((exists p, build_persona X d = Ok p)
   <-> numeric_or_none (dict_get d "family_size") = true)
  /\ forall p, build_persona X d = Ok p ->
       (outdoor_words (Str.lower user_text) = true ->
        label p = "Outdoor / Adventure Driver")
       /\ (family_words (Str.lower user_text) = true ->
           label p = "Outdoor / Adventure Driver"
           \/ label p = "Family Driver").
Proof.
  intro H. destruct (parse_user_needs_enriched _ _ _ H) as [d0 H0].
  apply (enriched_persona_cases X d0 _ _ H0).
Qed.

Lemma intent_persona_witness :
  exists d,
    parse_user_needs (externals (always fenced_reply))
      "safe suv for camping with kids" = Ok d
    /\ ((exists p, build_persona (externals (always fenced_reply)) d = Ok p)
        <-> numeric_or_none (dict_get d "family_size") = true)
    /\ forall p, build_persona (externals (always fenced_reply)) d = Ok p ->
         (outdoor_words (Str.lower "safe suv for camping with kids") = true ->
          label p = "Outdoor / Adventure Driver")
         /\ (family_words (Str.lower "safe suv for camping with kids") = true ->
             label p = "Outdoor / Adventure Driver"
             \/ label p = "Family Driver").
Proof.
  eexists. split; [vm_compute; reflexivity|].
  apply (intent_persona (externals (always fenced_reply))
           "safe suv for camping with kids").
  vm_compute. reflexivity.
Defined.

(** The three matches of [recommend]. *)
Lemma score_candidates_top X parsed persona candidates user_text top_k ms :
  0 <= top_k ->
  score_candidates X parsed persona candidates user_text top_k = Ok ms ->
  (List.length ms <= Z.to_nat top_k)%nat
  /\ Forall score_in_range ms
  /\ descending ms.
Proof.
  intros Hk Hrun.
  destruct (score_candidates_run _ _ _ _ _ _ _ Hrun)
    as (results & rb & Hb & Hfresh & _ & Hms).
  rewrite (slice_to_nonneg _ _ Hk) in Hms.
  set (n := Z.to_nat top_k) in *.
  repeat split.
  - rewrite <- (Forall2_length_eq _ _ _ Hms), length_firstn. lia.
  - apply (reasoned_range _ _ _ _ _ _ Hms).
    assert (Hall : Forall score_in_range results).
    { apply (fresh_results_forall _ _ _ Hfresh). intros c m (_ & H & _). exact H. }
    rewrite Forall_forall in Hall |- *. intros x Hx. apply Hall.
    apply (Permutation_in _ (sort_desc_perm results)).
    rewrite <- (firstn_skipn n (sort_desc results)). apply in_or_app. left. exact Hx.
  - apply (reasoned_descending _ _ _ _ _ _ Hms), descending_firstn, sort_desc_sorted.
Qed.

(** X23.  A recommendation [recommend] returns holds the persona built
    from the parsed intent, with one of the seven labels, and at most
    three matches, sorted by score, each with a score between 0 and 100
    and one well-formed reason. *)
Theorem recommend_response (X : Externals) (R : Retrieval)
    (user_description : string) (persona : Persona) (matches : list dict) :
  recommend X R user_description = Recommendation persona matches ->
  (exists parsed, parse_user_needs X user_description = Ok parsed
                  /\ build_persona X parsed = Ok persona)
  /\ In (label persona) persona_labels
  /\ (List.length matches <= 3)%nat
  /\ descending matches
  /\ Forall (fun m => score_in_range m
                      /\ exists s, dict_get m "reasons" = PList [PStr s]
                                   /\ well_formed_reason s) matches.
Proof.
  unfold recommend.
  destruct (parse_user_needs X user_description) as [parsed|] eqn:Ep;
    [|discriminate].
  destruct (build_persona X parsed) as [p|] eqn:Eb; [|discriminate].
  destruct (get_embedding R user_description) as [[|e emb]|]; try discriminate.
  destruct (query_similar R (e :: emb) 20 (filter_obj_of parsed))
    as [candidates|]; [|discriminate].
  destruct (score_candidates X parsed p candidates user_description 3)
    as [ms|] eqn:Es; [|discriminate].
  intros [= <- <-].
  assert (H3 : 0 <= 3) by lia.
  destruct (score_candidates_top _ _ _ _ _ _ _ H3 Es) as (Hl & Hr & Hd).
  pose proof (attached_reasons_well_formed _ _ _ _ _ _ _ Es) as Hw.
  split; [eauto|].
  split; [apply (persona_label_cases _ _ _ Eb)|].
  split; [exact Hl|]. split; [exact Hd|].
  rewrite Forall_forall in Hr, Hw |- *. auto.
Qed.

Lemma recommend_response_witness :
  exists persona matches,
    recommend (externals silent) shelf camping_text
    = Recommendation persona matches
    /\ (exists parsed,
          parse_user_needs (externals silent) camping_text = Ok parsed
          /\ build_persona (externals silent) parsed = Ok persona)
    /\ In (label persona) persona_labels
    /\ (List.length matches <= 3)%nat
    /\ descending matches
    /\ Forall (fun m => score_in_range m
                        /\ exists s, dict_get m "reasons" = PList [PStr s]
                                     /\ well_formed_reason s) matches.
Proof.
  eexists _, _. split; [vm_compute; reflexivity|].
  apply (recommend_response (externals silent) shelf camping_text).
  vm_compute. reflexivity.
Defined.

(** A model that answers nothing leaves the heuristic pass. *)
Lemma parse_user_needs_silent X t :
  (forall r, no_text (chat_completion X r) = true) ->
  parse_user_needs X t = _simple_heuristic_parse t.
Proof.
  intro Hsilent. unfold parse_user_needs.
  assert (Htr : forall r, _looks_truncated (chat_completion X r) = true).
  { intro r. specialize (Hsilent r). unfold no_text in Hsilent.
    destruct (chat_completion X r) as [s|]; [|reflexivity].
    simpl. rewrite Hsilent. reflexivity. }
  rewrite Htr.
  pose proof (Hsilent (ParseRetryRequest t)) as H2.
  unfold no_text in H2.
  destruct (chat_completion X (ParseRetryRequest t)) as [s|]; [|reflexivity].
  rewrite H2. reflexivity.
Qed.

Lemma heuristic_intent_scorable t d :
  _simple_heuristic_parse t = Ok d ->
  scorable_intent d = true
  /\ numeric_or_none (dict_get d "family_size") = true.
Proof.
  intro H.
  destruct (heuristic_intent_cases t)
    as (d' & U & P & H' & Hf & Hb & HU & _ & _).
  rewrite H in H'. injection H' as <-.
  unfold scorable_intent. rewrite HU. cbn [iterable_or_falsy iterable orb andb].
  split.
  - cbn in Hb. destruct Hb as [<-|[<-|[<-|[<-|[]]]]]; reflexivity.
  - cbn in Hf. destruct Hf as [<-|[<-|[<-|[]]]]; reflexivity.
Qed.

Lemma heuristic_persona X t d :
  _simple_heuristic_parse t = Ok d -> exists p, build_persona X d = Ok p.
Proof.
  intro H. destruct (heuristic_intent_scorable _ _ H) as [_ Hn].
  destruct (heuristic_intent_cases t)
    as (d' & U & P & H' & _ & _ & HU & _ & HP & _).
  rewrite H in H'. injection H' as <-.
  pose proof (build_persona_cases X d) as Hc.
  destruct (build_persona X d) as [p|e]; [eauto|].
  rewrite HU, HP, Hn in Hc. cbn in Hc.
  destruct Hc as (_ & [Hc|[Hc|Hc]]); discriminate.
Qed.

Lemma scorable_build_matches X parsed candidates :
  scorable_intent parsed = true ->
  Forall (fun c => scorable_metadata (cand_metadata c) = true) candidates ->
  exists results, build_matches X parsed candidates = Ok results.
Proof.
  intros Hi Hm. pose proof (build_matches_cases X parsed candidates) as Hc.
  destruct (build_matches X parsed candidates) as [results|e]; [eauto|].
  destruct Hc as (_ & _ & [Hc|Hc]); [congruence|].
  apply Exists_exists in Hc. destruct Hc as (c & Hin & Hc).
  rewrite Forall_forall in Hm. rewrite (Hm _ Hin) in Hc. discriminate.
Qed.

Lemma silent_reasons X ut p top rb :
  (forall r, no_text (chat_completion X r) = true) ->
  Reason.generate_reasons_for_top_k X ut p top = Ok rb -> rb = [].
Proof.
  intros Hs. unfold Reason.generate_reasons_for_top_k.
  destruct (Reason.cars_for_prompt top) as [cars|]; [|discriminate].
  cbn [bind]. intros [= <-].
  specialize (Hs (ReasonsRequest ut p cars)). unfold no_text in Hs.
  unfold Reason.reasons_of_reply.
  destruct (chat_completion X (ReasonsRequest ut p cars)) as [raw|]; [|reflexivity].
  rewrite Hs. reflexivity.
Qed.

(** Without a reply every reason is the fallback sentence for empty
    metadata. *)
Lemma silent_matches X parsed persona candidates ut k ms :
  (forall r, no_text (chat_completion X r) = true) ->
  score_candidates X parsed persona candidates ut k = Ok ms ->
  exists sentence,
    Reason._fallback_reason_from_rules ut persona [] = Ok sentence
    /\ Forall (fun m => dict_get m "reasons" = PList [PStr sentence]) ms.
Proof.
  intros Hs H.
  destruct (fallback_empty_total ut persona) as [sentence Hsen].
  exists sentence. split; [exact Hsen|].
  destruct (score_candidates_run _ _ _ _ _ _ _ H) as (results & rb & _ & Hf & Hg & Hr).
  rewrite (silent_reasons _ _ _ _ _ Hs Hg) in Hr.
  pose proof (top_without_metadata _ _ k Hf) as Htop.
  apply (Forall2_Forall_r _ _ _ _ _ Hr Htop).
  intros r m Hmeta (s & -> & _ & Hcase). cbn [assoc_get] in Hcase.
  destruct Hcase as (meta & Hm & Hfb).
  rewrite (built_metadata_of _ Hmeta) in Hm. injection Hm as <-.
  rewrite Hsen in Hfb. injection Hfb as <-.
  rewrite dict_get_set, String.eqb_refl. reflexivity.
Qed.

(** X24.  With a model that answers nothing, [recommend] still answers
    whenever the embedding is not empty, the retriever returns for the
    filter made of the heuristic intent, and the metadata it returns is
    well typed: the intent is the heuristic one, the matches are the
    [min(3, len(candidates))] best, and every match carries the same
    sentence, the one the rules make of the persona alone. *)
Theorem recommend_without_model (X : Externals) (R : Retrieval)
    (user_description : string) (parsed : dict) (emb : list Q)
    (candidates : list Candidate) :
  (forall r, no_text (chat_completion X r) = true) ->
  _simple_heuristic_parse user_description = Ok parsed ->
  get_embedding R user_description = Some emb -> emb <> [] ->
  query_similar R emb 20 (filter_obj_of parsed) = Some candidates ->
  Forall (fun c => scorable_metadata (cand_metadata c) = true) candidates ->
  exists persona matches sentence,
    recommend X R user_description = Recommendation persona matches
    /\ parse_user_needs X user_description = Ok parsed
    /\ build_persona X parsed = Ok persona
    /\ List.length matches = Nat.min 3 (List.length candidates)
    /\ Reason._fallback_reason_from_rules user_description persona []
       = Ok sentence
    /\ Forall (fun m => dict_get m "reasons" = PList [PStr sentence]) matches.
Proof.
  intros Hs Hp He Hne Hq Hm.
  destruct (heuristic_persona X _ _ Hp) as [persona Hb].
  destruct (heuristic_intent_scorable _ _ Hp) as [Hi _].
  destruct (scorable_build_matches X parsed candidates Hi Hm) as [results Hr].
  destruct (score_candidates_returns X parsed persona candidates
              user_description 3 results Hr) as [ms Hms].
  destruct (silent_matches _ _ _ _ _ _ _ Hs Hms) as (sentence & Hsen & Hall).
  exists persona, ms, sentence.
  split.
  - unfold recommend. rewrite (parse_user_needs_silent _ _ Hs), Hp, Hb, He.
    destruct emb as [|e emb]; [contradiction|].
    rewrite Hq, Hms. reflexivity.
  - split; [rewrite (parse_user_needs_silent _ _ Hs); exact Hp|].
    split; [exact Hb|]. split.
    + assert (H3 : 0 <= 3) by lia.
      apply (score_candidates_length _ _ _ _ _ _ _ H3 Hms).
    + split; assumption.
Qed.

Lemma recommend_without_model_witness :
  (forall r, no_text (chat_completion (externals silent) r) = true)
  /\ exists parsed,
       _simple_heuristic_parse cheap_camping_text = Ok parsed
       /\ get_embedding filtering_shelf cheap_camping_text = Some [1%Q]
       /\ [1%Q] <> []
       /\ query_similar filtering_shelf [1%Q] 20 (filter_obj_of parsed)
          = Some [electric_car]
       /\ Forall (fun c => scorable_metadata (cand_metadata c) = true)
                 [electric_car]
       /\ exists persona matches sentence,
            recommend (externals silent) filtering_shelf cheap_camping_text
            = Recommendation persona matches
            /\ parse_user_needs (externals silent) cheap_camping_text
               = Ok parsed
            /\ build_persona (externals silent) parsed = Ok persona
            /\ List.length matches = Nat.min 3 (List.length [electric_car])
            /\ Reason._fallback_reason_from_rules cheap_camping_text
                 persona [] = Ok sentence
            /\ Forall (fun m => dict_get m "reasons"
                                = PList [PStr sentence]) matches.
Proof.
  assert (H1 : forall r, no_text (chat_completion (externals silent) r) = true)
    by (intro r; reflexivity).
  split; [exact H1|].
  eexists. split; [vm_compute; reflexivity|].
  split; [reflexivity|]. split; [discriminate|].
  split; [vm_compute; reflexivity|]. split; [repeat constructor|].
  apply (recommend_without_model (externals silent) filtering_shelf
           cheap_camping_text _ [1%Q] [electric_car] H1);
    [ vm_compute; reflexivity | reflexivity | discriminate
    | vm_compute; reflexivity | repeat constructor ].
Defined.

End PipelineFacts.

(* ------------------------------------------------------------------ *)
(** ** Characters and bytes *)

Module UnicodeFacts.
Import Str Parser.

Lemma ascii_not_continuation c : is_ascii c -> is_continuation c = false.
Proof.
  unfold is_ascii, is_continuation. intro H. cbv zeta.
  destruct (128 <=? nat_of_ascii c)%nat eqn:E; [|reflexivity].
  apply Nat.leb_le in E. lia.
Qed.

Lemma ascii_not_space2 c d : is_ascii c -> is_space2 c d = false.
Proof.
  unfold is_ascii, is_space2. intro H. cbv zeta.
  destruct (nat_of_ascii c =? 194)%nat eqn:E; [|reflexivity].
  apply Nat.eqb_eq in E. lia.
Qed.

Lemma ascii_not_space3 c d e : is_ascii c -> is_space3 c d e = false.
Proof.
  unfold is_ascii, is_space3. intro H. cbv zeta.
  assert (E1 : (nat_of_ascii c =? 225)%nat = false) by (apply Nat.eqb_neq; lia).
  assert (E2 : (nat_of_ascii c =? 226)%nat = false) by (apply Nat.eqb_neq; lia).
  assert (E3 : (nat_of_ascii c =? 227)%nat = false) by (apply Nat.eqb_neq; lia).
  rewrite E1, E2, E3. reflexivity.
Qed.

Lemma len_ascii l :
  Forall is_ascii l ->
  List.length (filter (fun c => negb (is_continuation c)) l) = List.length l.
Proof.
  induction 1 as [|c l Hc _ IH]; [reflexivity|].
  cbn [filter]. rewrite (ascii_not_continuation _ Hc). cbn. rewrite IH. reflexivity.
Qed.

Lemma lstrip_unicode_ascii l :
  Forall is_ascii l -> lstrip_unicode l = lstrip_chars l.
Proof.
  induction 1 as [|c l Hc Hl IH]; [reflexivity|].
  cbn [lstrip_unicode lstrip_chars].
  destruct (is_space c); [exact IH|].
  destruct l as [|d l]; [reflexivity|].
  rewrite (ascii_not_space2 _ d Hc).
  destruct l as [|e l]; [reflexivity|].
  rewrite (ascii_not_space3 _ d e Hc). reflexivity.
Qed.

Lemma lstrip_unicode_rev_ascii l :
  Forall is_ascii l -> lstrip_unicode_rev l = lstrip_chars l.
Proof.
  induction 1 as [|e l He Hl IH]; [reflexivity|].
  cbn [lstrip_unicode_rev lstrip_chars].
  destruct (is_space e); [exact IH|].
  destruct l as [|d l]; [reflexivity|].
  inversion Hl as [|? ? Hd Hl']; subst.
  rewrite (ascii_not_space2 _ e Hd).
  destruct l as [|c l]; [reflexivity|].
  inversion Hl' as [|? ? Hc _]; subst.
  rewrite (ascii_not_space3 _ d e Hc). reflexivity.
Qed.

Lemma lstrip_chars_ascii l : Forall is_ascii l -> Forall is_ascii (lstrip_chars l).
Proof.
  induction 1 as [|c l Hc Hl IH]; [constructor|].
  cbn [lstrip_chars]. destruct (is_space c); [exact IH | constructor; assumption].
Qed.

Lemma rev_ascii l : Forall is_ascii l -> Forall is_ascii (rev l).
Proof.
  intro H. rewrite Forall_forall in *. intros c Hc. apply H, in_rev, Hc.
Qed.

Lemma strip_unicode_ascii s : ascii_text s -> strip_unicode s = strip s.
Proof.
  unfold ascii_text, strip_unicode, strip, rstrip_chars. intro H.
  rewrite (lstrip_unicode_ascii _ H).
  rewrite lstrip_unicode_rev_ascii; [reflexivity|].
  apply rev_ascii, lstrip_chars_ascii, H.
Qed.

Lemma strip_ascii s : ascii_text s -> ascii_text (strip s).
Proof.
  unfold ascii_text, strip, rstrip_chars. intro H.
  rewrite StrFacts.chars_of_chars.
  apply rev_ascii, lstrip_chars_ascii, rev_ascii, lstrip_chars_ascii, H.
Qed.

Lemma length_chars s : List.length (chars s) = String.length s.
Proof. unfold chars. induction s as [|c s IH]; cbn; congruence. Qed.

Lemma len_ascii_text s : ascii_text s -> len s = String.length s.
Proof.
  intro H. unfold len. rewrite (len_ascii _ H). apply length_chars.
Qed.

Lemma lower_chars s : chars (lower s) = map lower_ascii (chars s).
Proof. unfold chars. induction s as [|c s IH]; cbn; congruence. Qed.

Lemma lower_unicode_chars_ascii l :
  Forall is_ascii l -> lower_unicode_chars l = map lower_ascii l.
Proof.
  induction 1 as [|c l Hc Hl IH]; [reflexivity|].
  cbn [lower_unicode_chars map].
  assert (E1 : (nat_of_ascii c =? 196)%nat = false)
    by (apply Nat.eqb_neq; unfold is_ascii in Hc; lia).
  assert (E2 : (nat_of_ascii c =? 226)%nat = false)
    by (apply Nat.eqb_neq; unfold is_ascii in Hc; lia).
  destruct l as [|d l]; [reflexivity|].
  rewrite E1. cbn [andb].
  destruct l as [|e l]; rewrite ?E2; cbn [andb]; rewrite IH; reflexivity.
Qed.

Lemma lower_unicode_ascii s : ascii_text s -> lower_unicode s = lower s.
Proof.
  unfold ascii_text, lower_unicode. intro H.
  rewrite (lower_unicode_chars_ascii _ H), <- lower_chars.
  apply StrFacts.of_chars_chars.
Qed.

(** On ASCII text the test is the one on bytes. *)
Lemma looks_truncated_ascii s :
  ascii_text s ->
  _looks_truncated (Some s)
  = if String.eqb s "" then true
    else if Str.contains "finish_reason=max_tokens" (Str.lower s)
            || Str.contains "max_tokens" (Str.lower s)
            || Str.contains "partial" (Str.lower s)
    then true
    else if Str.contains "sdk_http_response" (Str.lower s)
            || Str.contains "candidates=" (Str.lower s)
    then true
    else (String.length (Str.strip s) <? 5)%nat.
Proof.
  intro H. unfold _looks_truncated. cbv zeta.
  rewrite (lower_unicode_ascii _ H), (strip_unicode_ascii _ H).
  rewrite (len_ascii_text _ (strip_ascii _ H)). reflexivity.
Qed.

End UnicodeFacts.
